(** * The live-feed synchroniser of the MEV dashboard

    A shallow embedding of [src/components/Dashboard.tsx]: the retained
    sandwich list with its localStorage cache, the WebSocket feed with its
    reconnect and fallback timers, the live balance series, the
    profit-per-hour snapshot, and the rows of the live feed as React
    renders them before it commits a list. *)

From Stdlib Require Import ZArith Lia List String Bool.
From stdpp Require Import base list strings pretty gmap.

Local Open Scope string_scope.
Local Open Scope Z_scope.
Set Warnings "-register-all".

(** ** JavaScript values

    What [JSON.parse] can produce, plus [undefined] for a missing property.
    Numbers are the integer-valued ones: the program inspects slots and
    timestamps only; the amounts of a sandwich are carried and formatted
    for display. *)

Inductive jsval : Type :=
| JUndefined
| JNull
| JBool (b : bool)
| JNum (n : Z)
| JStr (s : string)
| JArr (items : list jsval)
| JObj (fields : list (string * jsval)).

Inductive error : Type :=
| SyntaxError | TypeError | SecurityError | QuotaExceededError | NetworkError
| RangeError | InvalidChildError.

(** The outcome of evaluating an expression or running a statement. *)
Inductive completion (A : Type) : Type :=
| Normal (a : A)
| Thrown (e : error).
Arguments Normal {A} a.
Arguments Thrown {A} e.

Definition cbind {A B} (c : completion A) (k : A -> completion B) : completion B :=
  match c with
  | Normal a => k a
  | Thrown e => Thrown e
  end.

Notation "'let!' x ':=' c 'in' k" := (cbind c (fun x => k))
  (at level 10, x name, c at level 100, k at level 200).

(** ToBoolean. *)
Definition truthy (v : jsval) : bool :=
  match v with
  | JUndefined | JNull => false
  | JBool b => b
  | JNum n => negb (n =? 0)
  | JStr s => negb (String.eqb s "")
  | JArr _ | JObj _ => true
  end.

Fixpoint lookup_field (k : string) (fields : list (string * jsval)) : jsval :=
  match fields with
  | [] => JUndefined
  | (k', v) :: rest => if String.eqb k k' then v else lookup_field k rest
  end.

(** [v.k] for the keys the program reads ([data], [sandwich], [slot] and
    the other fields of a record), none of which lives on a prototype:
    reading from [null] or [undefined] throws, an object gives its own
    field, anything else [undefined]. *)
Definition get_prop (v : jsval) (k : string) : completion jsval :=
  match v with
  | JUndefined | JNull => Thrown TypeError
  | JObj fields => Normal (lookup_field k fields)
  | _ => Normal JUndefined
  end.

(** [a === b].  Two arrays or objects are equal only when they are the same
    object; the operands compared by the program come from different
    [JSON.parse] calls, so they never are. *)
Definition strict_eq (a b : jsval) : bool :=
  match a, b with
  | JUndefined, JUndefined => true
  | JNull, JNull => true
  | JBool x, JBool y => Bool.eqb x y
  | JNum x, JNum y => x =? y
  | JStr x, JStr y => String.eqb x y
  | _, _ => false
  end.

(** An array object: its identity and its elements.  The program never
    writes into an array after building it, so the elements travel with the
    identity; [Object.is] on two arrays compares the identities. *)
Record array : Type := { ref : nat; elems : list jsval }.

Definition Object_is (a b : array) : bool := Nat.eqb (ref a) (ref b).

(** ** Statements with state and exceptions *)

Definition M (S A : Type) : Type := S -> completion A * S.

Definition ret {S A} (a : A) : M S A := fun s => (Normal a, s).
Definition bind {S A B} (m : M S A) (k : A -> M S B) : M S B :=
  fun s => match m s with
           | (Normal a, s') => k a s'
           | (Thrown e, s') => (Thrown e, s')
           end.
Definition lift {S A} (c : completion A) : M S A := fun s => (c, s).
Definition try_catch {S A} (body : M S A) (handler : error -> M S A) : M S A :=
  fun s => match body s with
           | (Normal a, s') => (Normal a, s')
           | (Thrown e, s') => handler e s'
           end.
Definition modify {S} (f : S -> S) : M S unit := fun s => (Normal tt, f s).
Definition gets {S A} (f : S -> A) : M S A := fun s => (Normal (f s), s).

Notation "'run' x ':=' c 'in' k" := (bind c (fun x => k))
  (at level 10, x name, c at level 100, k at level 200).

(** ** The host: localStorage, console, heap, sockets and timers *)

(** The one localStorage entry the program uses, under [LOCAL_STORAGE_KEY]. *)
Record Storage : Type := {
  accessible : bool;          (* false: every access throws a SecurityError *)
  item : option string;       (* the entry; [None] is getItem's null *)
  quota_left : bool;          (* false: setItem throws QuotaExceededError *)
  setItem_calls : list string (* every setItem issued, oldest first *)
}.

Inductive diagnostic : Type :=
| Error_reading_sandwiches_from_localStorage
| Error_saving_sandwiches_to_localStorage
| Attempted_to_add_sandwich_with_unexpected_structure (v : jsval)
| Error_parsing_fallback_sandwich_data_JSON
| Error_fetching_fallback_sandwich_data
| Received_WebSocket_message_with_unexpected_structure (v : jsval)
| Error_parsing_WebSocket_data
| WebSocket_error.

(** The closures the program hands to a timer. *)
Inductive callback : Type :=
| fetchSandwichesFallback_cb
| connectWebSocket_cb (nextUrl : string)
| periodic_reconnect_cb.

Record Timer : Type := { repeating : bool; delay : Z; action : callback }.

(** The handlers of a socket: those installed by [connectWebSocket url], or
    the empty function. *)
Inductive handler : Type :=
| feed_handler
| empty_handler.

Record Socket : Type := {
  url : string;
  onopen : handler;
  onmessage : handler;
  onerror : handler;
  onclose : handler;
  close_called : bool
}.

Record Host : Type := {
  storage : Storage;
  console : list diagnostic;      (* console.error calls, oldest first *)
  allocated : nat;                (* arrays built so far: the next identity *)
  sockets : list Socket;          (* every WebSocket constructed; a socket is
                                     named by its position *)
  scheduled : list Timer;         (* every setTimeout/setInterval call, oldest
                                     first; a timer's id is its position *)
  timers : list (positive * Timer); (* pending timers, by id *)
  polls_issued : nat              (* instantQuery('last_sandwich_data') calls *)
}.

Definition with_storage (x : Storage) (h : Host) : Host :=
  {| storage := x; console := console h; allocated := allocated h;
     sockets := sockets h; scheduled := scheduled h; timers := timers h;
     polls_issued := polls_issued h |}.
Definition with_console (x : list diagnostic) (h : Host) : Host :=
  {| storage := storage h; console := x; allocated := allocated h;
     sockets := sockets h; scheduled := scheduled h; timers := timers h;
     polls_issued := polls_issued h |}.
Definition with_allocated (x : nat) (h : Host) : Host :=
  {| storage := storage h; console := console h; allocated := x;
     sockets := sockets h; scheduled := scheduled h; timers := timers h;
     polls_issued := polls_issued h |}.
Definition with_sockets (x : list Socket) (h : Host) : Host :=
  {| storage := storage h; console := console h; allocated := allocated h;
     sockets := x; scheduled := scheduled h; timers := timers h;
     polls_issued := polls_issued h |}.
Definition with_scheduled (x : list Timer) (h : Host) : Host :=
  {| storage := storage h; console := console h; allocated := allocated h;
     sockets := sockets h; scheduled := x; timers := timers h;
     polls_issued := polls_issued h |}.
Definition with_timers (x : list (positive * Timer)) (h : Host) : Host :=
  {| storage := storage h; console := console h; allocated := allocated h;
     sockets := sockets h; scheduled := scheduled h; timers := x;
     polls_issued := polls_issued h |}.
Definition with_polls_issued (x : nat) (h : Host) : Host :=
  {| storage := storage h; console := console h; allocated := allocated h;
     sockets := sockets h; scheduled := scheduled h; timers := timers h;
     polls_issued := x |}.

Definition console_error (d : diagnostic) : M Host unit :=
  modify (fun h => with_console (console h ++ [d])%list h).

(** [new Array]: a fresh identity for the given elements. *)
Definition new_array (l : list jsval) : M Host array :=
  fun h => (Normal {| ref := allocated h; elems := l |},
            with_allocated (S (allocated h)) h).

Definition localStorage_getItem : M Host (option string) :=
  fun h => if accessible (storage h) then (Normal (item (storage h)), h)
           else (Thrown SecurityError, h).

Definition localStorage_setItem (v : string) : M Host unit :=
  fun h =>
    let st := storage h in
    let logged := (setItem_calls st ++ [v])%list in
    if accessible st && quota_left st then
      (Normal tt,
       with_storage {| accessible := true; item := Some v;
                       quota_left := true; setItem_calls := logged |} h)
    else
      (Thrown (if accessible st then QuotaExceededError else SecurityError),
       with_storage {| accessible := accessible st; item := item st;
                       quota_left := quota_left st; setItem_calls := logged |} h).

(** [setTimeout] and [setInterval]: the id handed back is a positive number,
    so a stored id is never falsy. *)
Definition setTimer (t : Timer) : M Host positive :=
  fun h =>
    let id := Pos.of_succ_nat (length (scheduled h)) in
    (Normal id,
     with_timers (timers h ++ [(id, t)])%list
       (with_scheduled (scheduled h ++ [t])%list h)).

Definition setTimeout (cb : callback) (ms : Z) : M Host positive :=
  setTimer {| repeating := false; delay := ms; action := cb |}.

Definition setInterval (cb : callback) (ms : Z) : M Host positive :=
  setTimer {| repeating := true; delay := ms; action := cb |}.

Definition without_timer (id : positive) (l : list (positive * Timer)) :=
  List.filter (fun p => negb (Pos.eqb (fst p) id)) l.

Definition clearInterval (id : positive) : M Host unit :=
  modify (fun h => with_timers (without_timer id (timers h)) h).

(** A timeout that fires is pending no more. *)
Definition timeout_done (id : positive) : M Host unit :=
  modify (fun h => with_timers (without_timer id (timers h)) h).

(** [new WebSocket(u)], taken to succeed, followed by the four handler
    assignments of [connectWebSocket]; they run in one turn of the event
    loop. *)
Definition new_WebSocket (u : string) : M Host nat :=
  fun h =>
    (Normal (length (sockets h)),
     with_sockets (sockets h ++ [{| url := u; onopen := feed_handler;
                                    onmessage := feed_handler;
                                    onerror := feed_handler;
                                    onclose := feed_handler;
                                    close_called := false |}])%list h).

Definition alter_socket (f : Socket -> Socket) (n : nat) : M Host unit :=
  modify (fun h => with_sockets (alter f n (sockets h)) h).

Definition WebSocket_close (n : nat) : M Host unit :=
  alter_socket (fun s => {| url := url s; onopen := onopen s;
                            onmessage := onmessage s; onerror := onerror s;
                            onclose := onclose s; close_called := true |}) n.

Definition set_onclose (hd : handler) (n : nat) : M Host unit :=
  alter_socket (fun s => {| url := url s; onopen := onopen s;
                            onmessage := onmessage s; onerror := onerror s;
                            onclose := hd; close_called := close_called s |}) n.

(** ** The component: React state and the variables of the WebSocket effect *)

Record React : Type := {
  sandwiches : array;
  mounted : bool;               (* React drops updates of an unmounted component *)
  render_error : option error   (* the error of a render that failed *)
}.

Record Feed : Type := {
  websocket : option nat;
  reconnectAttempts : nat;
  fallbackIntervalId : option positive;
  reconnectIntervalId : option positive;
  initialFallbackIntervalId : option positive
}.

Record World : Type := { react : React; feed : Feed; host : Host }.

Definition on_host {A} (m : M Host A) : M World A :=
  fun w => let (r, h) := m (host w) in
           (r, {| react := react w; feed := feed w; host := h |}).

Definition with_feed (f : Feed -> Feed) : M World unit :=
  modify (fun w => {| react := react w; feed := f (feed w); host := host w |}).

Definition set_websocket (x : option nat) (f : Feed) : Feed :=
  {| websocket := x; reconnectAttempts := reconnectAttempts f;
     fallbackIntervalId := fallbackIntervalId f;
     reconnectIntervalId := reconnectIntervalId f;
     initialFallbackIntervalId := initialFallbackIntervalId f |}.
Definition set_reconnectAttempts (x : nat) (f : Feed) : Feed :=
  {| websocket := websocket f; reconnectAttempts := x;
     fallbackIntervalId := fallbackIntervalId f;
     reconnectIntervalId := reconnectIntervalId f;
     initialFallbackIntervalId := initialFallbackIntervalId f |}.
Definition set_fallbackIntervalId (x : option positive) (f : Feed) : Feed :=
  {| websocket := websocket f; reconnectAttempts := reconnectAttempts f;
     fallbackIntervalId := x;
     reconnectIntervalId := reconnectIntervalId f;
     initialFallbackIntervalId := initialFallbackIntervalId f |}.
Definition set_reconnectIntervalId (x : option positive) (f : Feed) : Feed :=
  {| websocket := websocket f; reconnectAttempts := reconnectAttempts f;
     fallbackIntervalId := fallbackIntervalId f;
     reconnectIntervalId := x;
     initialFallbackIntervalId := initialFallbackIntervalId f |}.
Definition set_initialFallbackIntervalId (x : option positive) (f : Feed) : Feed :=
  {| websocket := websocket f; reconnectAttempts := reconnectAttempts f;
     fallbackIntervalId := fallbackIntervalId f;
     reconnectIntervalId := reconnectIntervalId f;
     initialFallbackIntervalId := x |}.

Definition primaryWsUrl : string := "ws://208.91.110.246:6287/ws/livefeed".
Definition fallbackWsUrl : string := "ws://136.144.59.181:6287/ws/livefeed".
Definition maxReconnectAttempts : nat := 10.
Definition reconnectDelay : Z := 3000.

(** What [prometheus-query] resolves an instant or range query to: a matrix
    of series, a vector of entries whose [value] is a sample [(time, value)]
    or missing, or another result type. *)
Inductive QueryResult (V : Type) : Type :=
| matrix (result : list (list (Z * V)))
| vector (result : list (option (Z * V)))
| scalar.
Arguments matrix {V} result.
Arguments vector {V} result.
Arguments scalar {V}.

(** What the host delivers to the component. *)
Inductive event : Type :=
| socket_open (n : nat)
| socket_message (n : nat) (data : string)
| socket_error (n : nat)
| socket_close (n : nat) (code : Z)
| timer_fired (id : positive)
| query_resolved (r : completion (QueryResult string))
| unmount.

(** ** The live balance series *)

Record point (V : Type) : Type := { time : Z; balance : V }.
Arguments time {V} p.
Arguments balance {V} p.

Record BalanceState (V : Type) : Type := {
  liveBalance : V;
  balanceChartData : list (point V)
}.
Arguments liveBalance {V} b.
Arguments balanceChartData {V} b.

(** The function [fetchLatestBalance] hands to [setBalanceChartData]. *)
Definition balance_updater {V} (newTimestamp : Z) (newBalance : V)
    (prevData : list (point V)) : list (point V) :=
  let newDataPoint := {| time := newTimestamp; balance := newBalance |} in
  match last prevData with
  | Some p =>
      if time p >=? newTimestamp then prevData
      else (prevData ++ [newDataPoint])%list
  | None => (prevData ++ [newDataPoint])%list
  end.

(** [fetchLatestBalance] from its [await] on. *)
Definition fetchLatestBalance_resume {V} (r : completion (QueryResult V))
    (b : BalanceState V) : BalanceState V :=
  match r with
  | Normal (vector (Some (newTimestamp, newBalance) :: _)) =>
      {| liveBalance := newBalance;
         balanceChartData :=
           balance_updater newTimestamp newBalance (balanceChartData b) |}
  | _ => b
  end.

Fixpoint live_updates {V} (rs : list (completion (QueryResult V)))
    (b : BalanceState V) : BalanceState V :=
  match rs with
  | [] => b
  | r :: rest => live_updates rest (fetchLatestBalance_resume r b)
  end.

(** Timestamps strictly increase along the series. *)
Fixpoint ascending {V} (l : list (point V)) : bool :=
  match l with
  | [] => true
  | p :: rest =>
      match rest with
      | [] => true
      | q :: _ => (time p <? time q) && ascending rest
      end
  end.

(** ** The profit-per-hour snapshot *)

Definition timeRanges : list string := ["1h"; "3h"; "6h"; "12h"; "24h"].

(** The body of the loop of [fetchProfitPerHour] from its [await] on: the
    value stored under the label. *)
Definition profit_entry {V} (zero : V) (r : completion (QueryResult V)) : V :=
  match r with
  | Normal (vector (Some (_, value) :: _)) => value
  | Normal (vector (None :: _)) => zero
  | Normal _ => zero
  | Thrown _ => zero
  end.

(** A call of [fetchProfitPerHour] suspended at an [await]: the labels not
    yet answered, the awaited one first, and the local [profits]. *)
Record ProfitFetch (V : Type) : Type := {
  awaiting : list string;
  profits : gmap string V
}.
Arguments awaiting {V} p.
Arguments profits {V} p.

Definition fetchProfitPerHour_start {V} : ProfitFetch V :=
  {| awaiting := timeRanges; profits := ∅ |}.

(** The awaited query settles: the label is stored, and either the next
    query is awaited or the loop is over and [setProfitPerHour(profits)]
    runs.  The second component is the [profitPerHour] readers see. *)
Definition fetchProfitPerHour_resume {V} (zero : V)
    (r : completion (QueryResult V)) (f : ProfitFetch V)
    (profitPerHour : gmap string V) : ProfitFetch V * gmap string V :=
  match awaiting f with
  | [] => (f, profitPerHour)
  | range :: rest =>
      let stored := <[range := profit_entry zero r]> (profits f) in
      match rest with
      | [] => ({| awaiting := []; profits := stored |}, stored)
      | _ :: _ => ({| awaiting := rest; profits := stored |}, profitPerHour)
      end
  end.

(** The snapshots readers see after each settled query of one call. *)
Fixpoint fetchProfitPerHour_run {V} (zero : V)
    (rs : list (completion (QueryResult V))) (f : ProfitFetch V)
    (profitPerHour : gmap string V) : list (gmap string V) :=
  match rs with
  | [] => []
  | r :: rest =>
      let '(f', seen) := fetchProfitPerHour_resume zero r f profitPerHour in
      seen :: fetchProfitPerHour_run zero rest f' seen
  end.

(** How many elements of [l] satisfy [f]. *)
Definition count_if {A} (f : A -> bool) (l : list A) : nat :=
  length (List.filter f l).
Arguments count_if : simpl never.

(** The engine's [JSON.parse] and [JSON.stringify]. *)
Class Engine : Type := {
  JSON_parse : string -> completion jsval;
  JSON_stringify : jsval -> string
}.

Section Dashboard.

Context {engine : Engine}.

(** ** The retained sandwiches and their cache *)

(** [getInitialSandwiches]: the [try] block, with the [return] inside it as
    [Some] and falling out of it as [None]. *)
Definition getInitialSandwiches_try : M Host (option array) :=
  run storedData := localStorage_getItem in
  match storedData with
  | Some s =>
      if negb (String.eqb s "") then
        run parsedData := lift (JSON_parse s) in
        match parsedData with
        | JArr items => run a := new_array (firstn 50 items) in ret (Some a)
        | _ => ret None
        end
      else ret None
  | None => ret None
  end.

Definition getInitialSandwiches : M Host array :=
  run r := try_catch getInitialSandwiches_try
             (fun _ =>
                run _ := console_error Error_reading_sandwiches_from_localStorage in
                ret None) in
  match r with
  | Some a => ret a
  | None => new_array []
  end.

(** [newSandwich && newSandwich.data && newSandwich.data.sandwich], as the
    condition of an [if]. *)
Definition has_sandwich (v : jsval) : completion bool :=
  if truthy v then
    let! d := get_prop v "data" in
    if truthy d then
      let! sw := get_prop d "sandwich" in
      Normal (truthy sw)
    else Normal false
  else Normal false.

(** [s.data.sandwich.slot] *)
Definition slot_of (s : jsval) : completion jsval :=
  let! d := get_prop s "data" in
  let! sw := get_prop d "sandwich" in
  get_prop sw "slot".

(** [s => s.data.sandwich.slot === newSandwich.data.sandwich.slot] *)
Definition same_slot (newSandwich s : jsval) : completion bool :=
  let! a := slot_of s in
  let! b := slot_of newSandwich in
  Normal (strict_eq a b).

(** [Array.prototype.findIndex], counting from [i]. *)
Fixpoint findIndex_from (p : jsval -> completion bool) (l : list jsval) (i : Z)
  : completion Z :=
  match l with
  | [] => Normal (-1)
  | s :: rest =>
      let! found := p s in
      if found then Normal i else findIndex_from p rest (i + 1)
  end.

Definition findIndex (p : jsval -> completion bool) (l : list jsval) : completion Z :=
  findIndex_from p l 0.

(** The function [updateSandwiches] hands to [setSandwiches]. *)
Definition updateSandwiches_updater (newSandwich : jsval) (prev : array)
  : M Host array :=
  run existingIndex := lift (findIndex (same_slot newSandwich) (elems prev)) in
  if existingIndex =? -1 then
    run spread := new_array (newSandwich :: elems prev) in
    new_array (firstn 50 (elems spread))
  else ret prev.

(** The effect that saves the sandwiches, run after the first render and
    after every render in which [sandwiches] is another object. *)
Definition save_effect : M World unit :=
  try_catch
    (run s := gets (fun w => sandwiches (react w)) in
     run head := on_host (new_array (firstn 50 (elems s))) in
     on_host (localStorage_setItem (JSON_stringify (JArr (elems head)))))
    (fun _ => on_host (console_error Error_saving_sandwiches_to_localStorage)).

(** [setSandwiches(updater)] with every state committed.  React runs the
    updater on the current state while rendering; when it throws the render
    fails, when it returns the same object nothing is rendered and no effect
    runs.  The render of the rows, which comes before the commit, and the
    unmount that follows a failed render are in [Rendered.setSandwiches]. *)
Definition setSandwiches (updater : array -> M Host array) : M World unit :=
  fun w =>
    if mounted (react w) then
      match updater (sandwiches (react w)) (host w) with
      | (Normal next, h) =>
          if Object_is next (sandwiches (react w)) then
            (Normal tt, {| react := react w; feed := feed w; host := h |})
          else
            save_effect {| react := {| sandwiches := next; mounted := true;
                                       render_error := render_error (react w) |};
                           feed := feed w; host := h |}
      | (Thrown e, h) =>
          (Normal tt, {| react := {| sandwiches := sandwiches (react w);
                                     mounted := true;
                                     render_error := Some e |};
                         feed := feed w; host := h |})
      end
    else (Normal tt, w).

Definition updateSandwiches (newSandwich : jsval) : M World unit :=
  run ok := lift (has_sandwich newSandwich) in
  if ok then setSandwiches (updateSandwiches_updater newSandwich)
  else on_host (console_error
                  (Attempted_to_add_sandwich_with_unexpected_structure newSandwich)).

(** ** The feed client *)

(** [fetchSandwichesFallback] up to its [await]: the query is issued. *)
Definition fetchSandwichesFallback : M World unit :=
  on_host (modify (fun h => with_polls_issued (S (polls_issued h)) h)).

(** [fetchSandwichesFallback] from its [await] on; the sample value is given
    as its [toString()]. *)
Definition fetchSandwichesFallback_resume (r : completion (QueryResult string))
  : M World unit :=
  try_catch
    (run result := lift r in
     match result with
     | vector (Some (_, value) :: _) =>
         try_catch
           (run sandwichData := lift (JSON_parse value) in
            updateSandwiches sandwichData)
           (fun _ => on_host (console_error Error_parsing_fallback_sandwich_data_JSON))
     | _ => ret tt
     end)
    (fun _ => on_host (console_error Error_fetching_fallback_sandwich_data)).

Definition connectWebSocket (u : string) : M World unit :=
  run ws := gets (fun w => websocket (feed w)) in
  run _ := match ws with
           | Some n => on_host (WebSocket_close n)
           | None => ret tt
           end in
  run n := on_host (new_WebSocket u) in
  with_feed (set_websocket (Some n)).

Definition clear_if_set (id : option positive) : M World unit :=
  match id with
  | Some i => on_host (clearInterval i)
  | None => ret tt
  end.

Definition onopen_handler : M World unit :=
  run _ := with_feed (set_reconnectAttempts 0) in
  run f := gets (fun w => fallbackIntervalId (feed w)) in
  run _ := clear_if_set f in
  run r := gets (fun w => reconnectIntervalId (feed w)) in
  run _ := clear_if_set r in
  run _ := with_feed (set_fallbackIntervalId None) in
  with_feed (set_reconnectIntervalId None).

Definition onmessage_handler (event_data : string) : M World unit :=
  try_catch
    (run data := lift (JSON_parse event_data) in
     run ok := lift (has_sandwich data) in
     if ok then updateSandwiches data
     else on_host (console_error
                     (Received_WebSocket_message_with_unexpected_structure data)))
    (fun _ => on_host (console_error Error_parsing_WebSocket_data)).

Definition onerror_handler : M World unit :=
  run _ := on_host (console_error WebSocket_error) in
  fetchSandwichesFallback.

(** [onclose] of the socket opened by [connectWebSocket u]. *)
Definition onclose_handler (u : string) (code : Z) : M World unit :=
  if (code =? 1000) || (code =? 1005) then ret tt
  else
    run attempts := gets (fun w => reconnectAttempts (feed w)) in
    if (attempts <? maxReconnectAttempts)%nat then
      run _ := with_feed (set_reconnectAttempts (S attempts)) in
      let nextUrl := if String.eqb u primaryWsUrl then fallbackWsUrl
                     else primaryWsUrl in
      run _ := on_host (setTimeout (connectWebSocket_cb nextUrl) reconnectDelay) in
      fetchSandwichesFallback
    else
      run f := gets (fun w => fallbackIntervalId (feed w)) in
      run _ := match f with
               | None =>
                   run id := on_host (setInterval fetchSandwichesFallback_cb 10000) in
                   with_feed (set_fallbackIntervalId (Some id))
               | Some _ => ret tt
               end in
      run r := gets (fun w => reconnectIntervalId (feed w)) in
      match r with
      | None =>
          run id := on_host (setInterval periodic_reconnect_cb 30000) in
          with_feed (set_reconnectIntervalId (Some id))
      | Some _ => ret tt
      end.

Definition run_callback (cb : callback) : M World unit :=
  match cb with
  | fetchSandwichesFallback_cb => fetchSandwichesFallback
  | connectWebSocket_cb nextUrl => connectWebSocket nextUrl
  | periodic_reconnect_cb =>
      run _ := with_feed (set_reconnectAttempts 0) in
      connectWebSocket primaryWsUrl
  end.

(** The cleanup returned by the WebSocket effect. *)
Definition cleanup : M World unit :=
  run ws := gets (fun w => websocket (feed w)) in
  run _ := match ws with
           | Some n =>
               run _ := on_host (set_onclose empty_handler n) in
               on_host (WebSocket_close n)
           | None => ret tt
           end in
  run f := gets (fun w => fallbackIntervalId (feed w)) in
  run _ := clear_if_set f in
  run r := gets (fun w => reconnectIntervalId (feed w)) in
  run _ := clear_if_set r in
  run i := gets (fun w => initialFallbackIntervalId (feed w)) in
  clear_if_set i.

Definition find_timer (id : positive) (l : list (positive * Timer)) : option Timer :=
  match List.find (fun p => Pos.eqb (fst p) id) l with
  | Some p => Some (snd p)
  | None => None
  end.

(** One turn of the event loop. *)
Definition deliver (ev : event) : M World unit :=
  match ev with
  | socket_open n =>
      run s := gets (fun w => sockets (host w) !! n) in
      match s with
      | Some {| onopen := feed_handler |} => onopen_handler
      | _ => ret tt
      end
  | socket_message n data =>
      run s := gets (fun w => sockets (host w) !! n) in
      match s with
      | Some {| onmessage := feed_handler |} => onmessage_handler data
      | _ => ret tt
      end
  | socket_error n =>
      run s := gets (fun w => sockets (host w) !! n) in
      match s with
      | Some {| onerror := feed_handler |} => onerror_handler
      | _ => ret tt
      end
  | socket_close n code =>
      run s := gets (fun w => sockets (host w) !! n) in
      match s with
      | Some {| url := u; onclose := feed_handler |} => onclose_handler u code
      | _ => ret tt
      end
  | timer_fired id =>
      run t := gets (fun w => find_timer id (timers (host w))) in
      match t with
      | Some tm =>
          run _ := (if repeating tm then ret tt
                    else on_host (timeout_done id)) in
          run_callback (action tm)
      | None => ret tt
      end
  | query_resolved r => fetchSandwichesFallback_resume r
  | unmount =>
      run _ := cleanup in
      modify (fun w => {| react := {| sandwiches := sandwiches (react w);
                                      mounted := false;
                                      render_error := render_error (react w) |};
                          feed := feed w; host := host w |})
  end.

(** A run of the event loop; an exception that escapes a handler ends that
    turn only. *)
Fixpoint deliver_all (evs : list event) (w : World) : World :=
  match evs with
  | [] => w
  | ev :: rest => deliver_all rest (snd (deliver ev w))
  end.

Definition initial_host (st : Storage) : Host :=
  {| storage := st; console := []; allocated := 0; sockets := [];
     scheduled := []; timers := []; polls_issued := 0 |}.

Definition initial_feed : Feed :=
  {| websocket := None; reconnectAttempts := 0; fallbackIntervalId := None;
     reconnectIntervalId := None; initialFallbackIntervalId := None |}.

(** The effects of [Dashboard] that concern the feed, in source order. *)
Definition mount_effects : M World unit :=
  run _ := save_effect in
  run _ := connectWebSocket primaryWsUrl in
  run id := on_host (setInterval fetchSandwichesFallback_cb 30000) in
  with_feed (set_initialFallbackIntervalId (Some id)).

(** The first render, [useState(getInitialSandwiches)], then the effects,
    for a list whose rows render; [Rendered.mount] has the rows. *)
Definition mount (st : Storage) : completion unit * World :=
  match getInitialSandwiches (initial_host st) with
  | (Normal a, h) =>
      mount_effects {| react := {| sandwiches := a; mounted := true;
                                   render_error := None |};
                       feed := initial_feed; host := h |}
  | (Thrown e, h) =>
      (Thrown e, {| react := {| sandwiches := {| ref := 0; elems := [] |};
                                mounted := false; render_error := Some e |};
                    feed := initial_feed; host := h |})
  end.

(** ** Predicates on the retained list *)

Definition retained (w : World) : list jsval := elems (sandwiches (react w)).

(** A record that passes the validation of [updateSandwiches]. *)
Definition valid_record (r : jsval) : bool :=
  match has_sandwich r with
  | Normal b => b
  | Thrown _ => false
  end.

(** Every record of [l] passes the validation. *)
Definition well_shaped (l : list jsval) : bool := forallb valid_record l.

(** The slot of a record, [undefined] when it cannot be read. *)
Definition slot_key (r : jsval) : jsval :=
  match slot_of r with
  | Normal k => k
  | Thrown _ => JUndefined
  end.

(** Some record of [l] has a slot [===] to [k]. *)
Definition slot_taken (k : jsval) (l : list jsval) : bool :=
  existsb (fun s => strict_eq (slot_key s) k) l.

(** No record of [l] has the slot of a record behind it. *)
Fixpoint distinct_slots (l : list jsval) : bool :=
  match l with
  | [] => true
  | r :: rest => negb (slot_taken (slot_key r) rest) && distinct_slots rest
  end.

(** The parsed value has no [data.sandwich]: [data] or [sandwich] is missing,
    or sits under [null]. *)
Definition payload_missing (v : jsval) : bool :=
  match get_prop v "data" with
  | Normal d =>
      match get_prop d "sandwich" with
      | Normal JUndefined => true
      | Normal _ => false
      | Thrown _ => true
      end
  | Thrown _ => true
  end.

(** The array in the state was built before the next one will be. *)
Definition heap_ok (w : World) : Prop :=
  (ref (sandwiches (react w)) < allocated (host w))%nat.

(** The state of a mounted component whose retained records are validated
    ones with pairwise different slots. *)
Definition store_ok (w : World) : Prop :=
  mounted (react w) = true /\ heap_ok w /\
  well_shaped (retained w) = true /\ distinct_slots (retained w) = true.

(** The world after one more [console.error] and nothing else. *)
Definition logged (d : diagnostic) (w : World) : World :=
  {| react := react w; feed := feed w;
     host := with_console (console (host w) ++ [d])%list (host w) |}.

(** No event of the run is the unmount. *)
Definition stays_mounted (evs : list event) : bool :=
  forallb (fun ev => match ev with unmount => false | _ => true end) evs.

(** ** Predicates on the feed *)

Definition abnormal (code : Z) : bool :=
  negb ((code =? 1000) || (code =? 1005)).

(** The event is a close with an abnormal code. *)
Definition counts_as_close (ev : event) : bool :=
  match ev with
  | socket_close _ code => abnormal code
  | _ => false
  end.

(** The abnormal closes among the events. *)
Definition abnormal_closes (evs : list event) : nat :=
  count_if counts_as_close evs.

(** A socket event names a socket that has been constructed. *)
Definition socket_known (ev : event) (w : World) : bool :=
  match ev with
  | socket_open n | socket_message n _ | socket_error n | socket_close n _ =>
      (n <? length (sockets (host w)))%nat
  | _ => true
  end.

(** Every socket event of the run names a socket constructed by then. *)
Fixpoint deliverable (evs : list event) (w : World) : bool :=
  match evs with
  | [] => true
  | ev :: rest => socket_known ev w && deliverable rest (snd (deliver ev w))
  end.

(** No socket opens during the run: its closes are consecutive. *)
Definition never_opens (evs : list event) : bool :=
  forallb (fun ev => match ev with socket_open _ => false | _ => true end) evs.

(** The socket and the timer the mount leaves behind. *)
Definition first_socket : Socket :=
  {| url := primaryWsUrl; onopen := feed_handler; onmessage := feed_handler;
     onerror := feed_handler; onclose := feed_handler; close_called := false |}.

Definition backup_poll : Timer :=
  {| repeating := true; delay := 30000; action := fetchSandwichesFallback_cb |}.

(** The reconnect that [onclose] schedules for a socket opened at [u]. *)
Definition reconnect_timer (u : string) : Timer :=
  {| repeating := false; delay := 3000;
     action := connectWebSocket_cb (if String.eqb u primaryWsUrl
                                    then fallbackWsUrl else primaryWsUrl) |}.

(** The two intervals of fallback mode. *)
Definition fallback_poll : Timer :=
  {| repeating := true; delay := 10000; action := fetchSandwichesFallback_cb |}.

Definition periodic_reconnect : Timer :=
  {| repeating := true; delay := 30000; action := periodic_reconnect_cb |}.

(** The host after one more timer has been scheduled. *)
Definition schedule (t : Timer) (h : Host) : Host :=
  with_timers (timers h ++ [(Pos.of_succ_nat (length (scheduled h)), t)])%list
    (with_scheduled (scheduled h ++ [t])%list h).

(** [t] runs [cb] every [ms] milliseconds. *)
Definition is_interval (cb : callback) (ms : Z) (t : Timer) : bool :=
  repeating t && (delay t =? ms) &&
  match cb, action t with
  | fetchSandwichesFallback_cb, fetchSandwichesFallback_cb => true
  | periodic_reconnect_cb, periodic_reconnect_cb => true
  | connectWebSocket_cb a, connectWebSocket_cb b => String.eqb a b
  | _, _ => false
  end.

(** How many such intervals are pending, and how many were ever started. *)
Definition pending_intervals (cb : callback) (ms : Z) (w : World) : nat :=
  count_if (fun p => is_interval cb ms (snd p)) (timers (host w)).

Definition started_intervals (cb : callback) (ms : Z) (w : World) : nat :=
  count_if (is_interval cb ms) (scheduled (host w)).

(** Fallback mode has not been entered, and [n] attempts are counted. *)
Definition before_fallback (n : nat) (w : World) : Prop :=
  reconnectAttempts (feed w) = n /\
  fallbackIntervalId (feed w) = None /\
  reconnectIntervalId (feed w) = None /\
  started_intervals fetchSandwichesFallback_cb 10000 w = 0%nat /\
  started_intervals periodic_reconnect_cb 30000 w = 0%nat /\
  pending_intervals fetchSandwichesFallback_cb 10000 w = 0%nat /\
  pending_intervals periodic_reconnect_cb 30000 w = 0%nat.

(** Fallback mode: the 10 s poll and the 30 s reconnect have each been
    started once and are pending once. *)
Definition in_fallback (w : World) : Prop :=
  (exists id, fallbackIntervalId (feed w) = Some id) /\
  (exists id, reconnectIntervalId (feed w) = Some id) /\
  started_intervals fetchSandwichesFallback_cb 10000 w = 1%nat /\
  started_intervals periodic_reconnect_cb 30000 w = 1%nat /\
  pending_intervals fetchSandwichesFallback_cb 10000 w = 1%nat /\
  pending_intervals periodic_reconnect_cb 30000 w = 1%nat.

(** A pending timer is the one scheduled under its id. *)
Definition timers_ok (h : Host) : Prop :=
  forall id t, In (id, t) (timers h) ->
               scheduled h !! (Pos.to_nat id - 1)%nat = Some t.

(** Every socket still has the [onclose] of [connectWebSocket]. *)
Definition closes_reconnect (l : list Socket) : Prop :=
  Forall (fun s => onclose s = feed_handler) l.

(** The periodic reconnect is only ever scheduled as the 30 s interval. *)
Definition periodic_ok (h : Host) : Prop :=
  Forall (fun t => action t = periodic_reconnect_cb ->
                   is_interval periodic_reconnect_cb 30000 t = true)
         (scheduled h).

(** The state of the feed after [n] abnormal closes in a row. *)
Definition feed_inv (n : nat) (w : World) : Prop :=
  timers_ok (host w) /\ closes_reconnect (sockets (host w)) /\
  periodic_ok (host w) /\
  ((n <= 10)%nat -> before_fallback n w) /\
  ((11 <= n)%nat -> in_fallback w).

(** ** Frames *)

(** A statement that relates the world it starts in to the one it leaves. *)
Definition keeps {A} (R : World -> World -> Prop) (m : M World A) : Prop :=
  forall w, R w (snd (m w)).

Definition host_keeps {A} (R : Host -> Host -> Prop) (m : M Host A) : Prop :=
  forall h, R h (snd (m h)).

(** The array of the state, the mounted flag and the heap are as before. *)
Definition store_same (w w' : World) : Prop :=
  sandwiches (react w') = sandwiches (react w) /\
  mounted (react w') = mounted (react w) /\
  allocated (host w') = allocated (host w).

Definition heap_same (h h' : Host) : Prop := allocated h' = allocated h.

(** The feed variables, the sockets and the timers are as before. *)
Definition feed_same (w w' : World) : Prop :=
  feed w' = feed w /\ sockets (host w') = sockets (host w) /\
  scheduled (host w') = scheduled (host w) /\
  timers (host w') = timers (host w).

Definition timers_same (h h' : Host) : Prop :=
  sockets h' = sockets h /\ scheduled h' = scheduled h /\ timers h' = timers h.

(** Two hosts with the same sockets, timers and issued polls. *)
Definition same_feed_env (h h' : Host) : Prop :=
  sockets h' = sockets h /\ scheduled h' = scheduled h /\
  timers h' = timers h /\ polls_issued h' = polls_issued h.

End Dashboard.

(** ** A sample engine and sample inputs *)

Definition quote : string := String (Ascii.ascii_of_nat 34) EmptyString.

(** The JSON text of a value whose strings need no escape. *)
Fixpoint JSON_text (v : jsval) : string :=
  match v with
  | JUndefined | JNull => "null"
  | JBool true => "true"
  | JBool false => "false"
  | JNum n => pretty n
  | JStr s => quote ++ s ++ quote
  | JArr items =>
      "[" ++ (fix each (l : list jsval) : string :=
                match l with
                | [] => ""
                | x :: rest =>
                    JSON_text x ++
                    match rest with
                    | [] => ""
                    | _ :: _ => "," ++ each rest
                    end
                end) items ++ "]"
  | JObj fields =>
      "{" ++ (fix each (l : list (string * jsval)) : string :=
                match l with
                | [] => ""
                | (k, x) :: rest =>
                    quote ++ k ++ quote ++ ":" ++ JSON_text x ++
                    match rest with
                    | [] => ""
                    | _ :: _ => "," ++ each rest
                    end
                end) fields ++ "}"
  end.

(** A parser that knows the texts of the given values and rejects every
    other text. *)
Definition parse_known (known : list jsval) (text : string) : completion jsval :=
  match List.find (fun v => String.eqb (JSON_text v) text) known with
  | Some v => Normal v
  | None => Thrown SyntaxError
  end.

Definition record_with_slot (n : Z) : jsval :=
  JObj [("data", JObj [("sandwich", JObj [("slot", JNum n)])])].

Definition records_1_to_51 : list jsval :=
  List.map (fun k => record_with_slot (Z.of_nat k)) (seq 1 51).

Definition two_records : jsval :=
  JArr [record_with_slot 1; record_with_slot 2].

Definition twice_slot_7 : jsval :=
  JArr [record_with_slot 7; record_with_slot 7].

Definition sample_values : list jsval :=
  (two_records :: twice_slot_7 :: JNum 5 :: records_1_to_51)%list.

Definition sample_engine : Engine :=
  {| JSON_parse := parse_known sample_values; JSON_stringify := JSON_text |}.

Definition empty_storage : Storage :=
  {| accessible := true; item := None; quota_left := true; setItem_calls := [] |}.

Definition storage_holding (v : jsval) : Storage :=
  {| accessible := true; item := Some (JSON_text v); quota_left := true;
     setItem_calls := [] |}.

(** [k] rounds of: the current socket fails to connect, which the host
    reports as an error and a close with code 1006, then the reconnect
    scheduled by that close fires. *)
Definition close_rounds (k : nat) : list event :=
  List.flat_map (fun i => [socket_error i; socket_close i 1006;
                           timer_fired (Pos.of_nat (i + 2))])
                (seq 0 k).

(** ** The rest of the balance panel *)

Definition twentyFourHours : Z := 24 * 60 * 60 * 1000.

(** [filteredBalanceChartData], computed at each render from [Date.now()]. *)
Definition filteredBalanceChartData {V} (now : Z)
    (balanceChartData : list (point V)) : list (point V) :=
  let twentyFourHoursAgo := now - twentyFourHours in
  List.filter (fun dataPoint => time dataPoint >=? twentyFourHoursAgo)
              balanceChartData.

Record BalancePanel (V : Type) : Type := {
  panel : BalanceState V;
  isHistoryLoading : bool
}.
Arguments panel {V} b.
Arguments isHistoryLoading {V} b.

(** [series.values.map(val => ({ time: ..., balance: val.value }))] *)
Definition historicalData {V} (series : list (Z * V)) : list (point V) :=
  List.map (fun val => {| time := fst val; balance := snd val |}) series.

(** [fetchHistoricalBalance] from its [await] on. *)
Definition fetchHistoricalBalance_resume {V} (r : completion (QueryResult V))
    (p : BalancePanel V) : BalancePanel V :=
  {| panel :=
       {| liveBalance := liveBalance (panel p);
          balanceChartData :=
            match r with
            | Normal (matrix (series :: _)) => historicalData series
            | _ => []
            end |};
     isHistoryLoading := false |}.

(** What settles on the balance panel: the one range query of the mount, or
    an instant query of the live updates. *)
Inductive balance_event (V : Type) : Type :=
| history_settled (r : completion (QueryResult V))
| live_settled (r : completion (QueryResult V)).
Arguments history_settled {V} r.
Arguments live_settled {V} r.

Definition balance_step {V} (ev : balance_event V) (p : BalancePanel V)
  : BalancePanel V :=
  match ev with
  | history_settled r => fetchHistoricalBalance_resume r p
  | live_settled r =>
      {| panel := fetchLatestBalance_resume r (panel p);
         isHistoryLoading := isHistoryLoading p |}
  end.

Fixpoint balance_run {V} (evs : list (balance_event V)) (p : BalancePanel V)
  : BalancePanel V :=
  match evs with
  | [] => p
  | ev :: rest => balance_run rest (balance_step ev p)
  end.

(** The panel as [useState] creates it. *)
Definition initial_panel {V} (zero : V) : BalancePanel V :=
  {| panel := {| liveBalance := zero; balanceChartData := [] |};
     isHistoryLoading := true |}.

(** The series of a range result come with increasing timestamps. *)
Definition history_ascending {V} (ev : balance_event V) : bool :=
  match ev with
  | history_settled (Normal (matrix (series :: _))) =>
      ascending (historicalData series)
  | _ => true
  end.

(** ** The timers of the live balance effect *)

Inductive live_callback : Type :=
| first_live_fetch_cb        (* the function given to [setTimeout] *)
| fetchLatestBalance_cb.

Record LiveTimer : Type := {
  live_repeating : bool;
  live_delay : Z;
  live_action : live_callback
}.

(** The effect: its variable [intervalId], its pending timers by id, how
    many timers it has scheduled, and the queries it has issued.  The
    constant [timeoutId] is the id of the first timer. *)
Record LiveEffect : Type := {
  intervalId : option positive;
  live_timers : list (positive * LiveTimer);
  live_scheduled : nat;
  live_fetches : nat
}.

Definition timeoutId : positive := 1.
Definition initialDelay : Z := 5000.
Definition intervalTime : Z := 30000.

Definition live_without (id : positive) (l : list (positive * LiveTimer)) :=
  List.filter (fun p => negb (Pos.eqb (fst p) id)) l.

(** The body of the effect. *)
Definition live_start : LiveEffect :=
  {| intervalId := None;
     live_timers := [(timeoutId, {| live_repeating := false;
                                    live_delay := initialDelay;
                                    live_action := first_live_fetch_cb |})];
     live_scheduled := 1;
     live_fetches := 0 |}.

Definition live_callback_run (cb : live_callback) (e : LiveEffect) : LiveEffect :=
  match cb with
  | first_live_fetch_cb =>
      let id := Pos.of_succ_nat (live_scheduled e) in
      {| intervalId := Some id;
         live_timers := (live_timers e ++
                         [(id, {| live_repeating := true;
                                  live_delay := intervalTime;
                                  live_action := fetchLatestBalance_cb |})])%list;
         live_scheduled := S (live_scheduled e);
         live_fetches := S (live_fetches e) |}
  | fetchLatestBalance_cb =>
      {| intervalId := intervalId e; live_timers := live_timers e;
         live_scheduled := live_scheduled e;
         live_fetches := S (live_fetches e) |}
  end.

(** The host fires the timer [id], if it is pending. *)
Definition live_fire (id : positive) (e : LiveEffect) : LiveEffect :=
  match List.find (fun p => Pos.eqb (fst p) id) (live_timers e) with
  | Some (_, t) =>
      live_callback_run (live_action t)
        (if live_repeating t then e
         else {| intervalId := intervalId e;
                 live_timers := live_without id (live_timers e);
                 live_scheduled := live_scheduled e;
                 live_fetches := live_fetches e |})
  | None => e
  end.

Fixpoint live_run (ids : list positive) (e : LiveEffect) : LiveEffect :=
  match ids with
  | [] => e
  | id :: rest => live_run rest (live_fire id e)
  end.

(** The cleanup: [clearTimeout(timeoutId); if (intervalId)
    clearInterval(intervalId)]. *)
Definition live_cleanup (e : LiveEffect) : LiveEffect :=
  let cleared := live_without timeoutId (live_timers e) in
  {| intervalId := intervalId e;
     live_timers := match intervalId e with
                    | Some id => live_without id cleared
                    | None => cleared
                    end;
     live_scheduled := live_scheduled e;
     live_fetches := live_fetches e |}.

(** The two shapes the effect takes: before and after its first fetch. *)
Definition live_shape (e : LiveEffect) : Prop :=
  (intervalId e = None /\
   live_timers e = [(timeoutId, {| live_repeating := false;
                                   live_delay := initialDelay;
                                   live_action := first_live_fetch_cb |})] /\
   live_scheduled e = 1%nat) \/
  (intervalId e = Some 2%positive /\
   live_timers e = [(2%positive, {| live_repeating := true;
                                    live_delay := intervalTime;
                                    live_action := fetchLatestBalance_cb |})] /\
   live_scheduled e = 2%nat).

(** ** Predicates on the feed, continued *)

(** A socket after [close()], and after [onclose = () => {}]. *)
Definition closed (s : Socket) : Socket :=
  {| url := url s; onopen := onopen s; onmessage := onmessage s;
     onerror := onerror s; onclose := onclose s; close_called := true |}.

Definition silenced (s : Socket) : Socket :=
  {| url := url s; onopen := onopen s; onmessage := onmessage s;
     onerror := onerror s; onclose := empty_handler;
     close_called := close_called s |}.

(** The sockets after [if (websocket) websocket.close()]. *)
Definition close_current (ws : option nat) (l : list Socket) : list Socket :=
  match ws with
  | Some k => alter closed k l
  | None => l
  end.

Definition opened (u : string) : Socket :=
  {| url := u; onopen := feed_handler; onmessage := feed_handler;
     onerror := feed_handler; onclose := feed_handler; close_called := false |}.

(** [clearInterval] of a stored id, when one is stored. *)
Definition clear_stored (id : option positive) (h : Host) : Host :=
  match id with
  | Some i => with_timers (without_timer i (timers h)) h
  | None => h
  end.

(** The interval [t] is pending exactly when its id is stored, and then
    pending once. *)
Definition interval_tracked (stored : option positive) (t : Timer)
    (l : list (positive * Timer)) : Prop :=
  match stored with
  | None => count_if (fun p => is_interval (action t) (delay t) (snd p)) l = 0%nat
  | Some id =>
      count_if (fun p => is_interval (action t) (delay t) (snd p)) l = 1%nat /\
      In (id, t) l
  end.

(** The state of the feed of a mounted component. *)
Definition feed_ok (w : World) : Prop :=
  timers_ok (host w) /\
  Forall (fun s => onopen s = feed_handler) (sockets (host w)) /\
  initialFallbackIntervalId (feed w) = Some 1%positive /\
  In (1%positive, backup_poll) (timers (host w)) /\
  interval_tracked (fallbackIntervalId (feed w)) fallback_poll
                   (timers (host w)) /\
  interval_tracked (reconnectIntervalId (feed w)) periodic_reconnect
                   (timers (host w)) /\
  (forall id t, In (id, t) (timers (host w)) -> repeating t = true ->
                id = 1%positive \/ fallbackIntervalId (feed w) = Some id \/
                reconnectIntervalId (feed w) = Some id).

(** Every socket but the current one has had [close()] called on it. *)
Definition one_unclosed_socket (w : World) : Prop :=
  forall n s, sockets (host w) !! n = Some s -> close_called s = false ->
              websocket (feed w) = Some n.

(** The sockets and the variable [websocket] are as before. *)
Definition socket_same (w w' : World) : Prop :=
  sockets (host w') = sockets (host w) /\
  websocket (feed w') = websocket (feed w).

Definition sockets_same (h h' : Host) : Prop := sockets h' = sockets h.

(** The array of the state and the localStorage entry are as before. *)
Definition cache_same (w w' : World) : Prop :=
  sandwiches (react w') = sandwiches (react w) /\
  storage (host w') = storage (host w).

Definition storage_same (h h' : Host) : Prop := storage h' = storage h.

(** The localStorage entry is the text of the retained list. *)
Definition cache_mirrors (JSON_stringify : jsval -> string) (w : World) : Prop :=
  accessible (storage (host w)) = true /\
  quota_left (storage (host w)) = true /\
  item (storage (host w)) = Some (JSON_stringify (JArr (retained w))) /\
  (length (retained w) <= 50)%nat.

(** More sample inputs: a cache with an entry that is no record. *)
Definition null_then_record : jsval := JArr [JNull; record_with_slot 1].

Definition slot_7_again : jsval :=
  JObj [("data", JObj [("sandwich", JObj [("slot", JNum 7); ("mint", JStr "other")])])].

Definition wider_engine : Engine :=
  {| JSON_parse := parse_known (null_then_record :: slot_7_again :: sample_values);
     JSON_stringify := JSON_text |}.

Definition full_storage (v : jsval) : Storage :=
  {| accessible := true; item := Some (JSON_text v); quota_left := false;
     setItem_calls := [] |}.

(** Ten failed connections in a row, each followed by its reconnect, and an
    eleventh failure. *)
Definition eleven_closes : list event :=
  (close_rounds 10 ++ [socket_error 10; socket_close 10 1006])%list.

(** A balance series with increasing timestamps. *)
Definition three_points : list (point Z) :=
  [{| time := 1000; balance := 5 |};
   {| time := 2000; balance := 6 |};
   {| time := 3000; balance := 7 |}].

(** * The component as React renders it

    [setSandwiches] and [mount] above are the handlers and effects with
    every update committed.  React commits a state only after [Dashboard]
    has returned its elements for it and they have been reconciled; [App]
    has no error boundary, so an exception in between is uncaught: React
    takes the tree down, the state is dropped and no effect runs for it.
    Here the rows of the live feed, the one part of the JSX that reads the
    sandwiches, are put between an update and its commit.  A run that
    leaves the component mounted is the same run in both. *)

(** ** The rows of the live feed *)

Definition has_key (k : string) (fields : list (string * jsval)) : bool :=
  existsb (fun p => String.eqb (fst p) k) fields.

(** ToPrimitive throws on the value.  A parsed object inherits [toString]
    from [Object.prototype] unless it has a key of that name, whose value is
    then no function, and [valueOf] gives no primitive either way; an array
    is converted by [join], which converts its elements. *)
Fixpoint unconvertible (v : jsval) : bool :=
  match v with
  | JObj fields => has_key "toString" fields
  | JArr items =>
      (fix some (l : list jsval) : bool :=
         match l with
         | [] => false
         | x :: rest => unconvertible x || some rest
         end) items
  | _ => false
  end.

(** What React accepts as a child: a text or a number, nothing for a
    boolean, [null] and [undefined], the items of an array in turn; for any
    other object it throws. *)
Fixpoint valid_child (v : jsval) : bool :=
  match v with
  | JObj _ => false
  | JArr items =>
      (fix all (l : list jsval) : bool :=
         match l with
         | [] => true
         | x :: rest => valid_child x && all rest
         end) items
  | _ => true
  end.

(** The engine's StringToNumber where a row expects a number and meets a
    string, or an array, which is converted through its [join]:
    [text_is_NaN v] is [isNaN(v)], and [text_is_date v] tells whether
    [new Date(v * 1000)] is a valid date. *)
Class Numbers : Type := {
  text_is_NaN : jsval -> bool;
  text_is_date : jsval -> bool
}.

Section Rows.

Context {numbers : Numbers}.

(** [isNaN(v)] for a [v] that ToPrimitive accepts. *)
Definition is_NaN (v : jsval) : bool :=
  match v with
  | JUndefined | JObj _ => true
  | JNull | JBool _ | JNum _ => false
  | JStr _ | JArr _ => text_is_NaN v
  end.

(** [new Date(timestamp * 1000)] is a valid date: the product is a number
    of at most 8.64e15 in absolute value. *)
Definition valid_date (timestamp : jsval) : bool :=
  match timestamp with
  | JNum n => Z.abs n <=? 8640000000000
  | JNull | JBool _ => true
  | JUndefined | JObj _ => false
  | JStr _ | JArr _ => text_is_date timestamp
  end.

(** The template literal [`${v}`]. *)
Definition ToString (v : jsval) : completion unit :=
  if unconvertible v then Thrown TypeError else Normal tt.

(** [format(new Date(timestamp * 1000), 'HH:mm:ss')]; date-fns throws a
    RangeError for an invalid date.  Of this call and of the two below only
    the completion is kept, not the text. *)
Definition format (timestamp : jsval) : completion unit :=
  if unconvertible timestamp then Thrown TypeError
  else if valid_date timestamp then Normal tt
  else Thrown RangeError.

(** [formatAmount(amount, decimals)]: ['N/A'], or [isNaN(amount)] followed
    by the division and [toFixed] of a number. *)
Definition formatAmount (amount : jsval) : completion unit :=
  match amount with
  | JUndefined | JNull => Normal tt
  | _ => if unconvertible amount then Thrown TypeError else Normal tt
  end.

Definition is_undefined (v : jsval) : bool :=
  match v with JUndefined => true | _ => false end.

(** [formatProfit(solChange, tokenChange, symbol)]: the tests of its first
    line left to right, then the two amounts and the template literal. *)
Definition formatProfit (solChange tokenChange symbol : jsval) : completion unit :=
  if is_undefined solChange || is_undefined tokenChange || is_undefined symbol
  then Normal tt
  else if unconvertible solChange then Thrown TypeError
  else if is_NaN solChange then Normal tt
  else if unconvertible tokenChange then Thrown TypeError
  else if is_NaN tokenChange then Normal tt
  else
    let! _ := formatAmount solChange in
    let! _ := formatAmount tokenChange in
    ToString symbol.

(** [data.permanentTokenData?.rawTokenMetadata?.symbol] *)
Definition symbol_of (data : jsval) : completion jsval :=
  let! permanentTokenData := get_prop data "permanentTokenData" in
  match permanentTokenData with
  | JUndefined | JNull => Normal JUndefined
  | _ =>
      let! rawTokenMetadata := get_prop permanentTokenData "rawTokenMetadata" in
      match rawTokenMetadata with
      | JUndefined | JNull => Normal JUndefined
      | _ => get_prop rawTokenMetadata "symbol"
      end
  end.

(** The element of one sandwich, lines 688 to 726, its expressions in the
    order of the text; both arms of each [isSell] conditional format the
    same two amounts in the same order.  Of the keys read here none lives on
    a prototype either.  The result is what the element holds of the record
    as children: the symbol shown and the slot. *)
Definition row (s : jsval) : completion (jsval * jsval) :=
  let! slot := slot_of s in
  let! _ := ToString slot in
  let! data := get_prop s "data" in
  let! sandwich := get_prop data "sandwich" in
  let! timestamp := get_prop sandwich "timestamp" in
  let! _ := format timestamp in
  let! symbol := symbol_of data in
  let! frontrunInAmount := get_prop sandwich "frontrunInAmount" in
  let! _ := formatAmount frontrunInAmount in
  let! frontrunOutAmount := get_prop sandwich "frontrunOutAmount" in
  let! _ := formatAmount frontrunOutAmount in
  let! backrunInAmount := get_prop sandwich "backrunInAmount" in
  let! _ := formatAmount backrunInAmount in
  let! backrunOutAmount := get_prop sandwich "backrunOutAmount" in
  let! _ := formatAmount backrunOutAmount in
  let! solChange := get_prop sandwich "solChange" in
  let! tokenChange := get_prop sandwich "tokenChange" in
  let! _ := formatProfit solChange tokenChange symbol in
  Normal (if truthy symbol then symbol else JStr "TOK", slot).

(** [sandwiches.map(...)] *)
Fixpoint rows (sandwiches : list jsval) : completion (list (jsval * jsval)) :=
  match sandwiches with
  | [] => Normal []
  | s :: rest =>
      let! r := row s in
      let! rs := rows rest in
      Normal (r :: rs)
  end.

(** The render of the live feed: [Dashboard] builds the elements, then
    React reconciles their children. *)
Definition render (sandwiches : list jsval) : completion unit :=
  let! children := rows sandwiches in
  if forallb (fun c => valid_child (fst c) && valid_child (snd c)) children
  then Normal tt
  else Thrown InvalidChildError.

(** The row of the record renders. *)
Definition row_renders (s : jsval) : bool :=
  match row s with
  | Normal c => valid_child (fst c) && valid_child (snd c)
  | Thrown _ => false
  end.

(** The slot of every record of [l] can be read. *)
Definition slots_readable (l : list jsval) : bool :=
  forallb (fun s => match slot_of s with Normal _ => true | Thrown _ => false end) l.

Definition is_number (v : jsval) : bool :=
  match v with JNum _ => true | _ => false end.

(** The record has the fields of [SandwichData] that a row reads, with
    their types: the slot and the amounts are numbers, the timestamp is a
    number of seconds that is a date, the symbol is a text or is missing. *)
Definition SandwichData (r : jsval) : bool :=
  match r with
  | JObj fields =>
      match lookup_field "data" fields with
      | JObj data =>
          match lookup_field "sandwich" data with
          | JObj sandwich =>
              is_number (lookup_field "slot" sandwich) &&
              match lookup_field "timestamp" sandwich with
              | JNum seconds => Z.abs seconds <=? 8640000000000
              | _ => false
              end &&
              is_number (lookup_field "frontrunInAmount" sandwich) &&
              is_number (lookup_field "frontrunOutAmount" sandwich) &&
              is_number (lookup_field "backrunInAmount" sandwich) &&
              is_number (lookup_field "backrunOutAmount" sandwich) &&
              is_number (lookup_field "solChange" sandwich) &&
              is_number (lookup_field "tokenChange" sandwich) &&
              match symbol_of (JObj data) with
              | Normal (JStr _) | Normal JUndefined => true
              | _ => false
              end
          | _ => false
          end
      | _ => false
      end
  | _ => false
  end.

End Rows.

(** ** Updates, events and the mount, with the render *)

Module Rendered.

Section WithRender.

Context {engine : Engine} {numbers : Numbers}.

(** An error that no boundary catches: React unmounts the tree, which runs
    the cleanup of the effect. *)
Definition uncaught (e : error) : M World unit :=
  run _ := cleanup in
  modify (fun w => {| react := {| sandwiches := sandwiches (react w);
                                  mounted := false;
                                  render_error := Some e |};
                      feed := feed w; host := host w |}).

(** [setSandwiches(updater)].  React runs the updater on the current state
    while rendering; when it returns the same object nothing is rendered and
    no effect runs; otherwise the rows are rendered for the next state,
    which is committed and saved when they render.  The caller is not told
    of a failure: it comes after the handler has returned. *)
Definition setSandwiches (updater : array -> M Host array) : M World unit :=
  fun w =>
    if mounted (react w) then
      match updater (sandwiches (react w)) (host w) with
      | (Normal next, h) =>
          if Object_is next (sandwiches (react w)) then
            (Normal tt, {| react := react w; feed := feed w; host := h |})
          else
            match render (elems next) with
            | Normal _ =>
                save_effect {| react := {| sandwiches := next; mounted := true;
                                           render_error := render_error (react w) |};
                               feed := feed w; host := h |}
            | Thrown e =>
                uncaught e {| react := react w; feed := feed w; host := h |}
            end
      | (Thrown e, h) =>
          uncaught e {| react := react w; feed := feed w; host := h |}
      end
    else (Normal tt, w).

Definition updateSandwiches (newSandwich : jsval) : M World unit :=
  run ok := lift (has_sandwich newSandwich) in
  if ok then setSandwiches (updateSandwiches_updater newSandwich)
  else on_host (console_error
                  (Attempted_to_add_sandwich_with_unexpected_structure newSandwich)).

(** [fetchSandwichesFallback] from its [await] on.  The sample value is
    given as its [toString()]; every string is let in, the texts of numbers
    among them. *)
Definition fetchSandwichesFallback_resume (r : completion (QueryResult string))
  : M World unit :=
  try_catch
    (run result := lift r in
     match result with
     | vector (Some (_, value) :: _) =>
         try_catch
           (run sandwichData := lift (JSON_parse value) in
            updateSandwiches sandwichData)
           (fun _ => on_host (console_error Error_parsing_fallback_sandwich_data_JSON))
     | _ => ret tt
     end)
    (fun _ => on_host (console_error Error_fetching_fallback_sandwich_data)).

Definition onmessage_handler (event_data : string) : M World unit :=
  try_catch
    (run data := lift (JSON_parse event_data) in
     run ok := lift (has_sandwich data) in
     if ok then updateSandwiches data
     else on_host (console_error
                     (Received_WebSocket_message_with_unexpected_structure data)))
    (fun _ => on_host (console_error Error_parsing_WebSocket_data)).

(** One turn of the event loop. *)
Definition deliver (ev : event) : M World unit :=
  match ev with
  | socket_open n =>
      run s := gets (fun w => sockets (host w) !! n) in
      match s with
      | Some {| onopen := feed_handler |} => onopen_handler
      | _ => ret tt
      end
  | socket_message n data =>
      run s := gets (fun w => sockets (host w) !! n) in
      match s with
      | Some {| onmessage := feed_handler |} => onmessage_handler data
      | _ => ret tt
      end
  | socket_error n =>
      run s := gets (fun w => sockets (host w) !! n) in
      match s with
      | Some {| onerror := feed_handler |} => onerror_handler
      | _ => ret tt
      end
  | socket_close n code =>
      run s := gets (fun w => sockets (host w) !! n) in
      match s with
      | Some {| url := u; onclose := feed_handler |} => onclose_handler u code
      | _ => ret tt
      end
  | timer_fired id =>
      run t := gets (fun w => find_timer id (timers (host w))) in
      match t with
      | Some tm =>
          run _ := (if repeating tm then ret tt
                    else on_host (timeout_done id)) in
          run_callback (action tm)
      | None => ret tt
      end
  | query_resolved r => fetchSandwichesFallback_resume r
  | unmount =>
      run _ := cleanup in
      modify (fun w => {| react := {| sandwiches := sandwiches (react w);
                                      mounted := false;
                                      render_error := render_error (react w) |};
                          feed := feed w; host := host w |})
  end.

Fixpoint deliver_all (evs : list event) (w : World) : World :=
  match evs with
  | [] => w
  | ev :: rest => deliver_all rest (snd (deliver ev w))
  end.

(** The first render, [useState(getInitialSandwiches)] and the rows of the
    list it returns, then the effects; no effect runs when the rows do not
    render. *)
Definition mount (st : Storage) : completion unit * World :=
  match getInitialSandwiches (initial_host st) with
  | (Normal a, h) =>
      match render (elems a) with
      | Normal _ =>
          mount_effects {| react := {| sandwiches := a; mounted := true;
                                       render_error := None |};
                           feed := initial_feed; host := h |}
      | Thrown e =>
          (Thrown e, {| react := {| sandwiches := a; mounted := false;
                                    render_error := Some e |};
                        feed := initial_feed; host := h |})
      end
  | (Thrown e, h) =>
      (Thrown e, {| react := {| sandwiches := {| ref := 0; elems := [] |};
                                mounted := false; render_error := Some e |};
                    feed := initial_feed; host := h |})
  end.


End WithRender.

End Rendered.

(** The state of a mounted component: the rows of the retained list have
    rendered. *)
Definition rendered `{Numbers} (w : World) : Prop :=
  mounted (react w) = true /\ heap_ok w /\ render (retained w) = Normal tt.

(** ** Sample records with every field of [SandwichData] *)

Definition sandwich_record (slot timestamp : Z) : jsval :=
  JObj [("type", JStr "sandwich");
        ("data",
         JObj [("publicKey", JStr "9xQeWvG816bUx9EPjHmaT23yvVM2ZWbrrpZb9PusVFin");
               ("sandwich",
                JObj [("mint", JStr "EPjFWdd5AufqSSqeM2qN1xzybapC8G4wEGGkZwyTDt1v");
                      ("slot", JNum slot);
                      ("timestamp", JNum timestamp);
                      ("frontrunInAmount", JNum 1500000000);
                      ("frontrunOutAmount", JNum 250000000);
                      ("backrunInAmount", JNum 250000000);
                      ("backrunOutAmount", JNum 1512000000);
                      ("solChange", JNum 12000000);
                      ("tokenChange", JNum 0);
                      ("isSell", JBool false)]);
               ("permanentTokenData",
                JObj [("rawTokenMetadata", JObj [("symbol", JStr "USDC")])])])].

(** The record of slot [k], landed [k] seconds into the sample hour. *)
Definition sandwich (k : Z) : jsval := sandwich_record k (1700000000 + k).

Definition sandwiches_1_to_51 : list jsval :=
  List.map (fun k => sandwich (Z.of_nat k)) (seq 1 51).

(** Two records of slot 7, a minute apart. *)
Definition slot_7_twice : jsval :=
  JArr [sandwich 7; sandwich_record 7 1700000067].

Definition sandwiches_1_2 : jsval := JArr [sandwich 1; sandwich 2].

Definition feed_engine : Engine :=
  {| JSON_parse :=
       parse_known (slot_7_twice :: sandwiches_1_2 :: records_1_to_51 ++
                    sandwiches_1_to_51)%list;
     JSON_stringify := JSON_text |}.

(** The sample records hold no text where a number is expected; an engine
    for which no such text is a number. *)
Definition no_numeric_texts : Numbers :=
  {| text_is_NaN := fun _ => true; text_is_date := fun _ => false |}.

(** * Properties *)

Section Properties.

Context {engine : Engine}.

(** ** The cache load *)

Ltac run_stmt :=
  unfold bind, try_catch, lift, ret, gets, modify, on_host, with_feed,
    console_error, new_array; cbn.

Ltac run_handler :=
  unfold onopen_handler, onerror_handler, onclose_handler, run_callback,
    cleanup, connectWebSocket, clear_if_set, fetchSandwichesFallback,
    setTimeout, setInterval, setTimer, clearInterval, new_WebSocket,
    WebSocket_close, set_onclose, alter_socket;
  run_stmt.

(** C7: [getInitialSandwiches] always returns: an inaccessible or absent
    entry, a text that does not parse and a parsed value that is not an array
    all give the empty list; a parsed array gives its first 50 items. *)
Theorem getInitialSandwiches_never_fails (h : Host) :
  exists a h',
    getInitialSandwiches h = (Normal a, h') /\
    (accessible (storage h) = false -> elems a = []) /\
    (item (storage h) = None -> elems a = []) /\
    (forall s e, item (storage h) = Some s -> JSON_parse s = Thrown e ->
                 elems a = []) /\
    (forall s v, item (storage h) = Some s -> JSON_parse s = Normal v ->
                 (forall items, v <> JArr items) -> elems a = []) /\
    (forall s items, accessible (storage h) = true ->
                     item (storage h) = Some s -> s <> "" ->
                     JSON_parse s = Normal (JArr items) ->
                     elems a = firstn 50 items).
Proof.
  unfold getInitialSandwiches, getInitialSandwiches_try, localStorage_getItem.
  run_stmt.
  destruct (accessible (storage h)) eqn:Hacc; cbn.
  2:{ eexists _, _. split; [reflexivity|]. cbn.
      repeat split; intros; try reflexivity; discriminate. }
  destruct (item (storage h)) as [s|] eqn:Hitem; cbn.
  2:{ eexists _, _. split; [reflexivity|]. cbn.
      repeat split; intros; try reflexivity; discriminate. }
  destruct (String.eqb s "") eqn:Hs; cbn.
  { apply String.eqb_eq in Hs. subst s.
    eexists _, _. split; [reflexivity|]. cbn.
    repeat split; intros; try reflexivity.
    match goal with H : Some _ = Some _ |- _ => injection H as <- end.
    congruence. }
  destruct (JSON_parse s) as [v|e] eqn:Hp; cbn.
  2:{ eexists _, _. split; [reflexivity|]. cbn.
      repeat split; intros; try reflexivity.
      match goal with H : Some _ = Some _ |- _ => injection H as <- end.
      congruence. }
  destruct v; cbn;
    eexists _, _; (split; [reflexivity|]); cbn;
    repeat split; intros; try reflexivity; try discriminate;
    match goal with H : Some _ = Some _ |- _ => injection H as <- end;
    congruence.
Qed.

(** ** Appending to the retained list *)

Lemma valid_record_slot r :
  valid_record r = true -> slot_of r = Normal (slot_key r).
Proof.
  unfold valid_record, slot_key, has_sandwich, slot_of.
  destruct r; cbn; try discriminate;
    try (destruct (truthy _); discriminate).
  - destruct b; discriminate.
  - destruct (negb (n =? 0)); discriminate.
  - destruct (negb (String.eqb s "")); discriminate.
  - destruct (lookup_field "data" fields); cbn; try discriminate;
      try reflexivity.
    + destruct b; discriminate.
    + destruct (negb (n =? 0)); discriminate.
    + destruct (negb (String.eqb s "")); discriminate.
    + destruct (lookup_field "sandwich" fields0); cbn; try discriminate;
        reflexivity.
Qed.

Lemma has_sandwich_total r : has_sandwich r = Normal (valid_record r).
Proof.
  unfold valid_record, has_sandwich.
  destruct r; cbn; try reflexivity.
  - destruct b; reflexivity.
  - destruct (negb (n =? 0)); reflexivity.
  - destruct (negb (String.eqb s "")); reflexivity.
  - destruct (lookup_field "data" fields); cbn; try reflexivity.
    + destruct b; reflexivity.
    + destruct (negb (n =? 0)); reflexivity.
    + destruct (negb (String.eqb s "")); reflexivity.
Qed.

(** A search that finds nothing has compared every record, without an
    exception, and found its slot different. *)
Lemma findIndex_from_none n l : forall i,
  0 <= i ->
  findIndex_from (same_slot n) l i = Normal (-1) ->
  slot_taken (slot_key n) l = false.
Proof.
  induction l as [|s l IH]; intros i Hi H; [reflexivity|].
  cbn in H. cbn.
  unfold same_slot at 1 in H.
  destruct (slot_of s) as [a|] eqn:Hs; cbn in H; [|discriminate].
  destruct (slot_of n) as [b|] eqn:Hn; cbn in H; [|discriminate].
  assert (Ka : slot_key s = a) by (unfold slot_key; rewrite Hs; reflexivity).
  assert (Kb : slot_key n = b) by (unfold slot_key; rewrite Hn; reflexivity).
  rewrite Ka, Kb.
  destruct (strict_eq a b); cbn in *.
  - injection H as H. lia.
  - rewrite <- Kb. apply (IH (i + 1)); [lia|exact H].
Qed.

Lemma findIndex_from_valid n l : forall i,
  0 <= i ->
  valid_record n = true -> well_shaped l = true ->
  exists z, findIndex_from (same_slot n) l i = Normal z /\
            (z =? -1) = negb (slot_taken (slot_key n) l).
Proof.
  induction l as [|s l IH]; intros i Hi Hn Hl.
  - exists (-1). split; reflexivity.
  - cbn in Hl. apply andb_true_iff in Hl as [Hs Hl].
    cbn. unfold same_slot at 1.
    rewrite (valid_record_slot s Hs), (valid_record_slot n Hn). cbn.
    destruct (strict_eq (slot_key s) (slot_key n)); cbn.
    + exists i. split; [reflexivity|].
      apply Z.eqb_neq. lia.
    + apply (IH (i + 1)); [lia|assumption..].
Qed.

(** What the updater can do: hand back the array it was given, build the
    array with the new record in front, or throw. *)
Lemma updateSandwiches_updater_cases n prev h :
  match updateSandwiches_updater n prev h with
  | (Normal next, h') =>
      (next = prev /\ h' = h) \/
      (findIndex (same_slot n) (elems prev) = Normal (-1) /\
       next = {| ref := S (allocated h);
                 elems := firstn 50 (n :: elems prev) |} /\
       h' = with_allocated (S (S (allocated h))) h)
  | (Thrown e, h') => h' = h
  end.
Proof.
  unfold updateSandwiches_updater. run_stmt.
  destruct (findIndex (same_slot n) (elems prev)) as [z|e]; cbn; [|reflexivity].
  destruct (z =? -1) eqn:Hz; cbn.
  - right. apply Z.eqb_eq in Hz. subst z. repeat split; reflexivity.
  - left. split; reflexivity.
Qed.

Lemma save_effect_cases w :
  exists h',
    save_effect w = (Normal tt, {| react := react w; feed := feed w; host := h' |}) /\
    same_feed_env (host w) h' /\
    allocated h' = S (allocated (host w)) /\
    setItem_calls (storage h') =
      (setItem_calls (storage (host w)) ++
       [JSON_stringify (JArr (firstn 50 (retained w)))])%list.
Proof.
  unfold save_effect, localStorage_setItem, same_feed_env, retained. run_stmt.
  destruct (accessible (storage (host w)) && quota_left (storage (host w)));
    cbn; eexists; (split; [reflexivity|]); cbn; repeat split; reflexivity.
Qed.

(** One call of [updateSandwiches]: it returns, touches nothing of the feed,
    and either keeps the array of the state or replaces it by the array
    with the record in front. *)
Lemma updateSandwiches_cases r w :
  exists w',
    updateSandwiches r w = (Normal tt, w') /\
    feed w' = feed w /\ same_feed_env (host w) (host w') /\
    (allocated (host w) <= allocated (host w'))%nat /\
    mounted (react w') = mounted (react w) /\
    (sandwiches (react w') = sandwiches (react w) \/
     (mounted (react w) = true /\ valid_record r = true /\
      findIndex (same_slot r) (retained w) = Normal (-1) /\
      retained w' = firstn 50 (r :: retained w) /\ heap_ok w')).
Proof.
  unfold updateSandwiches. rewrite has_sandwich_total.
  unfold bind at 1, lift at 1. cbn.
  destruct (valid_record r) eqn:Hr.
  2:{ run_stmt. eexists. split; [reflexivity|]. cbn.
      unfold same_feed_env. cbn. repeat split; auto. }
  unfold setSandwiches.
  destruct (mounted (react w)) eqn:Hm.
  2:{ exists w. unfold same_feed_env. repeat split; auto. }
  pose proof (updateSandwiches_updater_cases r (sandwiches (react w)) (host w)) as Hu.
  destruct (updateSandwiches_updater r (sandwiches (react w)) (host w))
    as [[next|e] h'].
  2:{ subst h'. eexists. split; [reflexivity|]. cbn.
      unfold same_feed_env. repeat split; auto. }
  destruct Hu as [[-> ->]|(Hf & -> & ->)].
  - unfold Object_is. rewrite Nat.eqb_refl.
    eexists. split; [reflexivity|]. cbn.
    unfold same_feed_env. repeat split; auto.
  - destruct (Object_is _ _) eqn:Ho.
    + eexists. split; [reflexivity|]. cbn.
      unfold same_feed_env. cbn. repeat split; auto.
    + match goal with |- context [save_effect ?x] =>
        destruct (save_effect_cases x) as (h2 & Hs & He & Ha & _)
      end.
      rewrite Hs. eexists. split; [reflexivity|]. cbn in *.
      unfold same_feed_env in *. cbn in *.
      destruct He as (-> & -> & -> & ->).
      repeat split; auto; try lia.
      right. unfold heap_ok, retained. cbn. rewrite Ha.
      repeat split; auto.
Qed.

Section Keeps.

Variable R : World -> World -> Prop.
Hypothesis R_refl : forall w, R w w.
Hypothesis R_trans : forall a b c, R a b -> R b c -> R a c.

Lemma keeps_ret {A} (a : A) : keeps R (ret a).
Proof. intros w. apply R_refl. Qed.

Lemma keeps_gets {A} (f : World -> A) : keeps R (gets f).
Proof. intros w. apply R_refl. Qed.

Lemma keeps_lift {A} (c : completion A) : keeps R (lift c).
Proof. intros w. apply R_refl. Qed.

Lemma keeps_bind {A B} (m : M World A) (k : A -> M World B) :
  keeps R m -> (forall a, keeps R (k a)) -> keeps R (bind m k).
Proof.
  intros Hm Hk w. unfold bind.
  specialize (Hm w). destruct (m w) as [[a|e] w']; cbn in *.
  - eapply R_trans; [exact Hm|apply Hk].
  - exact Hm.
Qed.

Lemma keeps_try_catch {A} (m : M World A) (k : error -> M World A) :
  keeps R m -> (forall e, keeps R (k e)) -> keeps R (try_catch m k).
Proof.
  intros Hm Hk w. unfold try_catch.
  specialize (Hm w). destruct (m w) as [[a|e] w']; cbn in *.
  - exact Hm.
  - eapply R_trans; [exact Hm|apply Hk].
Qed.

End Keeps.

Lemma store_same_refl w : store_same w w.
Proof. repeat split. Qed.

Lemma store_same_trans a b c : store_same a b -> store_same b c -> store_same a c.
Proof. unfold store_same. intros (?&?&?) (?&?&?). repeat split; congruence. Qed.

Lemma store_same_on_host {A} (m : M Host A) :
  host_keeps heap_same m -> keeps store_same (on_host m).
Proof.
  intros Hm w. unfold on_host. specialize (Hm (host w)).
  destruct (m (host w)) as [r h]. cbn in *. repeat split. exact Hm.
Qed.

Lemma store_same_with_feed f : keeps store_same (with_feed f).
Proof. intros w. repeat split. Qed.

Ltac host_frame :=
  intros ?; unfold console_error, setTimeout, setInterval, setTimer,
    clearInterval, timeout_done, new_WebSocket, WebSocket_close, set_onclose,
    alter_socket, modify; cbn; repeat split; reflexivity.

Ltac keeps_step refl trans on_host_lemma feed_lemma :=
  first
    [ apply keeps_ret; exact refl
    | apply keeps_gets; exact refl
    | apply keeps_lift; exact refl
    | apply feed_lemma
    | apply on_host_lemma; host_frame
    | eapply keeps_bind; [exact trans| |intros ?]
    | eapply keeps_try_catch; [exact trans| |intros ?]
    | match goal with
      | |- keeps _ (match ?x with _ => _ end) => destruct x
      | |- keeps _ (if ?x then _ else _) => destruct x
      end ].

Ltac store_frame :=
  unfold onopen_handler, onerror_handler, onclose_handler, run_callback,
    cleanup, connectWebSocket, clear_if_set, fetchSandwichesFallback;
  repeat keeps_step store_same_refl store_same_trans
                    (@store_same_on_host) store_same_with_feed.

Lemma onopen_handler_store : keeps store_same onopen_handler.
Proof. store_frame. Qed.

Lemma onerror_handler_store : keeps store_same onerror_handler.
Proof. store_frame. Qed.

Lemma onclose_handler_store u code : keeps store_same (onclose_handler u code).
Proof. store_frame. Qed.

Lemma run_callback_store cb : keeps store_same (run_callback cb).
Proof. destruct cb; store_frame. Qed.

Lemma cleanup_store : keeps store_same cleanup.
Proof. store_frame. Qed.

Lemma onmessage_handler_store data w :
  (exists r, onmessage_handler data w = updateSandwiches r w) \/
  store_same w (snd (onmessage_handler data w)).
Proof.
  unfold onmessage_handler, try_catch, bind, lift.
  destruct (JSON_parse data) as [v|e].
  - rewrite has_sandwich_total. destruct (valid_record v) eqn:Hv.
    + left. exists v.
      destruct (updateSandwiches_cases v w) as (w' & Hw & _).
      rewrite Hw. reflexivity.
    + right. repeat split.
  - right. repeat split.
Qed.

Lemma fetchSandwichesFallback_resume_store r w :
  (exists v, fetchSandwichesFallback_resume r w = updateSandwiches v w) \/
  store_same w (snd (fetchSandwichesFallback_resume r w)).
Proof.
  unfold fetchSandwichesFallback_resume, try_catch, bind, lift.
  destruct r as [[m|[|[[t value]|] rest]|]|e];
    try (right; repeat split; fail).
  destruct (JSON_parse value) as [v|e].
  - left. exists v.
    destruct (updateSandwiches_cases v w) as (w' & Hw & _).
    rewrite Hw. reflexivity.
  - right. repeat split.
Qed.

(** An event other than the unmount either is one call of
    [updateSandwiches] or leaves the array of the state and the heap alone;
    the unmount leaves them alone too. *)
Lemma deliver_store ev w :
  (exists r, deliver ev w = updateSandwiches r w) \/
  (sandwiches (react (snd (deliver ev w))) = sandwiches (react w) /\
   allocated (host (snd (deliver ev w))) = allocated (host w) /\
   (ev <> unmount ->
    mounted (react (snd (deliver ev w))) = mounted (react w))).
Proof.
  assert (Hk : forall m : M World unit, keeps store_same m ->
            sandwiches (react (snd (m w))) = sandwiches (react w) /\
            allocated (host (snd (m w))) = allocated (host w) /\
            (ev <> unmount -> mounted (react (snd (m w))) = mounted (react w))).
  { intros m Hm. destruct (Hm w) as (? & ? & ?). auto. }
  destruct ev as [n|n data|n|n code|id|r|]; unfold deliver;
    try (right; apply Hk;
         repeat first
           [ apply onopen_handler_store | apply onerror_handler_store
           | apply onclose_handler_store | apply run_callback_store
           | keeps_step store_same_refl store_same_trans
                        (@store_same_on_host) store_same_with_feed ];
         fail).
  - unfold bind, gets. cbv beta iota.
    destruct (sockets (host w) !! n) as [[u ? [] ? ? ?]|];
      try (right; repeat split; fail).
    destruct (onmessage_handler_store data w) as [?|(?&?&?)]; auto.
  - destruct (fetchSandwichesFallback_resume_store r w) as [?|(?&?&?)]; auto.
  - right. unfold bind, modify.
    destruct (cleanup_store w) as (? & ? & ?).
    destruct (cleanup w) as [[[]|e] w']; cbn in *; repeat split; auto;
      congruence.
Qed.

Lemma slot_taken_firstn k n l :
  slot_taken k l = false -> slot_taken k (firstn n l) = false.
Proof.
  revert n. induction l as [|x l IH]; intros [|n] H; try reflexivity.
  cbn in *. apply orb_false_iff in H as [-> H]. cbn. apply IH, H.
Qed.

Lemma distinct_slots_firstn n l :
  distinct_slots l = true -> distinct_slots (firstn n l) = true.
Proof.
  revert n. induction l as [|x l IH]; intros [|n] H; try reflexivity.
  cbn in *. apply andb_true_iff in H as [Hx H].
  apply negb_true_iff in Hx.
  rewrite (slot_taken_firstn _ n _ Hx). cbn. apply IH, H.
Qed.

Lemma well_shaped_firstn n l :
  well_shaped l = true -> well_shaped (firstn n l) = true.
Proof.
  unfold well_shaped.
  revert n. induction l as [|x l IH]; intros [|n] H; try reflexivity.
  cbn in *. apply andb_true_iff in H as [-> H]. cbn. apply IH, H.
Qed.

Lemma length_firstn_50 (l : list jsval) : (length (firstn 50 l) <= 50)%nat.
Proof. rewrite length_firstn. lia. Qed.

(** An appended record whose slot is retained changes nothing at all. *)
Lemma updateSandwiches_duplicate r w :
  valid_record r = true -> well_shaped (retained w) = true ->
  slot_taken (slot_key r) (retained w) = true ->
  updateSandwiches r w = (Normal tt, w).
Proof.
  intros Hr Hw Ht.
  unfold updateSandwiches. rewrite has_sandwich_total, Hr.
  unfold bind at 1, lift at 1. cbv beta iota.
  unfold setSandwiches.
  destruct (mounted (react w)); [|reflexivity].
  unfold updateSandwiches_updater, bind, lift, ret, findIndex.
  destruct (findIndex_from_valid r (retained w) 0 ltac:(lia) Hr Hw)
    as (z & Hz & Hzt).
  unfold retained in Hz. rewrite Hz.
  rewrite Ht in Hzt. cbn in Hzt. rewrite Hzt.
  unfold Object_is. rewrite Nat.eqb_refl.
  destruct w; reflexivity.
Qed.

(** An appended record whose slot is new goes in front, and the list is cut
    to 50. *)
Lemma updateSandwiches_fresh r w :
  mounted (react w) = true -> heap_ok w ->
  valid_record r = true -> well_shaped (retained w) = true ->
  slot_taken (slot_key r) (retained w) = false ->
  exists w', updateSandwiches r w = (Normal tt, w') /\
             retained w' = firstn 50 (r :: retained w) /\
             mounted (react w') = true /\ heap_ok w'.
Proof.
  intros Hm Hh Hr Hw Ht.
  unfold updateSandwiches. rewrite has_sandwich_total, Hr.
  unfold bind at 1, lift at 1. cbv beta iota.
  unfold setSandwiches. rewrite Hm.
  unfold updateSandwiches_updater, bind, lift, ret, findIndex, new_array.
  destruct (findIndex_from_valid r (retained w) 0 ltac:(lia) Hr Hw)
    as (z & Hz & Hzt).
  unfold retained in Hz. rewrite Hz.
  rewrite Ht in Hzt. cbn in Hzt. rewrite Hzt. cbv beta iota.
  unfold Object_is. cbn [ref elems allocated with_allocated].
  replace (S (allocated (host w)) =? ref (sandwiches (react w)))%nat with false
    by (symmetry; apply Nat.eqb_neq; unfold heap_ok in Hh; lia).
  match goal with |- context [save_effect ?x] =>
    destruct (save_effect_cases x) as (h2 & Hs & He & Ha & _)
  end.
  rewrite Hs. eexists. split; [reflexivity|].
  unfold retained, heap_ok. cbn in *. rewrite Ha.
  repeat split; auto.
Qed.

Lemma updateSandwiches_length r w :
  (length (retained w) <= 50)%nat ->
  (length (retained (snd (updateSandwiches r w))) <= 50)%nat.
Proof.
  intros H.
  destruct (updateSandwiches_cases r w) as (w' & -> & _ & _ & _ & _ & [Hs|Hs]);
    cbn.
  - unfold retained in *. rewrite Hs. exact H.
  - destruct Hs as (_ & _ & _ & -> & _). apply length_firstn_50.
Qed.

Lemma updateSandwiches_distinct r w :
  distinct_slots (retained w) = true ->
  distinct_slots (retained (snd (updateSandwiches r w))) = true.
Proof.
  intros H.
  destruct (updateSandwiches_cases r w) as (w' & -> & _ & _ & _ & _ & [Hs|Hs]);
    cbn.
  - unfold retained in *. rewrite Hs. exact H.
  - destruct Hs as (_ & _ & Hf & -> & _).
    apply distinct_slots_firstn. cbn.
    rewrite (findIndex_from_none r (retained w) 0 ltac:(lia) Hf). exact H.
Qed.

Lemma updateSandwiches_store_ok r w :
  store_ok w -> store_ok (snd (updateSandwiches r w)).
Proof.
  intros (Hm & Hh & Hw & Hd).
  pose proof (updateSandwiches_distinct r w Hd) as Hd'.
  destruct (updateSandwiches_cases r w)
    as (w' & Hu & _ & _ & Ha & Hm' & [Hs|Hs]);
    rewrite Hu in *; cbn [snd] in *.
  - unfold store_ok, heap_ok, retained in *. rewrite Hs.
    repeat split; auto; try congruence. lia.
  - destruct Hs as (_ & Hr & _ & Hl & Hh').
    unfold store_ok. repeat split; auto; try congruence.
    rewrite Hl. apply well_shaped_firstn. unfold well_shaped in *.
    cbn [forallb]. rewrite Hr. exact Hw.
Qed.

Lemma deliver_all_length evs : forall w,
  (length (retained w) <= 50)%nat ->
  (length (retained (deliver_all evs w)) <= 50)%nat.
Proof.
  induction evs as [|ev evs IH]; intros w H; [exact H|].
  cbn. apply IH.
  destruct (deliver_store ev w) as [[r ->]|(Hs & _)].
  - apply updateSandwiches_length, H.
  - unfold retained in *. rewrite Hs. exact H.
Qed.

Lemma deliver_all_distinct evs : forall w,
  distinct_slots (retained w) = true ->
  distinct_slots (retained (deliver_all evs w)) = true.
Proof.
  induction evs as [|ev evs IH]; intros w H; [exact H|].
  cbn. apply IH.
  destruct (deliver_store ev w) as [[r ->]|(Hs & _)].
  - apply updateSandwiches_distinct, H.
  - unfold retained in *. rewrite Hs. exact H.
Qed.

Lemma deliver_all_store_ok evs : forall w,
  stays_mounted evs = true -> store_ok w -> store_ok (deliver_all evs w).
Proof.
  induction evs as [|ev evs IH]; intros w Hn H; [exact H|].
  cbn in Hn. apply andb_true_iff in Hn as [Hev Hn].
  cbn. apply IH; [exact Hn|].
  destruct (deliver_store ev w) as [[r ->]|(Hs & Ha & Hm)].
  - apply updateSandwiches_store_ok, H.
  - destruct H as (Hm' & Hh & Hw & Hd).
    unfold store_ok, heap_ok, retained in *. rewrite Hs, Ha.
    repeat split; auto. rewrite Hm; [exact Hm'|].
    intros ->. discriminate.
Qed.




Lemma firstn_app_firstn {A} n (a b : list A) :
  firstn n (a ++ firstn n b) = firstn n (a ++ b).
Proof.
  rewrite !take_app, take_take. f_equal. f_equal. lia.
Qed.


(** ** The mounted component *)

Lemma getInitialSandwiches_array h :
  exists a h',
    getInitialSandwiches h = (Normal a, h') /\
    ref a = allocated h /\ allocated h' = S (allocated h) /\
    (length (elems a) <= 50)%nat /\ same_feed_env h h'.
Proof.
  unfold getInitialSandwiches, getInitialSandwiches_try, localStorage_getItem,
    same_feed_env.
  run_stmt.
  destruct (accessible (storage h)); cbn;
    [|eexists _, _; (split; [reflexivity|]); cbn; repeat split; lia].
  destruct (item (storage h)) as [s|]; cbn;
    [|eexists _, _; (split; [reflexivity|]); cbn; repeat split; lia].
  destruct (String.eqb s ""); cbn;
    [eexists _, _; (split; [reflexivity|]); cbn; repeat split; lia|].
  destruct (JSON_parse s) as [v|e]; cbn;
    [|eexists _, _; (split; [reflexivity|]); cbn; repeat split; lia].
  destruct v; cbn;
    eexists _, _; (split; [reflexivity|]); cbn [ref elems allocated
      with_allocated sockets scheduled timers polls_issued length];
    repeat split; try lia.
  apply length_firstn_50.
Qed.

Lemma mount_cases st :
  exists a h,
    getInitialSandwiches (initial_host st) = (Normal a, h) /\
    retained (snd (mount st)) = elems a /\
    mounted (react (snd (mount st))) = true /\
    heap_ok (snd (mount st)) /\
    feed (snd (mount st)) =
      {| websocket := Some 0%nat; reconnectAttempts := 0;
         fallbackIntervalId := None; reconnectIntervalId := None;
         initialFallbackIntervalId := Some 1%positive |} /\
    sockets (host (snd (mount st))) = [first_socket] /\
    scheduled (host (snd (mount st))) = [backup_poll] /\
    timers (host (snd (mount st))) = [(1%positive, backup_poll)] /\
    polls_issued (host (snd (mount st))) = 0%nat.
Proof.
  destruct (getInitialSandwiches_array (initial_host st))
    as (a & h & Hg & Href & Hal & Hlen & Hs & Hsc & Ht & Hp).
  exists a, h. split; [exact Hg|].
  remember (snd (mount st)) as W eqn:HW.
  unfold mount in HW. rewrite Hg in HW. unfold mount_effects, bind in HW.
  match type of HW with context [save_effect ?x] =>
    destruct (save_effect_cases x) as (h2 & Hsv & He & Ha & _);
    rewrite Hsv in HW
  end.
  destruct He as (Hs2 & Hsc2 & Ht2 & Hp2).
  cbn in Hs, Hsc, Ht, Hp, Hs2, Hsc2, Ht2, Hp2, Ha, Href.
  unfold connectWebSocket, setInterval, setTimer, new_WebSocket, bind, gets,
    on_host, with_feed, modify, ret in HW.
  cbn in HW. subst W. unfold retained, heap_ok. cbn.
  rewrite Hs2, Hsc2, Ht2, Hp2, Hs, Hsc, Ht, Hp.
  repeat split; try reflexivity. lia.
Qed.

Lemma mount_length st : (length (retained (snd (mount st))) <= 50)%nat.
Proof.
  destruct (mount_cases st) as (a & h & Hg & -> & _).
  destruct (getInitialSandwiches_array (initial_host st))
    as (a' & h' & Hg' & _ & _ & Hlen & _).
  rewrite Hg in Hg'. injection Hg' as <- <-. exact Hlen.
Qed.

(** ** The claims about the retained list *)

(** C10: appending a validated record whose slot is the slot of a retained
    record, all of them validated ones, leaves the world as it was: the
    state holds the same array object, no [setItem] is issued, nothing is
    logged; the same holds when the record arrives as a push message. *)
Theorem duplicate_append_changes_nothing (r : jsval) (w : World) :
  valid_record r = true ->
  well_shaped (retained w) = true ->
  slot_taken (slot_key r) (retained w) = true ->
  updateSandwiches r w = (Normal tt, w) /\
  Object_is (sandwiches (react (snd (updateSandwiches r w))))
            (sandwiches (react w)) = true /\
  setItem_calls (storage (host (snd (updateSandwiches r w)))) =
    setItem_calls (storage (host w)) /\
  (forall data, JSON_parse data = Normal r ->
                onmessage_handler data w = (Normal tt, w)).
Proof.
  intros Hr Hw Ht.
  pose proof (updateSandwiches_duplicate r w Hr Hw Ht) as Hu.
  rewrite Hu. cbn [snd]. repeat split.
  - unfold Object_is. apply Nat.eqb_refl.
  - intros data Hp.
    unfold onmessage_handler, try_catch, bind, lift.
    rewrite Hp, has_sandwich_total, Hr, Hu. reflexivity.
Qed.

(** ** Malformed input *)

Lemma payload_missing_invalid v : payload_missing v = true -> valid_record v = false.
Proof.
  unfold payload_missing, valid_record, has_sandwich.
  destruct v; cbn; try reflexivity; try discriminate.
  - destruct b; reflexivity.
  - destruct (negb (n =? 0)); reflexivity.
  - destruct (negb (String.eqb s "")); reflexivity.
  - destruct (lookup_field "data" fields); cbn; try reflexivity;
      try discriminate.
    + destruct b; reflexivity.
    + destruct (negb (n =? 0)); reflexivity.
    + destruct (negb (String.eqb s "")); reflexivity.
    + destruct (lookup_field "sandwich" fields0); cbn; try reflexivity;
        discriminate.
Qed.

(** C8: a push message that does not parse, or whose parsed value fails the
    [data.sandwich] check (as every value without that payload does), and a
    fallback sample that does not parse or fails the check: the handler
    returns normally and the world differs by one [console.error] only, so
    the retained list is the one before. *)
Theorem malformed_input_is_dropped (w : World) :
  (forall data e, JSON_parse data = Thrown e ->
     onmessage_handler data w = (Normal tt, logged Error_parsing_WebSocket_data w)) /\
  (forall data v, JSON_parse data = Normal v -> valid_record v = false ->
     onmessage_handler data w =
       (Normal tt,
        logged (Received_WebSocket_message_with_unexpected_structure v) w)) /\
  (forall v, payload_missing v = true -> valid_record v = false) /\
  (forall t value rest e, JSON_parse value = Thrown e ->
     fetchSandwichesFallback_resume (Normal (vector (Some (t, value) :: rest))) w =
       (Normal tt, logged Error_parsing_fallback_sandwich_data_JSON w)) /\
  (forall t value rest v, JSON_parse value = Normal v -> valid_record v = false ->
     fetchSandwichesFallback_resume (Normal (vector (Some (t, value) :: rest))) w =
       (Normal tt,
        logged (Attempted_to_add_sandwich_with_unexpected_structure v) w)) /\
  (forall d, retained (logged d w) = retained w).
Proof.
  repeat split.
  - intros data e Hp. unfold onmessage_handler, try_catch, bind, lift.
    rewrite Hp. reflexivity.
  - intros data v Hp Hv. unfold onmessage_handler, try_catch, bind, lift.
    rewrite Hp, has_sandwich_total, Hv. reflexivity.
  - apply payload_missing_invalid.
  - intros t value rest e Hp.
    unfold fetchSandwichesFallback_resume, try_catch, bind, lift.
    rewrite Hp. reflexivity.
  - intros t value rest v Hp Hv.
    unfold fetchSandwichesFallback_resume, updateSandwiches, try_catch, bind, lift.
    rewrite Hp, has_sandwich_total, Hv. reflexivity.
Qed.

(** ** The reconnect policy *)

Lemma count_if_app {A} (f : A -> bool) a b :
  count_if f (a ++ b) = (count_if f a + count_if f b)%nat.
Proof. unfold count_if. rewrite List.filter_app, length_app. reflexivity. Qed.

Lemma count_if_without id (f : Timer -> bool) l :
  (forall t, In (id, t) l -> f t = false) ->
  count_if (fun p => f (snd p)) (without_timer id l) =
  count_if (fun p => f (snd p)) l.
Proof.
  unfold count_if, without_timer.
  induction l as [|[i t] l IH]; intros H; [reflexivity|].
  cbn. destruct (Pos.eqb i id) eqn:Hi; cbn.
  - apply Pos.eqb_eq in Hi. subst i.
    rewrite (H t) by (left; reflexivity).
    apply IH. intros t' Ht'. apply H. right. exact Ht'.
  - destruct (f t); cbn; rewrite IH; auto;
      intros t' Ht'; apply H; right; exact Ht'.
Qed.

Lemma in_without_timer id p l : In p (without_timer id l) -> In p l.
Proof. unfold without_timer. intros H. apply List.filter_In in H. tauto. Qed.

Lemma find_timer_in id l t : find_timer id l = Some t -> In (id, t) l.
Proof.
  unfold find_timer.
  destruct (List.find _ l) as [[i t']|] eqn:Hf; [|discriminate].
  intros H. injection H as <-.
  apply List.find_some in Hf as [Hin He]. cbn in He.
  apply Pos.eqb_eq in He. subst i. exact Hin.
Qed.

Lemma timers_ok_schedule t h : timers_ok h -> timers_ok (schedule t h).
Proof.
  unfold timers_ok, schedule. cbn. intros H id t' Hin.
  apply List.in_app_or in Hin as [Hin|[Heq|[]]].
  - apply lookup_app_l_Some. apply H, Hin.
  - injection Heq as <- <-.
    rewrite SuccNat2Pos.id_succ. cbn. rewrite Nat.sub_0_r.
    apply list_lookup_middle. reflexivity.
Qed.

Lemma periodic_ok_schedule t h :
  periodic_ok h ->
  (action t = periodic_reconnect_cb ->
   is_interval periodic_reconnect_cb 30000 t = true) ->
  periodic_ok (schedule t h).
Proof.
  unfold periodic_ok, schedule. cbn. intros H Ht.
  apply Forall_app. split; [exact H|]. constructor; [exact Ht|constructor].
Qed.

Lemma feed_same_refl w : feed_same w w.
Proof. repeat split. Qed.

Lemma feed_same_trans a b c : feed_same a b -> feed_same b c -> feed_same a c.
Proof.
  unfold feed_same. intros (?&?&?&?) (?&?&?&?). repeat split; congruence.
Qed.

Lemma feed_same_on_host {A} (m : M Host A) :
  host_keeps timers_same m -> keeps feed_same (on_host m).
Proof.
  intros Hm w. unfold on_host. specialize (Hm (host w)).
  destruct (m (host w)) as [r h]. destruct Hm as (?&?&?).
  repeat split; assumption.
Qed.

Lemma updateSandwiches_feed r : keeps feed_same (updateSandwiches r).
Proof.
  intros w.
  destruct (updateSandwiches_cases r w) as (w' & -> & Hf & (?&?&?&?) & _).
  repeat split; assumption.
Qed.

Ltac feed_frame :=
  repeat first
    [ apply updateSandwiches_feed
    | keeps_step feed_same_refl feed_same_trans (@feed_same_on_host) fail ].

Lemma onmessage_handler_feed data : keeps feed_same (onmessage_handler data).
Proof. unfold onmessage_handler. feed_frame. Qed.

Lemma fetchSandwichesFallback_resume_feed r :
  keeps feed_same (fetchSandwichesFallback_resume r).
Proof. unfold fetchSandwichesFallback_resume. feed_frame. Qed.

Lemma fetchSandwichesFallback_feed : keeps feed_same fetchSandwichesFallback.
Proof. unfold fetchSandwichesFallback. feed_frame. Qed.

Lemma onerror_handler_feed : keeps feed_same onerror_handler.
Proof. unfold onerror_handler, fetchSandwichesFallback. feed_frame. Qed.

Lemma feed_inv_same n w w' : feed_same w w' -> feed_inv n w -> feed_inv n w'.
Proof.
  intros (Hf & Hs & Hsc & Ht).
  unfold feed_inv, before_fallback, in_fallback, timers_ok, periodic_ok,
    started_intervals, pending_intervals.
  rewrite Hf, Hs, Hsc, Ht. tauto.
Qed.

Lemma onclose_handler_normal u code w :
  abnormal code = false -> onclose_handler u code w = (Normal tt, w).
Proof.
  unfold abnormal, onclose_handler. intros H.
  apply negb_false_iff in H. rewrite H. reflexivity.
Qed.

Lemma onclose_handler_retry u code w :
  abnormal code = true ->
  (reconnectAttempts (feed w) < maxReconnectAttempts)%nat ->
  onclose_handler u code w =
    (Normal tt,
     {| react := react w;
        feed := set_reconnectAttempts (S (reconnectAttempts (feed w))) (feed w);
        host := with_polls_issued (S (polls_issued (host w)))
                  (schedule (reconnect_timer u) (host w)) |}).
Proof.
  unfold abnormal, onclose_handler. intros H Hlt.
  apply negb_true_iff in H. rewrite H.
  unfold bind at 1, gets at 1. cbv beta iota.
  apply Nat.ltb_lt in Hlt. rewrite Hlt.
  destruct w as [rc fd hs]. reflexivity.
Qed.

Lemma onclose_handler_exhausted u code w :
  abnormal code = true ->
  ~ (reconnectAttempts (feed w) < maxReconnectAttempts)%nat ->
  onclose_handler u code w =
    (Normal tt,
     match fallbackIntervalId (feed w), reconnectIntervalId (feed w) with
     | Some _, Some _ => w
     | None, Some _ =>
         {| react := react w;
            feed := set_fallbackIntervalId
                      (Some (Pos.of_succ_nat (length (scheduled (host w)))))
                      (feed w);
            host := schedule fallback_poll (host w) |}
     | Some _, None =>
         {| react := react w;
            feed := set_reconnectIntervalId
                      (Some (Pos.of_succ_nat (length (scheduled (host w)))))
                      (feed w);
            host := schedule periodic_reconnect (host w) |}
     | None, None =>
         {| react := react w;
            feed := set_reconnectIntervalId
                      (Some (Pos.of_succ_nat (S (length (scheduled (host w))))))
                      (set_fallbackIntervalId
                         (Some (Pos.of_succ_nat (length (scheduled (host w)))))
                         (feed w));
            host := schedule periodic_reconnect
                      (schedule fallback_poll (host w)) |}
     end).
Proof.
  unfold abnormal, onclose_handler. intros H Hlt.
  apply negb_true_iff in H. rewrite H.
  unfold bind at 1, gets at 1. cbv beta iota.
  apply Nat.ltb_nlt in Hlt. rewrite Hlt.
  destruct w as [rc [ws n [fb|] [rb|] ib] hs]; cbn; try reflexivity.
  all: unfold schedule; cbn; rewrite ?length_app; cbn;
    rewrite ?Nat.add_1_r; reflexivity.
Qed.

(** C6: on a close with code 1000 or 1005 the handler does nothing; on any
    other code, with fewer than 10 attempts counted, it counts one more,
    schedules exactly one timer, the reconnect in 3000 ms to the other
    endpoint, issues one fallback poll, and leaves the rest as it was. *)
Theorem onclose_reconnects_once (u : string) (code : Z) (w : World) :
  (code = 1000 \/ code = 1005 -> onclose_handler u code w = (Normal tt, w)) /\
  (code <> 1000 -> code <> 1005 ->
   (reconnectAttempts (feed w) < maxReconnectAttempts)%nat ->
   onclose_handler u code w =
     (Normal tt,
      {| react := react w;
         feed := set_reconnectAttempts (S (reconnectAttempts (feed w))) (feed w);
         host := with_polls_issued (S (polls_issued (host w)))
                   (schedule (reconnect_timer u) (host w)) |})) /\
  scheduled (schedule (reconnect_timer u) (host w)) =
    (scheduled (host w) ++ [reconnect_timer u])%list /\
  maxReconnectAttempts = 10%nat /\
  action (reconnect_timer primaryWsUrl) = connectWebSocket_cb fallbackWsUrl /\
  action (reconnect_timer fallbackWsUrl) = connectWebSocket_cb primaryWsUrl /\
  delay (reconnect_timer u) = 3000 /\
  repeating (reconnect_timer u) = false.
Proof.
  split.
  { intros [->| ->]; reflexivity. }
  split.
  { intros H0 H5 Hlt. apply onclose_handler_retry; [|exact Hlt].
    unfold abnormal. apply Z.eqb_neq in H0, H5. rewrite H0, H5. reflexivity. }
  repeat split.
Qed.

Lemma started_schedule cb ms t rc fd h :
  started_intervals cb ms {| react := rc; feed := fd; host := schedule t h |} =
  (count_if (is_interval cb ms) (scheduled h) +
   (if is_interval cb ms t then 1 else 0))%nat.
Proof.
  unfold started_intervals, schedule. cbn.
  rewrite count_if_app. unfold count_if at 2. cbn.
  destruct (is_interval cb ms t); reflexivity.
Qed.

Lemma pending_schedule cb ms t rc fd h :
  pending_intervals cb ms {| react := rc; feed := fd; host := schedule t h |} =
  (count_if (fun p => is_interval cb ms (snd p)) (timers h) +
   (if is_interval cb ms t then 1 else 0))%nat.
Proof.
  unfold pending_intervals, schedule. cbn.
  rewrite count_if_app. unfold count_if at 2. cbn.
  destruct (is_interval cb ms t); reflexivity.
Qed.

Lemma onclose_handler_inv u code n w :
  feed_inv n w ->
  feed_inv (if abnormal code then S n else n) (snd (onclose_handler u code w)).
Proof.
  intros (Ht & Hc & Hp & Hb & Hf).
  destruct (abnormal code) eqn:Hab.
  2:{ rewrite onclose_handler_normal by exact Hab. cbn [snd].
      exact (conj Ht (conj Hc (conj Hp (conj Hb Hf)))). }
  destruct (Nat.lt_ge_cases (reconnectAttempts (feed w)) maxReconnectAttempts)
    as [Hlt|Hge].
  - rewrite onclose_handler_retry by assumption. cbn [snd].
    unfold feed_inv. cbn [host feed].
    split; [apply timers_ok_schedule, Ht|].
    split; [exact Hc|].
    split; [apply periodic_ok_schedule; [exact Hp|discriminate]|].
    split.
    + intros Hn. destruct (Hb ltac:(lia)) as (Ha & Hfb & Hrb & H1 & H2 & H3 & H4).
      unfold before_fallback. cbn [feed reconnectAttempts fallbackIntervalId
        reconnectIntervalId set_reconnectAttempts].
      unfold started_intervals, pending_intervals in *. cbn.
      rewrite !count_if_app. rewrite H1, H2, H3, H4.
      repeat split; auto.
    + intros Hn.
      assert (Hn' : (11 <= n)%nat).
      { destruct (Nat.le_gt_cases 11 n) as [?|Hsmall]; [assumption|].
        destruct (Hb ltac:(lia)) as (Ha & _).
        unfold maxReconnectAttempts in Hlt. lia. }
      destruct (Hf Hn') as (Hfb & Hrb & H1 & H2 & H3 & H4).
      unfold in_fallback. cbn [feed fallbackIntervalId reconnectIntervalId
        set_reconnectAttempts].
      unfold started_intervals, pending_intervals in *. cbn.
      rewrite !count_if_app. rewrite H1, H2, H3, H4.
      repeat split; auto.
  - rewrite onclose_handler_exhausted by (assumption || lia). cbn [snd].
    destruct (Nat.le_gt_cases 11 n) as [Hbig|Hsmall].
    + destruct (Hf Hbig) as ([fb Hfb] & [rb Hrb] & H1 & H2 & H3 & H4).
      rewrite Hfb, Hrb. split; [exact Ht|]. split; [exact Hc|].
      split; [exact Hp|]. split; [lia|]. intros _.
      repeat split; eauto.
    + destruct (Hb ltac:(lia)) as (Ha & Hfb & Hrb & H1 & H2 & H3 & H4).
      assert (n = 10)%nat by (unfold maxReconnectAttempts in Hge; lia).
      subst n. rewrite Hfb, Hrb.
      unfold feed_inv. cbn [host feed].
      split; [apply timers_ok_schedule, timers_ok_schedule, Ht|].
      split; [exact Hc|].
      split; [apply periodic_ok_schedule;
              [apply periodic_ok_schedule; [exact Hp|discriminate]|reflexivity]|].
      split; [lia|]. intros _.
      unfold in_fallback. cbn [feed fallbackIntervalId reconnectIntervalId
        set_reconnectIntervalId set_fallbackIntervalId].
      rewrite !started_schedule, !pending_schedule.
      unfold started_intervals, pending_intervals in *. cbn.
      rewrite !count_if_app. rewrite H1, H2, H3, H4.
      repeat split; eauto.
Qed.

Lemma connectWebSocket_inv u n w :
  feed_inv n w -> feed_inv n (snd (connectWebSocket u w)).
Proof.
  intros (Ht & Hc & Hp & Hb & Hf).
  assert (Hrun : exists ss,
            closes_reconnect ss /\
            snd (connectWebSocket u w) =
              {| react := react w;
                 feed := set_websocket (Some (length ss)) (feed w);
                 host := with_sockets (ss ++ [{| url := u; onopen := feed_handler;
                                                 onmessage := feed_handler;
                                                 onerror := feed_handler;
                                                 onclose := feed_handler;
                                                 close_called := false |}])%list
                           (host w) |}).
  { unfold connectWebSocket, new_WebSocket, WebSocket_close, alter_socket,
      bind, gets, on_host, with_feed, modify, ret.
    cbv beta iota.
    destruct (websocket (feed w)) as [k|]; cbn.
    - eexists. split; [|reflexivity].
      apply Forall_alter; [exact Hc|]. intros s _ Hs. exact Hs.
    - eexists. split; [|reflexivity]. exact Hc. }
  destruct Hrun as (ss & Hss & ->).
  split; [exact Ht|].
  split; [apply Forall_app; split; [exact Hss|repeat constructor]|].
  split; [exact Hp|].
  split; [intros Hn; exact (Hb Hn)|intros Hn; exact (Hf Hn)].
Qed.

Lemma run_callback_inv cb n w :
  (cb = periodic_reconnect_cb -> (11 <= n)%nat) ->
  feed_inv n w -> feed_inv n (snd (run_callback cb w)).
Proof.
  intros Hcb Hi. destruct cb as [|v|]; cbn [run_callback].
  - eapply feed_inv_same; [apply fetchSandwichesFallback_feed|exact Hi].
  - apply connectWebSocket_inv, Hi.
  - specialize (Hcb eq_refl).
    unfold bind, with_feed, modify. cbv beta iota.
    apply connectWebSocket_inv.
    destruct Hi as (Ht & Hc & Hp & Hb & Hf).
    split; [exact Ht|]. split; [exact Hc|]. split; [exact Hp|].
    split; [lia|]. intros _. exact (Hf Hcb).
Qed.

Lemma count_if_zero_in {A} (f : A -> bool) l x :
  count_if f l = 0%nat -> In x l -> f x = false.
Proof.
  unfold count_if. induction l as [|y l IH]; intros H0 Hin; [destruct Hin|].
  cbn in H0. destruct (f y) eqn:Hy; [discriminate|].
  destruct Hin as [->|Hin]; auto.
Qed.

Lemma timer_fired_inv id n w :
  feed_inv n w -> feed_inv n (snd (deliver (timer_fired id) w)).
Proof.
  intros Hi. unfold deliver, bind, gets. cbv beta iota.
  destruct (find_timer id (timers (host w))) as [tm|] eqn:Hfind; [|exact Hi].
  apply find_timer_in in Hfind.
  pose proof Hi as (Ht & Hc & Hp & Hb & Hf).
  pose proof (Ht id tm Hfind) as Hsched.
  assert (Hper : action tm = periodic_reconnect_cb -> (11 <= n)%nat).
  { intros Ha. destruct (Nat.le_gt_cases 11 n) as [?|Hsmall]; [assumption|].
    exfalso. destruct (Hb ltac:(lia)) as (_ & _ & _ & _ & _ & _ & H0).
    unfold periodic_ok in Hp. rewrite List.Forall_forall in Hp.
    assert (Hin : In tm (scheduled (host w))).
    { apply list_elem_of_In. eapply list_elem_of_lookup_2, Hsched. }
    specialize (Hp tm Hin Ha).
    pose proof (count_if_zero_in _ _ (id, tm) H0 Hfind) as Hx.
    cbn in Hx. congruence. }
  destruct (repeating tm) eqn:Hrep.
  - unfold ret. cbv beta iota. apply run_callback_inv; assumption.
  - unfold on_host, timeout_done, modify. cbn [fst snd].
    apply run_callback_inv; [exact Hper|].
    assert (Hnot : forall cb ms t,
              In (id, t) (timers (host w)) -> is_interval cb ms t = false).
    { intros cb ms t Hin. pose proof (Ht id t Hin) as Hs'.
      rewrite Hsched in Hs'. injection Hs' as <-.
      unfold is_interval. rewrite Hrep. reflexivity. }
    split.
    { intros i t Hin. cbn in Hin. apply in_without_timer in Hin.
      cbn. apply Ht, Hin. }
    split; [exact Hc|]. split; [exact Hp|].
    unfold before_fallback, in_fallback, pending_intervals, started_intervals
      in *.
    cbn [host feed timers scheduled with_timers].
    rewrite !(count_if_without id (is_interval _ _)) by (apply Hnot).
    split; assumption.
Qed.

Lemma deliver_inv ev n w :
  feed_inv n w -> socket_known ev w = true ->
  never_opens [ev] = true -> stays_mounted [ev] = true ->
  feed_inv (if counts_as_close ev then S n else n) (snd (deliver ev w)).
Proof.
  intros Hi Hk Ho Hm.
  destruct ev as [k|k data|k|k code|id|r|]; cbn [counts_as_close];
    try discriminate.
  - unfold deliver, bind, gets. cbv beta iota.
    destruct (sockets (host w) !! k) as [[u ? [] ? ? ?]|]; try exact Hi.
    eapply feed_inv_same; [apply onmessage_handler_feed|exact Hi].
  - unfold deliver, bind, gets. cbv beta iota.
    destruct (sockets (host w) !! k) as [[u ? ? [] ? ?]|];
      first [exact Hi
            |eapply feed_inv_same; [apply onerror_handler_feed|exact Hi]].
  - unfold deliver, bind, gets. cbv beta iota.
    cbn in Hk. apply Nat.ltb_lt in Hk.
    destruct (lookup_lt_is_Some_2 _ _ Hk) as [s Hs]. rewrite Hs.
    pose proof Hi as (_ & Hc & _).
    unfold closes_reconnect in Hc. rewrite Forall_lookup in Hc.
    specialize (Hc k s Hs). destruct s as [u oo om oe oc cc]. cbn in Hc.
    subst oc. apply onclose_handler_inv, Hi.
  - apply timer_fired_inv, Hi.
  - eapply feed_inv_same; [apply fetchSandwichesFallback_resume_feed|exact Hi].
Qed.

Lemma abnormal_closes_cons ev evs :
  abnormal_closes (ev :: evs) =
  ((if counts_as_close ev then 1 else 0) + abnormal_closes evs)%nat.
Proof.
  unfold abnormal_closes, count_if. cbn [List.filter].
  destruct (counts_as_close ev); reflexivity.
Qed.

Lemma deliver_all_inv evs : forall n w,
  feed_inv n w -> deliverable evs w = true ->
  never_opens evs = true -> stays_mounted evs = true ->
  feed_inv (n + abnormal_closes evs) (deliver_all evs w).
Proof.
  induction evs as [|ev evs IH]; intros n w Hi Hd Ho Hm.
  - cbn. rewrite Nat.add_0_r. exact Hi.
  - cbn in Hd, Ho, Hm.
    apply andb_true_iff in Hd as [Hk Hd].
    apply andb_true_iff in Ho as [Ho1 Ho].
    apply andb_true_iff in Hm as [Hm1 Hm].
    rewrite abnormal_closes_cons. cbn [deliver_all].
    assert (Hstep := deliver_inv ev n w Hi Hk
                       ltac:(cbn; rewrite Ho1; reflexivity)
                       ltac:(cbn; rewrite Hm1; reflexivity)).
    specialize (IH _ _ Hstep Hd Ho Hm).
    destruct (counts_as_close ev);
      [replace (n + (1 + abnormal_closes evs))%nat
         with (S n + abnormal_closes evs)%nat by lia
      |replace (n + (0 + abnormal_closes evs))%nat
         with (n + abnormal_closes evs)%nat by lia];
      exact IH.
Qed.

Lemma mount_feed_inv st : feed_inv 0 (snd (mount st)).
Proof.
  destruct (mount_cases st)
    as (a & h & _ & _ & _ & _ & Hf & Hs & Hsc & Ht & _).
  unfold feed_inv, timers_ok, periodic_ok, before_fallback, in_fallback,
    started_intervals, pending_intervals.
  rewrite Hf, Hs, Hsc, Ht. cbn.
  split.
  { intros id t [Heq|[]]. injection Heq as <- <-. reflexivity. }
  split; [repeat constructor|].
  split; [repeat constructor; discriminate|].
  split; [intros _; repeat split; reflexivity|lia].
Qed.

(** C4 (amended): from the mounted component, over a run in which no socket
    opens, fallback mode is not entered while at most 10 abnormal closes
    have been counted, the counter being their number; from the 11th on,
    the 10 s poll and the 30 s reconnect have each been started exactly
    once and are pending once, whatever closes follow. *)
Theorem fallback_entered_on_eleventh_close (st : Storage) (evs : list event) :
  deliverable evs (snd (mount st)) = true ->
  never_opens evs = true -> stays_mounted evs = true ->
  ((abnormal_closes evs <= 10)%nat ->
   before_fallback (abnormal_closes evs) (deliver_all evs (snd (mount st)))) /\
  ((11 <= abnormal_closes evs)%nat ->
   in_fallback (deliver_all evs (snd (mount st)))).
Proof.
  intros Hd Ho Hm.
  destruct (deliver_all_inv evs 0 _ (mount_feed_inv st) Hd Ho Hm)
    as (_ & _ & _ & Hb & Hf).
  cbn [Nat.add] in Hb, Hf. split; assumption.
Qed.

(** ** The cleanup *)

Lemma in_without_timer_ne id id' t l :
  id' <> id -> In (id', t) l -> In (id', t) (without_timer id l).
Proof.
  intros Hne Hin. unfold without_timer. apply List.filter_In.
  split; [exact Hin|]. cbn. apply negb_true_iff, Pos.eqb_neq, Hne.
Qed.

(** Whenever the unmount comes, it cancels the timers whose ids the effect
    has stored and no other: a pending timer under another id, as every
    reconnect timeout is, stays pending. *)
Lemma cleanup_keeps_unrecorded_timers w id t :
  In (id, t) (timers (host w)) ->
  fallbackIntervalId (feed w) <> Some id ->
  reconnectIntervalId (feed w) <> Some id ->
  initialFallbackIntervalId (feed w) <> Some id ->
  In (id, t) (timers (host (snd (deliver unmount w)))).
Proof.
  intros Hin Hf Hr Hi.
  destruct w as [rc [ws n fb rb ib] hs]. cbn in Hin, Hf, Hr, Hi.
  unfold deliver, cleanup, clear_if_set, clearInterval, set_onclose,
    WebSocket_close, alter_socket, bind, gets, modify, on_host, ret.
  destruct ws as [k|], fb as [i1|], rb as [i2|], ib as [i3|]; cbn;
    repeat (apply in_without_timer_ne; [congruence|]); exact Hin.
Qed.

(** ** The live balance series *)

Lemma ascending_snoc {V} (l : list (point V)) (q : point V) :
  ascending l = true ->
  (forall p, last l = Some p -> time p < time q) ->
  ascending (l ++ [q]) = true.
Proof.
  induction l as [|p l IH]; intros Ha Hl; [reflexivity|].
  destruct l as [|p' l].
  - cbn. rewrite andb_true_r. apply Z.ltb_lt, Hl. reflexivity.
  - cbn [app ascending] in *. apply andb_true_iff in Ha as [Hp Ha].
    rewrite Hp. cbn [andb]. apply IH; [exact Ha|].
    intros r Hr. apply Hl. rewrite last_cons, Hr. reflexivity.
Qed.

Lemma balance_updater_ascending {V} t (v : V) l :
  ascending l = true -> ascending (balance_updater t v l) = true.
Proof.
  intros Ha. unfold balance_updater.
  destruct (last l) as [p|] eqn:Hl.
  - destruct (time p >=? t) eqn:Hge; [exact Ha|].
    apply ascending_snoc; [exact Ha|].
    intros p' Hp'. rewrite Hl in Hp'. injection Hp' as <-. cbn. lia.
  - apply ascending_snoc; [exact Ha|]. intros p' Hp'.
    rewrite Hl in Hp'. discriminate.
Qed.

(** C5: a live point whose timestamp is not above the last retained one
    leaves the series as it is; one above it, or any point on an empty
    series, is added at the end; so a series with strictly increasing
    timestamps keeps them strictly increasing under every run of live
    updates. *)
Theorem live_points_strictly_increase {V} (b : BalanceState V) :
  (forall t v p, last (balanceChartData b) = Some p -> t <= time p ->
     balance_updater t v (balanceChartData b) = balanceChartData b) /\
  (forall t v p, last (balanceChartData b) = Some p -> time p < t ->
     balance_updater t v (balanceChartData b) =
       (balanceChartData b ++ [{| time := t; balance := v |}])%list) /\
  (forall t v, balanceChartData b = [] ->
     balance_updater t v (balanceChartData b) = [{| time := t; balance := v |}]) /\
  (ascending (balanceChartData b) = true ->
   forall rs, ascending (balanceChartData (live_updates rs b)) = true).
Proof.
  repeat split.
  - intros t v p Hl Hle. unfold balance_updater. rewrite Hl.
    replace (time p >=? t) with true by (symmetry; apply Z.geb_le; lia).
    reflexivity.
  - intros t v p Hl Hlt. unfold balance_updater. rewrite Hl.
    replace (time p >=? t) with false; [reflexivity|].
    symmetry. rewrite Z.geb_leb. apply Z.leb_gt. lia.
  - intros t v ->. reflexivity.
  - intros Ha rs. revert b Ha.
    induction rs as [|r rs IH]; intros b Ha; [exact Ha|].
    cbn. apply IH.
    destruct r as [[m|[|[[t v]|] rest]|]|e]; try exact Ha.
    cbn. apply balance_updater_ascending, Ha.
Qed.

(** ** The profit-per-hour snapshot *)

(** C9: while the five queries of one call settle, readers keep seeing the
    snapshot from before; when the last one settles they see the new
    mapping, in which every label holds the value of its own query, or 0
    when that query failed or returned nothing. *)
Theorem profit_snapshot_replaced_at_once {V} (zero : V)
    (r1 r3 r6 r12 r24 : completion (QueryResult V)) (old : gmap string V) :
  let fresh : gmap string V :=
    <["24h" := profit_entry zero r24]>
      (<["12h" := profit_entry zero r12]>
         (<["6h" := profit_entry zero r6]>
            (<["3h" := profit_entry zero r3]>
               (<["1h" := profit_entry zero r1]> ∅)))) in
  fetchProfitPerHour_run zero [r1; r3; r6; r12; r24]
    fetchProfitPerHour_start old = [old; old; old; old; fresh] /\
  fresh !! "1h" = Some (profit_entry zero r1) /\
  fresh !! "3h" = Some (profit_entry zero r3) /\
  fresh !! "6h" = Some (profit_entry zero r6) /\
  fresh !! "12h" = Some (profit_entry zero r12) /\
  fresh !! "24h" = Some (profit_entry zero r24) /\
  (forall e, profit_entry zero (Thrown e) = zero) /\
  profit_entry zero (Normal (vector [])) = zero /\
  (forall rest, profit_entry zero (Normal (vector (None :: rest))) = zero) /\
  (forall m, profit_entry zero (Normal (matrix m)) = zero) /\
  profit_entry zero (Normal scalar) = zero /\
  (forall t v rest,
     profit_entry zero (Normal (vector (Some (t, v) :: rest))) = v).
Proof.
  intros fresh. subst fresh.
  split; [reflexivity|].
  repeat split; try reflexivity.
  all: repeat (rewrite lookup_insert_ne by discriminate);
    apply lookup_insert_eq.
Qed.

(** * More of the code *)

(** ** The write-through to localStorage *)

Lemma save_effect_written w :
  accessible (storage (host w)) && quota_left (storage (host w)) = true ->
  save_effect w =
    (Normal tt,
     {| react := react w; feed := feed w;
        host :=
          with_storage
            {| accessible := true;
               item := Some (JSON_stringify (JArr (firstn 50 (retained w))));
               quota_left := true;
               setItem_calls :=
                 (setItem_calls (storage (host w)) ++
                  [JSON_stringify (JArr (firstn 50 (retained w)))])%list |}
            (with_allocated (S (allocated (host w))) (host w)) |}).
Proof.
  intros Hok. unfold save_effect, localStorage_setItem, retained. run_stmt.
  rewrite Hok. reflexivity.
Qed.

Lemma save_effect_failed w :
  accessible (storage (host w)) && quota_left (storage (host w)) = false ->
  save_effect w =
    (Normal tt,
     logged Error_saving_sandwiches_to_localStorage
       {| react := react w; feed := feed w;
          host :=
            with_storage
              {| accessible := accessible (storage (host w));
                 item := item (storage (host w));
                 quota_left := quota_left (storage (host w));
                 setItem_calls :=
                   (setItem_calls (storage (host w)) ++
                    [JSON_stringify (JArr (firstn 50 (retained w)))])%list |}
              (with_allocated (S (allocated (host w))) (host w)) |}).
Proof.
  intros Hok. unfold save_effect, localStorage_setItem, retained, logged.
  run_stmt. rewrite Hok. reflexivity.
Qed.

Lemma updateSandwiches_cache r w :
  cache_mirrors JSON_stringify w ->
  cache_mirrors JSON_stringify (snd (updateSandwiches r w)).
Proof.
  intros (Hacc & Hq & Hitem & Hlen).
  unfold updateSandwiches. rewrite has_sandwich_total.
  unfold bind at 1, lift at 1. cbv beta iota.
  destruct (valid_record r).
  2:{ repeat split; assumption. }
  unfold setSandwiches.
  destruct (mounted (react w)).
  2:{ repeat split; assumption. }
  pose proof (updateSandwiches_updater_cases r (sandwiches (react w)) (host w)) as Hu.
  destruct (updateSandwiches_updater r (sandwiches (react w)) (host w))
    as [[next|e] h'].
  2:{ subst h'. repeat split; assumption. }
  destruct Hu as [[-> ->]|(_ & -> & ->)].
  - unfold Object_is. rewrite Nat.eqb_refl. repeat split; assumption.
  - destruct (Object_is _ _).
    + repeat split; assumption.
    + rewrite save_effect_written by (cbn; rewrite Hacc, Hq; reflexivity).
      unfold cache_mirrors, retained. cbn.
      rewrite take_take. cbn [Nat.min].
      repeat split; try reflexivity. rewrite length_take. lia.
Qed.

Lemma cache_same_refl w : cache_same w w.
Proof. split; reflexivity. Qed.

Lemma cache_same_trans a b c : cache_same a b -> cache_same b c -> cache_same a c.
Proof. unfold cache_same. intros (?&?) (?&?). split; congruence. Qed.

Lemma cache_same_on_host {A} (m : M Host A) :
  host_keeps storage_same m -> keeps cache_same (on_host m).
Proof.
  intros Hm w. unfold on_host. specialize (Hm (host w)).
  destruct (m (host w)) as [r h]. split; [reflexivity|exact Hm].
Qed.

Lemma cache_same_with_feed f : keeps cache_same (with_feed f).
Proof. intros w. split; reflexivity. Qed.

Lemma cache_same_unmounted : keeps cache_same
  (modify (fun w => {| react := {| sandwiches := sandwiches (react w);
                                   mounted := false;
                                   render_error := render_error (react w) |};
                       feed := feed w; host := host w |})).
Proof. intros w. split; reflexivity. Qed.

Ltac cache_frame :=
  unfold onopen_handler, onerror_handler, onclose_handler, run_callback,
    cleanup, connectWebSocket, clear_if_set, fetchSandwichesFallback;
  repeat first
    [ apply cache_same_unmounted
    | keeps_step cache_same_refl cache_same_trans
                 (@cache_same_on_host) cache_same_with_feed ].

(** An event either is one call of [updateSandwiches] or leaves the array
    of the state and the localStorage entry alone. *)
Lemma deliver_cache ev w :
  (exists r, deliver ev w = updateSandwiches r w) \/
  cache_same w (snd (deliver ev w)).
Proof.
  destruct ev as [n|n data|n|n code|id|r|]; unfold deliver;
    try (right; revert w; cache_frame; destruct cb; cache_frame; fail).
  - unfold bind, gets. cbv beta iota.
    destruct (sockets (host w) !! n) as [[u ? [] ? ? ?]|];
      try (right; apply cache_same_refl).
    unfold onmessage_handler, try_catch, bind, lift.
    destruct (JSON_parse data) as [v|e].
    + rewrite has_sandwich_total. destruct (valid_record v) eqn:Hv.
      * left. exists v.
        destruct (updateSandwiches_cases v w) as (w' & Hw & _).
        rewrite Hw. reflexivity.
      * right. split; reflexivity.
    + right. split; reflexivity.
  - unfold fetchSandwichesFallback_resume, try_catch, bind, lift.
    destruct r as [[m|[|[[t value]|] rest]|]|e];
      try (right; split; reflexivity).
    destruct (JSON_parse value) as [v|e].
    + left. exists v.
      destruct (updateSandwiches_cases v w) as (w' & Hw & _).
      rewrite Hw. reflexivity.
    + right. split; reflexivity.
Qed.

Lemma deliver_all_cache evs : forall w,
  cache_mirrors JSON_stringify w ->
  cache_mirrors JSON_stringify (deliver_all evs w).
Proof.
  induction evs as [|ev evs IH]; intros w H; [exact H|].
  cbn. apply IH.
  destruct (deliver_cache ev w) as [[r ->]|(Hs & Hst)].
  - apply updateSandwiches_cache, H.
  - destruct H as (Hacc & Hq & Hitem & Hlen).
    unfold cache_mirrors, retained in *. rewrite Hs, Hst.
    repeat split; assumption.
Qed.

Lemma getInitialSandwiches_parsed h s items :
  accessible (storage h) = true -> item (storage h) = Some s -> s <> "" ->
  JSON_parse s = Normal (JArr items) ->
  exists a h', getInitialSandwiches h = (Normal a, h') /\
               elems a = firstn 50 items.
Proof.
  intros Hacc Hitem Hs Hp.
  unfold getInitialSandwiches, getInitialSandwiches_try, localStorage_getItem.
  run_stmt. rewrite Hacc, Hitem. cbn.
  apply String.eqb_neq in Hs. rewrite Hs. cbn. rewrite Hp. cbn.
  eexists _, _. split; reflexivity.
Qed.

Lemma getInitialSandwiches_storage h :
  storage (snd (getInitialSandwiches h)) = storage h.
Proof.
  unfold getInitialSandwiches, getInitialSandwiches_try, localStorage_getItem.
  run_stmt.
  destruct (accessible (storage h)); cbn; [|reflexivity].
  destruct (item (storage h)) as [s|]; cbn; [|reflexivity].
  destruct (String.eqb s ""); cbn; [reflexivity|].
  destruct (JSON_parse s) as [[]|e]; reflexivity.
Qed.

Lemma mount_cache_mirrors st :
  accessible st = true -> quota_left st = true ->
  cache_mirrors JSON_stringify (snd (mount st)).
Proof.
  intros Hacc Hq.
  pose proof (getInitialSandwiches_storage (initial_host st)) as Hst.
  destruct (getInitialSandwiches_array (initial_host st))
    as (a & h & Hg & _ & _ & Hlen & _).
  rewrite Hg in Hst. cbn in Hst.
  remember (snd (mount st)) as W eqn:HW.
  unfold mount in HW. rewrite Hg in HW. unfold mount_effects, bind in HW.
  rewrite save_effect_written in HW
    by (cbn; rewrite Hst, Hacc, Hq; reflexivity).
  unfold connectWebSocket, setInterval, setTimer, new_WebSocket, bind, gets,
    on_host, with_feed, modify, ret in HW.
  cbn in HW. subst W. unfold cache_mirrors, retained. cbn.
  rewrite firstn_all2 by exact Hlen.
  repeat split; try reflexivity. exact Hlen.
Qed.

(** X7: with a writable localStorage, after the mount and after every run
    of events the stored entry is the text of the retained list. *)
Theorem cache_mirrors_retained (st : Storage) (evs : list event) :
  accessible st = true -> quota_left st = true ->
  item (storage (host (deliver_all evs (snd (mount st))))) =
    Some (JSON_stringify (JArr (retained (deliver_all evs (snd (mount st)))))).
Proof.
  intros Hacc Hq.
  destruct (deliver_all_cache evs _ (mount_cache_mirrors st Hacc Hq))
    as (_ & _ & Hitem & _).
  exact Hitem.
Qed.

(** X9: when the engine parses the text it wrote for the retained list back
    to that list, a component mounted on the localStorage a run has left
    behind starts with exactly the list retained at the end of the run. *)
Theorem remount_restores_retained (st : Storage) (evs : list event) :
  accessible st = true -> quota_left st = true ->
  JSON_stringify (JArr (retained (deliver_all evs (snd (mount st))))) <> "" ->
  JSON_parse (JSON_stringify (JArr (retained (deliver_all evs (snd (mount st))))))
    = Normal (JArr (retained (deliver_all evs (snd (mount st))))) ->
  retained (snd (mount (storage (host (deliver_all evs (snd (mount st)))))))
    = retained (deliver_all evs (snd (mount st))).
Proof.
  intros Hacc Hq Hne Hp.
  destruct (deliver_all_cache evs _ (mount_cache_mirrors st Hacc Hq))
    as (Hacc' & _ & Hitem & Hlen).
  destruct (mount_cases (storage (host (deliver_all evs (snd (mount st))))))
    as (a & h & Hg & -> & _).
  destruct (getInitialSandwiches_parsed
              (initial_host (storage (host (deliver_all evs (snd (mount st))))))
              _ _ Hacc' Hitem Hne Hp) as (a' & h' & Hg' & Ha').
  rewrite Hg in Hg'. injection Hg' as <- <-.
  rewrite Ha'. apply firstn_all2. exact Hlen.
Qed.

(** ** More on appending *)

Lemma strict_eq_trans a b c :
  strict_eq a b = true -> strict_eq b c = true -> strict_eq a c = true.
Proof.
  destruct a, b; cbn; try discriminate; destruct c; cbn; try discriminate;
    auto.
  - intros H1 H2. apply Bool.eqb_prop in H1, H2. subst. apply Bool.eqb_reflx.
  - intros H1 H2. apply Z.eqb_eq in H1, H2. subst. apply Z.eqb_refl.
  - intros H1 H2. apply String.eqb_eq in H1, H2. subst. apply String.eqb_refl.
Qed.

Lemma slot_taken_trans k k' l :
  strict_eq k k' = true -> slot_taken k l = true -> slot_taken k' l = true.
Proof.
  intros Hk. unfold slot_taken. rewrite !existsb_exists.
  intros (s & Hin & Hs). exists s. split; [exact Hin|].
  eapply strict_eq_trans; eassumption.
Qed.

(** X11: of two validated records whose slots are [===], the second to
    arrive changes nothing, whether or not the first was itself retained:
    the record seen first for a slot stays, a record without a slot counts as
    slot [undefined]. *)
Theorem second_record_of_a_slot_is_dropped (r1 r2 : jsval) (w : World) :
  store_ok w -> valid_record r1 = true -> valid_record r2 = true ->
  strict_eq (slot_key r1) (slot_key r2) = true ->
  updateSandwiches r2 (snd (updateSandwiches r1 w)) =
    (Normal tt, snd (updateSandwiches r1 w)).
Proof.
  intros Hok Hr1 Hr2 Heq.
  pose proof (updateSandwiches_store_ok r1 w Hok) as (_ & _ & Hw1 & _).
  destruct Hok as (Hm & Hh & Hw & Hd).
  apply updateSandwiches_duplicate; [exact Hr2|exact Hw1|].
  destruct (slot_taken (slot_key r1) (retained w)) eqn:Ht.
  - rewrite (updateSandwiches_duplicate r1 w Hr1 Hw Ht). cbn [snd].
    eapply slot_taken_trans; eassumption.
  - destruct (updateSandwiches_fresh r1 w Hm Hh Hr1 Hw Ht)
      as (w' & -> & Hl & _).
    cbn [snd]. rewrite Hl. cbn. rewrite Heq. reflexivity.
Qed.

Lemma deliver_all_prepends evs : forall w,
  (length (retained w) <= 50)%nat ->
  exists added,
    well_shaped added = true /\
    retained (deliver_all evs w) = firstn 50 (added ++ retained w).
Proof.
  induction evs as [|ev evs IH]; intros w Hlen.
  - exists []. split; [reflexivity|]. cbn. symmetry. apply firstn_all2, Hlen.
  - cbn [deliver_all].
    assert (Hstep : retained (snd (deliver ev w)) = retained w \/
                    exists r, valid_record r = true /\
                      retained (snd (deliver ev w)) = firstn 50 (r :: retained w)).
    { destruct (deliver_store ev w) as [[r ->]|(Hsame & _)].
      - destruct (updateSandwiches_cases r w)
          as (w' & -> & _ & _ & _ & _ & [Hsame|(_ & Hr & _ & Hl & _)]).
        + left. unfold retained. cbn [snd]. rewrite Hsame. reflexivity.
        + right. exists r. split; [exact Hr|exact Hl].
      - left. unfold retained. rewrite Hsame. reflexivity. }
    destruct Hstep as [Hsame|(r & Hr & Hl)].
    + destruct (IH (snd (deliver ev w))) as (added & Ha & Hres).
      { rewrite Hsame. exact Hlen. }
      exists added. rewrite Hres, Hsame. split; [exact Ha|reflexivity].
    + destruct (IH (snd (deliver ev w))) as (added & Ha & Hres).
      { rewrite Hl. apply length_firstn_50. }
      exists (added ++ [r])%list. split.
      * unfold well_shaped in *. rewrite forallb_app, Ha. cbn. rewrite Hr.
        reflexivity.
      * rewrite Hres, Hl, firstn_app_firstn, <- app_assoc. reflexivity.
Qed.

(** X13: whatever events arrive, the retained list is the first 50 of some
    validated records put in front of the list loaded at mount: the feed
    never reorders, replaces or drops a record except off the end. *)
Theorem retained_is_loaded_list_with_prepends (st : Storage) (evs : list event) :
  exists added,
    well_shaped added = true /\
    retained (deliver_all evs (snd (mount st))) =
      firstn 50 (added ++ retained (snd (mount st))).
Proof. apply deliver_all_prepends, mount_length. Qed.

(** ** The window of the balance chart *)

Lemma ascending_tail {V} (p : point V) l :
  ascending (p :: l) = true -> ascending l = true.
Proof.
  destruct l as [|q l]; [reflexivity|]. cbn [ascending].
  intros H. apply andb_true_iff in H as [_ H]. exact H.
Qed.

Lemma ascending_above_head {V} (p : point V) l :
  ascending (p :: l) = true -> Forall (fun q => time p < time q) l.
Proof.
  revert p. induction l as [|q l IH]; intros p H; [constructor|].
  cbn [ascending] in H. apply andb_true_iff in H as [Hpq H].
  apply Z.ltb_lt in Hpq. constructor; [exact Hpq|].
  specialize (IH q H). eapply Forall_impl; [exact IH|].
  cbn. intros x Hx. lia.
Qed.

Lemma ascending_skipn {V} k (l : list (point V)) :
  ascending l = true -> ascending (skipn k l) = true.
Proof.
  revert l. induction k as [|k IH]; intros l H; [exact H|].
  destruct l as [|p l]; [reflexivity|].
  cbn [skipn]. apply IH. eapply ascending_tail, H.
Qed.

Lemma filter_all {A} (f : A -> bool) l :
  Forall (fun x => f x = true) l -> List.filter f l = l.
Proof.
  induction 1 as [|x l Hx Hl IH]; [reflexivity|].
  cbn. rewrite Hx, IH. reflexivity.
Qed.

(** X14: on a series with increasing timestamps the 24 h window is a
    suffix of the series, so what the chart shows is again a series with
    increasing timestamps, with no point left out in the middle. *)
Theorem window_is_a_suffix {V} (now : Z) (data : list (point V)) :
  ascending data = true ->
  (exists k, filteredBalanceChartData now data = skipn k data) /\
  ascending (filteredBalanceChartData now data) = true.
Proof.
  intros Ha.
  assert (Hsuf : exists k, filteredBalanceChartData now data = skipn k data).
  { unfold filteredBalanceChartData. cbv zeta.
    induction data as [|p l IH].
    - exists 0%nat. reflexivity.
    - cbn [List.filter].
      destruct (time p >=? now - twentyFourHours) eqn:Hp.
      + exists 0%nat. cbn [skipn]. f_equal. apply filter_all.
        eapply Forall_impl; [apply ascending_above_head, Ha|].
        cbn. intros q Hq. rewrite Z.geb_leb in *. apply Z.leb_le.
        apply Z.leb_le in Hp. lia.
      + destruct (IH (ascending_tail _ _ Ha)) as [k Hk].
        exists (S k). exact Hk. }
  split; [exact Hsuf|].
  destruct Hsuf as [k ->]. apply ascending_skipn, Ha.
Qed.

(** X15: as the clock advances the window only loses points: filtering at
    a later time what was shown at an earlier time gives what filtering the
    stored series at the later time gives. *)
Theorem window_only_shrinks {V} (now later : Z) (data : list (point V)) :
  now <= later ->
  filteredBalanceChartData later (filteredBalanceChartData now data) =
    filteredBalanceChartData later data.
Proof.
  intros Hle. unfold filteredBalanceChartData. cbv zeta.
  induction data as [|p l IH]; [reflexivity|].
  cbn [List.filter].
  destruct (time p >=? now - twentyFourHours) eqn:Hp.
  - cbn [List.filter]. rewrite IH. reflexivity.
  - rewrite IH.
    replace (time p >=? later - twentyFourHours) with false; [reflexivity|].
    symmetry. rewrite Z.geb_leb in *. apply Z.leb_gt. apply Z.leb_gt in Hp. lia.
Qed.

(** ** History and live points together *)

Lemma balance_step_ascending {V} (ev : balance_event V) p :
  history_ascending ev = true ->
  ascending (balanceChartData (panel p)) = true ->
  ascending (balanceChartData (panel (balance_step ev p))) = true.
Proof.
  intros Hev Ha. destruct ev as [r|r]; cbn.
  - destruct r as [[[|series m]|v|]|e]; try reflexivity. exact Hev.
  - destruct r as [[m|[|[[t v]|] rest]|]|e]; try exact Ha.
    cbn. apply balance_updater_ascending, Ha.
Qed.

(** X16: in whatever order the range query of the mount and the instant
    queries of the live updates settle, the stored series has strictly
    increasing timestamps, provided the range results have. *)
Theorem balance_series_ascending_in_any_order {V}
    (evs : list (balance_event V)) (p : BalancePanel V) :
  ascending (balanceChartData (panel p)) = true ->
  forallb history_ascending evs = true ->
  ascending (balanceChartData (panel (balance_run evs p))) = true.
Proof.
  revert p. induction evs as [|ev evs IH]; intros p Ha Hevs; [exact Ha|].
  cbn in Hevs. apply andb_true_iff in Hevs as [Hev Hevs].
  cbn [balance_run]. apply IH; [|exact Hevs].
  apply balance_step_ascending; assumption.
Qed.

(** ** The timers of the live balance effect *)

Lemma live_fire_shape id e : live_shape e -> live_shape (live_fire id e).
Proof.
  intros [(Hi & Ht & Hs)|(Hi & Ht & Hs)]; unfold live_fire; rewrite Ht; cbn.
  - destruct (Pos.eqb timeoutId id) eqn:Hid; cbn.
    + right. rewrite Hs. cbn. repeat split.
    + left. repeat split; assumption.
  - destruct (Pos.eqb 2 id) eqn:Hid; cbn.
    + right. repeat split; assumption.
    + right. repeat split; assumption.
Qed.

Lemma live_run_shape ids : forall e, live_shape e -> live_shape (live_run ids e).
Proof.
  induction ids as [|id ids IH]; intros e H; [exact H|].
  cbn. apply IH, live_fire_shape, H.
Qed.

Lemma live_run_idle ids : forall e,
  live_timers e = [] -> live_run ids e = e.
Proof.
  induction ids as [|id ids IH]; intros e H; [reflexivity|].
  cbn. unfold live_fire. rewrite H. cbn. apply IH, H.
Qed.

(** X17: whenever the live balance effect is cleaned up, before its first
    fetch or after any number of them, no timer of the effect is left
    pending, and no timer event that follows issues another query. *)
Theorem live_cleanup_leaves_no_timer (ids later : list positive) :
  live_timers (live_cleanup (live_run ids live_start)) = [] /\
  live_run later (live_cleanup (live_run ids live_start)) =
    live_cleanup (live_run ids live_start).
Proof.
  assert (Hshape : live_shape (live_run ids live_start)).
  { apply live_run_shape. left. repeat split. }
  assert (Hnone : live_timers (live_cleanup (live_run ids live_start)) = []).
  { unfold live_cleanup.
    destruct Hshape as [(Hi & Ht & _)|(Hi & Ht & _)]; rewrite Hi, Ht;
      reflexivity. }
  split; [exact Hnone|]. apply live_run_idle, Hnone.
Qed.

(** ** One socket at a time *)

Lemma connectWebSocket_effect u w :
  connectWebSocket u w =
    (Normal tt,
     {| react := react w;
        feed := set_websocket (Some (length (sockets (host w)))) (feed w);
        host := with_sockets
                  (close_current (websocket (feed w)) (sockets (host w)) ++
                   [opened u])%list (host w) |}).
Proof.
  unfold connectWebSocket, new_WebSocket, WebSocket_close, alter_socket,
    bind, gets, on_host, with_feed, modify, ret.
  cbv beta iota.
  destruct (websocket (feed w)) as [k|]; cbn; [|reflexivity].
  rewrite length_alter. reflexivity.
Qed.

Lemma socket_same_refl w : socket_same w w.
Proof. split; reflexivity. Qed.

Lemma socket_same_trans a b c :
  socket_same a b -> socket_same b c -> socket_same a c.
Proof. unfold socket_same. intros (?&?) (?&?). split; congruence. Qed.

Lemma socket_same_on_host {A} (m : M Host A) :
  host_keeps sockets_same m -> keeps socket_same (on_host m).
Proof.
  intros Hm w. unfold on_host. specialize (Hm (host w)).
  destruct (m (host w)) as [r h]. split; [exact Hm|reflexivity].
Qed.

Lemma socket_same_with_feed f :
  (forall x, websocket (f x) = websocket x) -> keeps socket_same (with_feed f).
Proof. intros Hf w. split; [reflexivity|apply Hf]. Qed.

Lemma updateSandwiches_socket r : keeps socket_same (updateSandwiches r).
Proof.
  intros w.
  destruct (updateSandwiches_cases r w) as (w' & -> & Hf & (Hs&_) & _).
  split; [exact Hs|]. cbn. rewrite Hf. reflexivity.
Qed.

Ltac socket_frame :=
  unfold onopen_handler, onerror_handler, onclose_handler, onmessage_handler,
    fetchSandwichesFallback_resume, clear_if_set, fetchSandwichesFallback;
  repeat first
    [ apply updateSandwiches_socket
    | keeps_step socket_same_refl socket_same_trans
                 (@socket_same_on_host) socket_same_with_feed
    | (intros ?; reflexivity) ].

Lemma one_unclosed_same w w' :
  socket_same w w' -> one_unclosed_socket w -> one_unclosed_socket w'.
Proof.
  intros (Hs & Hw) H n s. rewrite Hs, Hw. apply H.
Qed.

Lemma connectWebSocket_unclosed u w :
  one_unclosed_socket w -> one_unclosed_socket (snd (connectWebSocket u w)).
Proof.
  intros H n s. rewrite connectWebSocket_effect. cbn.
  intros Hlook Hc.
  apply lookup_app_Some in Hlook as [Hold|(Hge & Hnew)].
  - exfalso. unfold close_current in Hold.
    destruct (websocket (feed w)) as [k|] eqn:Hws.
    + destruct (decide (n = k)) as [->|Hne].
      * rewrite list_lookup_alter_eq in Hold.
        destruct (sockets (host w) !! k); [|discriminate].
        injection Hold as <-. discriminate.
      * rewrite list_lookup_alter_ne in Hold by congruence.
        specialize (H n s Hold Hc). congruence.
    + specialize (H n s Hold Hc). congruence.
  - assert (Hlen : length (close_current (websocket (feed w)) (sockets (host w)))
                   = length (sockets (host w))).
    { unfold close_current. destruct (websocket (feed w));
        [apply length_alter|reflexivity]. }
    rewrite Hlen in *.
    destruct (n - length (sockets (host w)))%nat as [|m] eqn:Hm;
      [|destruct m; discriminate].
    f_equal. lia.
Qed.

Lemma unmount_effect w :
  snd (deliver unmount w) =
    {| react := {| sandwiches := sandwiches (react w); mounted := false;
                   render_error := render_error (react w) |};
       feed := feed w;
       host :=
         clear_stored (initialFallbackIntervalId (feed w))
           (clear_stored (reconnectIntervalId (feed w))
              (clear_stored (fallbackIntervalId (feed w))
                 (match websocket (feed w) with
                  | Some n =>
                      with_sockets
                        (alter closed n (alter silenced n (sockets (host w))))
                        (host w)
                  | None => host w
                  end))) |}.
Proof.
  destruct w as [rc [ws n fb rb ib] hs].
  unfold deliver, cleanup, clear_if_set, clearInterval, set_onclose,
    WebSocket_close, alter_socket, bind, gets, modify, on_host, ret.
  destruct ws as [k|], fb as [i1|], rb as [i2|], ib as [i3|]; reflexivity.
Qed.

Lemma sockets_clear_stored id h : sockets (clear_stored id h) = sockets h.
Proof. destruct id; reflexivity. Qed.

Lemma unmount_unclosed w :
  one_unclosed_socket w -> one_unclosed_socket (snd (deliver unmount w)).
Proof.
  intros H n s. rewrite unmount_effect. cbn.
  rewrite !sockets_clear_stored.
  destruct (websocket (feed w)) as [k|] eqn:Hws; cbn.
  - intros Hlook Hc.
    destruct (decide (n = k)) as [->|Hne]; [reflexivity|].
    rewrite !list_lookup_alter_ne in Hlook by congruence.
    specialize (H n s Hlook Hc). congruence.
  - intros Hlook Hc. specialize (H n s Hlook Hc). congruence.
Qed.

Lemma deliver_unclosed ev w :
  one_unclosed_socket w -> one_unclosed_socket (snd (deliver ev w)).
Proof.
  intros H.
  destruct ev as [n|n data|n|n code|id|r|];
    try (eapply one_unclosed_same; [|exact H];
         revert w H; unfold deliver; intros w _; revert w;
         socket_frame; fail).
  - unfold deliver, bind, gets. cbv beta iota.
    destruct (find_timer id (timers (host w))) as [tm|]; [|exact H].
    assert (H1 : one_unclosed_socket
                   (snd ((if repeating tm then ret tt
                          else on_host (timeout_done id)) w))).
    { destruct (repeating tm); exact H. }
    destruct (repeating tm); cbn [snd fst] in *;
      unfold ret, on_host, timeout_done, modify in *; cbn [snd fst] in *.
    + destruct (action tm) as [|v|]; cbn [run_callback].
      * exact H1.
      * apply connectWebSocket_unclosed, H1.
      * unfold bind, with_feed, modify. cbv beta iota.
        apply connectWebSocket_unclosed. exact H1.
    + destruct (action tm) as [|v|]; cbn [run_callback].
      * exact H1.
      * apply connectWebSocket_unclosed, H1.
      * unfold bind, with_feed, modify. cbv beta iota.
        apply connectWebSocket_unclosed. exact H1.
  - apply unmount_unclosed, H.
Qed.

(** X1: after the mount and after every run of events, the unmount and late
    timers included, every socket the component has constructed has had
    [close()] called on it, except at most the one in [websocket]. *)
Theorem at_most_one_unclosed_socket (st : Storage) (evs : list event) :
  forall n s,
    sockets (host (deliver_all evs (snd (mount st)))) !! n = Some s ->
    close_called s = false ->
    websocket (feed (deliver_all evs (snd (mount st)))) = Some n.
Proof.
  assert (H0 : one_unclosed_socket (snd (mount st))).
  { destruct (mount_cases st) as (a & h & _ & _ & _ & _ & Hf & Hs & _).
    intros n s. rewrite Hf, Hs. cbn.
    destruct n as [|n]; [reflexivity|]. cbn. discriminate. }
  revert H0. generalize (snd (mount st)).
  induction evs as [|ev evs IH]; intros w H; [exact H|].
  cbn [deliver_all]. apply IH, deliver_unclosed, H.
Qed.

(** X6: the close event of the socket that the cleanup has closed does
    nothing: of the socket in [websocket], [onclose] is the empty function
    from the unmount on, so that close schedules no reconnect. *)
Theorem close_after_cleanup_is_silent (w : World) (n : nat) (code : Z) :
  websocket (feed w) = Some n ->
  deliver (socket_close n code) (snd (deliver unmount w)) =
    (Normal tt, snd (deliver unmount w)).
Proof.
  intros Hws. rewrite unmount_effect, Hws.
  unfold deliver, bind, gets. cbn.
  rewrite !sockets_clear_stored. cbn.
  rewrite !list_lookup_alter_eq.
  destruct (sockets (host w) !! n) as [s|]; reflexivity.
Qed.

(** ** The intervals of fallback mode, across opens *)

Lemma count_if_without_le id (f : Timer -> bool) l :
  (count_if (fun p => f (snd p)) (without_timer id l) <=
   count_if (fun p => f (snd p)) l)%nat.
Proof.
  unfold count_if, without_timer.
  induction l as [|[i t] l IH]; [reflexivity|].
  cbn. destruct (Pos.eqb i id); cbn; destruct (f t); cbn; lia.
Qed.

Lemma count_if_without_lt id (f : Timer -> bool) l t :
  In (id, t) l -> f t = true ->
  (count_if (fun p => f (snd p)) (without_timer id l) <
   count_if (fun p => f (snd p)) l)%nat.
Proof.
  intros Hin Hf. induction l as [|[i t'] l IH]; [destruct Hin|].
  pose proof (count_if_without_le id f l) as Hle.
  unfold count_if, without_timer in *. cbn.
  destruct Hin as [Heq|Hin].
  - injection Heq as -> ->. rewrite Pos.eqb_refl, Hf. cbn. lia.
  - specialize (IH Hin).
    destruct (Pos.eqb i id); cbn; destruct (f t'); cbn; lia.
Qed.

Lemma count_if_none {A} (f : A -> bool) l :
  (forall x, In x l -> f x = false) -> count_if f l = 0%nat.
Proof.
  unfold count_if. induction l as [|x l IH]; intros H; [reflexivity|].
  cbn. rewrite (H x) by (left; reflexivity).
  apply IH. intros y Hy. apply H. right. exact Hy.
Qed.

Lemma not_in_without_timer id t l : ~ In (id, t) (without_timer id l).
Proof.
  unfold without_timer. intros H. apply List.filter_In in H as [_ H].
  cbn in H. rewrite Pos.eqb_refl in H. discriminate.
Qed.

Lemma without_timer_comm a b l :
  without_timer a (without_timer b l) = without_timer b (without_timer a l).
Proof.
  unfold without_timer. induction l as [|[i t] l IH]; [reflexivity|].
  cbn. destruct (Pos.eqb i a) eqn:Ha, (Pos.eqb i b) eqn:Hb; cbn;
    rewrite ?Ha, ?Hb; cbn; rewrite IH; reflexivity.
Qed.

Lemma tracked_app_other stored t l id' t' :
  interval_tracked stored t l ->
  is_interval (action t) (delay t) t' = false ->
  interval_tracked stored t (l ++ [(id', t')]).
Proof.
  unfold interval_tracked. intros H Hf.
  destruct stored as [id|]; rewrite count_if_app; unfold count_if at 2; cbn;
    rewrite Hf; cbn.
  - destruct H as [H Hin]. split; [lia|]. apply List.in_or_app. left. exact Hin.
  - lia.
Qed.

Lemma tracked_app_new t l id :
  interval_tracked None t l ->
  is_interval (action t) (delay t) t = true ->
  interval_tracked (Some id) t (l ++ [(id, t)]).
Proof.
  unfold interval_tracked. intros H Hf.
  rewrite count_if_app. unfold count_if at 2. cbn. rewrite Hf. cbn.
  split; [lia|]. apply List.in_or_app. right. left. reflexivity.
Qed.

Lemma tracked_without_other stored t l id :
  interval_tracked stored t l ->
  (forall t', In (id, t') l -> is_interval (action t) (delay t) t' = false) ->
  is_interval (action t) (delay t) t = true ->
  interval_tracked stored t (without_timer id l).
Proof.
  unfold interval_tracked. intros H Hnot Ht.
  rewrite (count_if_without id (is_interval (action t) (delay t)) l Hnot).
  destruct stored as [id0|]; [|exact H].
  destruct H as [H Hin]. split; [exact H|].
  apply in_without_timer_ne; [|exact Hin].
  intros ->. rewrite (Hnot t Hin) in Ht. discriminate.
Qed.

Lemma tracked_clear stored t l id :
  interval_tracked stored t l ->
  (stored = None \/ stored = Some id) ->
  is_interval (action t) (delay t) t = true ->
  interval_tracked None t (without_timer id l).
Proof.
  unfold interval_tracked. intros H Hs Ht.
  pose proof (count_if_without_le id (is_interval (action t) (delay t)) l) as Hle.
  destruct Hs as [->| ->].
  - lia.
  - destruct H as [H Hin].
    pose proof (count_if_without_lt id _ l t Hin Ht). lia.
Qed.

Lemma tracked_none_without t l id :
  interval_tracked None t l -> interval_tracked None t (without_timer id l).
Proof.
  unfold interval_tracked. intros H.
  pose proof (count_if_without_le id (is_interval (action t) (delay t)) l). lia.
Qed.

Lemma timers_ok_without id h :
  timers_ok h -> timers_ok (with_timers (without_timer id (timers h)) h).
Proof.
  intros H i t Hin. cbn in *. apply H. eapply in_without_timer, Hin.
Qed.

Lemma timers_ok_same_timer h id t t' :
  timers_ok h -> In (id, t) (timers h) -> In (id, t') (timers h) -> t' = t.
Proof.
  intros H H1 H2. pose proof (H _ _ H1). pose proof (H _ _ H2). congruence.
Qed.

Lemma onopen_handler_effect w :
  onopen_handler w =
    (Normal tt,
     {| react := react w;
        feed := set_reconnectIntervalId None
                  (set_fallbackIntervalId None
                     (set_reconnectAttempts 0 (feed w)));
        host := clear_stored (reconnectIntervalId (feed w))
                  (clear_stored (fallbackIntervalId (feed w)) (host w)) |}).
Proof.
  destruct w as [rc [ws n fb rb ib] hs].
  unfold onopen_handler, clear_if_set, clearInterval, bind, gets, modify,
    on_host, with_feed, ret.
  destruct fb as [i1|], rb as [i2|]; reflexivity.
Qed.

Lemma feed_ok_same w w' : feed_same w w' -> feed_ok w -> feed_ok w'.
Proof.
  intros (Hf & Hs & Hsc & Ht). unfold feed_ok, timers_ok.
  rewrite Hf, Hs, Hsc, Ht. tauto.
Qed.

Lemma stored_interval_not_backup w id t :
  timers_ok (host w) -> In (1%positive, backup_poll) (timers (host w)) ->
  In (id, t) (timers (host w)) -> t <> backup_poll -> id <> 1%positive.
Proof.
  intros Ht Hb Hin Hne ->. apply Hne.
  eapply timers_ok_same_timer; eassumption.
Qed.

Lemma in_timers_clear_stored o h p :
  In p (timers (clear_stored o h)) -> In p (timers h).
Proof. destruct o; cbn; [apply in_without_timer|auto]. Qed.

Lemma not_in_timers_clear_stored id t h :
  ~ In (id, t) (timers (clear_stored (Some id) h)).
Proof. cbn. apply not_in_without_timer. Qed.

Lemma scheduled_clear_stored o h : scheduled (clear_stored o h) = scheduled h.
Proof. destruct o; reflexivity. Qed.

Lemma timers_ok_clear_stored o h : timers_ok h -> timers_ok (clear_stored o h).
Proof.
  intros H id t Hin. rewrite scheduled_clear_stored.
  apply H. eapply in_timers_clear_stored, Hin.
Qed.

Lemma in_clear_stored_other o h id t :
  o <> Some id -> In (id, t) (timers h) -> In (id, t) (timers (clear_stored o h)).
Proof.
  destruct o as [i|]; cbn; [|auto].
  intros Hne Hin. apply in_without_timer_ne; [congruence|exact Hin].
Qed.

Lemma tracked_none_clear_stored o t h :
  interval_tracked None t (timers h) ->
  interval_tracked None t (timers (clear_stored o h)).
Proof. destruct o; cbn; [apply tracked_none_without|auto]. Qed.

Lemma tracked_clear_stored o t h :
  interval_tracked o t (timers h) ->
  is_interval (action t) (delay t) t = true ->
  interval_tracked None t (timers (clear_stored o h)).
Proof.
  intros H Ht. destruct o as [id|]; cbn; [|exact H].
  eapply tracked_clear; [exact H|right; reflexivity|exact Ht].
Qed.

Lemma onopen_handler_feed_ok w :
  feed_ok w -> feed_ok (snd (onopen_handler w)).
Proof.
  intros (Ht & Ho & Hi & Hb & Hf & Hp & Hs).
  rewrite onopen_handler_effect. cbn [snd].
  unfold feed_ok.
  cbn [host feed initialFallbackIntervalId fallbackIntervalId
       reconnectIntervalId set_reconnectIntervalId set_fallbackIntervalId
       set_reconnectAttempts].
  assert (Hfb : fallbackIntervalId (feed w) <> Some 1%positive).
  { destruct (fallbackIntervalId (feed w)) as [id|]; [|discriminate].
    destruct Hf as [_ Hin]. intros Heq. injection Heq as ->.
    eapply (stored_interval_not_backup w 1 fallback_poll); eauto; discriminate. }
  assert (Hrb : reconnectIntervalId (feed w) <> Some 1%positive).
  { destruct (reconnectIntervalId (feed w)) as [id|]; [|discriminate].
    destruct Hp as [_ Hin]. intros Heq. injection Heq as ->.
    eapply (stored_interval_not_backup w 1 periodic_reconnect); eauto;
      discriminate. }
  split; [apply timers_ok_clear_stored, timers_ok_clear_stored, Ht|].
  split; [rewrite !sockets_clear_stored; exact Ho|].
  split; [exact Hi|].
  split; [apply in_clear_stored_other; [exact Hrb|];
          apply in_clear_stored_other; [exact Hfb|exact Hb]|].
  split.
  { apply tracked_none_clear_stored, tracked_clear_stored; [exact Hf|reflexivity]. }
  split.
  { destruct (fallbackIntervalId (feed w)) as [i1|] eqn:E1;
      [|cbn [clear_stored]; apply tracked_clear_stored; [exact Hp|reflexivity]].
    destruct (reconnectIntervalId (feed w)) as [i2|] eqn:E2.
    - unfold clear_stored. cbn [timers with_timers].
      rewrite without_timer_comm. apply tracked_none_without.
      eapply tracked_clear; [exact Hp|right; reflexivity|reflexivity].
    - apply tracked_none_clear_stored, tracked_none_clear_stored. exact Hp. }
  intros id t Hin Hrep. left.
  assert (Hin0 : In (id, t) (timers (host w))).
  { eapply in_timers_clear_stored, in_timers_clear_stored, Hin. }
  destruct (Hs id t Hin0 Hrep) as [H1|[H2|H3]]; [exact H1| |].
  - exfalso. rewrite H2 in Hin.
    apply in_timers_clear_stored in Hin.
    eapply not_in_timers_clear_stored, Hin.
  - exfalso. rewrite H3 in Hin.
    eapply not_in_timers_clear_stored, Hin.
Qed.

Lemma schedule_feed_ok rc fd fd' t h :
  feed_ok {| react := rc; feed := fd; host := h |} ->
  repeating t = false ->
  initialFallbackIntervalId fd' = initialFallbackIntervalId fd ->
  fallbackIntervalId fd' = fallbackIntervalId fd ->
  reconnectIntervalId fd' = reconnectIntervalId fd ->
  feed_ok {| react := rc; feed := fd'; host := schedule t h |}.
Proof.
  intros (Ht & Ho & Hi & Hb & Hf & Hp & Hs) Hrep E0 E1 E2.
  unfold feed_ok. cbn [host feed] in *. rewrite E0, E1, E2.
  assert (Hnot : forall cb ms, is_interval cb ms t = false).
  { intros cb ms. unfold is_interval. rewrite Hrep. reflexivity. }
  split; [apply timers_ok_schedule, Ht|].
  split; [exact Ho|]. split; [exact Hi|].
  unfold schedule. cbn [timers with_timers with_scheduled].
  split; [apply List.in_or_app; left; exact Hb|].
  split; [apply tracked_app_other; [exact Hf|apply Hnot]|].
  split; [apply tracked_app_other; [exact Hp|apply Hnot]|].
  intros id t' Hin Hr. apply List.in_app_or in Hin as [Hin|[Heq|[]]].
  - apply (Hs id t' Hin Hr).
  - injection Heq as <- <-. congruence.
Qed.

Lemma onclose_handler_feed_ok u code w :
  feed_ok w -> feed_ok (snd (onclose_handler u code w)).
Proof.
  intros Hok.
  destruct (abnormal code) eqn:Hab.
  2:{ rewrite onclose_handler_normal by exact Hab. exact Hok. }
  destruct (Nat.lt_ge_cases (reconnectAttempts (feed w)) maxReconnectAttempts)
    as [Hlt|Hge].
  - rewrite onclose_handler_retry by assumption. cbn [snd].
    eapply feed_ok_same
      with (w := {| react := react w;
                    feed := set_reconnectAttempts
                              (S (reconnectAttempts (feed w))) (feed w);
                    host := schedule (reconnect_timer u) (host w) |});
      [repeat split|].
    apply schedule_feed_ok with (fd := feed w); try reflexivity.
    destruct w; exact Hok.
  - rewrite onclose_handler_exhausted by (assumption || lia). cbn [snd].
    destruct (fallbackIntervalId (feed w)) as [i1|] eqn:E1,
             (reconnectIntervalId (feed w)) as [i2|] eqn:E2;
      [exact Hok|..];
      destruct Hok as (Ht & Ho & Hi & Hb & Hf & Hp & Hs);
      rewrite E1 in Hf, Hs; rewrite E2 in Hp, Hs.
    + unfold feed_ok.
      cbn [host feed initialFallbackIntervalId fallbackIntervalId
           reconnectIntervalId set_reconnectIntervalId].
      rewrite E1.
      split; [apply timers_ok_schedule, Ht|].
      split; [exact Ho|]. split; [exact Hi|].
      unfold schedule. cbn [timers with_timers with_scheduled].
      split; [apply List.in_or_app; left; exact Hb|].
      split; [apply tracked_app_other; [exact Hf|reflexivity]|].
      split; [apply tracked_app_new; [exact Hp|reflexivity]|].
      intros id t' Hin Hr. apply List.in_app_or in Hin as [Hin|[Heq|[]]].
      * destruct (Hs id t' Hin Hr) as [?|[?|?]]; auto. discriminate.
      * injection Heq as <- <-. auto.
    + unfold feed_ok.
      cbn [host feed initialFallbackIntervalId fallbackIntervalId
           reconnectIntervalId set_fallbackIntervalId].
      rewrite E2.
      split; [apply timers_ok_schedule, Ht|].
      split; [exact Ho|]. split; [exact Hi|].
      unfold schedule. cbn [timers with_timers with_scheduled].
      split; [apply List.in_or_app; left; exact Hb|].
      split; [apply tracked_app_new; [exact Hf|reflexivity]|].
      split; [apply tracked_app_other; [exact Hp|reflexivity]|].
      intros id t' Hin Hr. apply List.in_app_or in Hin as [Hin|[Heq|[]]].
      * destruct (Hs id t' Hin Hr) as [?|[?|?]]; auto. discriminate.
      * injection Heq as <- <-. auto.
    + unfold feed_ok.
      cbn [host feed initialFallbackIntervalId fallbackIntervalId
           reconnectIntervalId set_fallbackIntervalId set_reconnectIntervalId].
      split; [apply timers_ok_schedule, timers_ok_schedule, Ht|].
      split; [exact Ho|]. split; [exact Hi|].
      unfold schedule. cbn [timers scheduled with_timers with_scheduled].
      split; [apply List.in_or_app; left; apply List.in_or_app; left; exact Hb|].
      split; [apply tracked_app_other; [|reflexivity];
              apply tracked_app_new; [exact Hf|reflexivity]|].
      split.
      { rewrite length_app. cbn [length]. rewrite Nat.add_1_r.
        apply tracked_app_new; [|reflexivity].
        apply tracked_app_other; [exact Hp|reflexivity]. }
      intros id t' Hin Hr.
      apply List.in_app_or in Hin as [Hin|[Heq|[]]].
      * apply List.in_app_or in Hin as [Hin|[Heq|[]]].
        -- destruct (Hs id t' Hin Hr) as [?|[?|?]]; auto; discriminate.
        -- injection Heq as <- <-. auto.
      * injection Heq as <- <-. right. right.
        rewrite length_app. cbn [length]. rewrite Nat.add_1_r. reflexivity.
Qed.

Lemma connectWebSocket_feed_ok u w :
  feed_ok w -> feed_ok (snd (connectWebSocket u w)).
Proof.
  intros (Ht & Ho & Hi & Hb & Hf & Hp & Hs).
  rewrite connectWebSocket_effect. cbn [snd].
  unfold feed_ok. cbn. repeat split; try assumption.
  apply Forall_app. split; [|repeat constructor].
  unfold close_current. destruct (websocket (feed w));
    [apply Forall_alter; [exact Ho|intros s _ H; exact H]|exact Ho].
Qed.

Lemma run_callback_feed_ok cb w :
  feed_ok w -> feed_ok (snd (run_callback cb w)).
Proof.
  intros Hok. destruct cb as [|v|]; cbn [run_callback].
  - eapply feed_ok_same; [apply fetchSandwichesFallback_feed|exact Hok].
  - apply connectWebSocket_feed_ok, Hok.
  - unfold bind, with_feed, modify. cbv beta iota.
    apply connectWebSocket_feed_ok.
    destruct Hok as (Ht & Ho & Hi & Hb & Hf & Hp & Hs).
    repeat split; assumption.
Qed.

Lemma timer_fired_feed_ok id w :
  feed_ok w -> feed_ok (snd (deliver (timer_fired id) w)).
Proof.
  intros Hok. unfold deliver, bind, gets. cbv beta iota.
  destruct (find_timer id (timers (host w))) as [tm|] eqn:Hfind; [|exact Hok].
  apply find_timer_in in Hfind.
  destruct (repeating tm) eqn:Hrep.
  - unfold ret. cbv beta iota. apply run_callback_feed_ok, Hok.
  - unfold on_host, timeout_done, modify. cbn [fst snd].
    apply run_callback_feed_ok.
    destruct Hok as (Ht & Ho & Hi & Hb & Hf & Hp & Hs).
    assert (Hnot : forall cb ms t,
              In (id, t) (timers (host w)) -> is_interval cb ms t = false).
    { intros cb ms t Hin.
      rewrite (timers_ok_same_timer _ _ _ _ Ht Hfind Hin).
      unfold is_interval. rewrite Hrep. reflexivity. }
    unfold feed_ok. cbn [host feed timers sockets with_timers].
    split; [apply timers_ok_without, Ht|].
    split; [exact Ho|]. split; [exact Hi|].
    split.
    { apply in_without_timer_ne; [|exact Hb]. intros <-.
      rewrite <- (timers_ok_same_timer _ _ _ _ Ht Hfind Hb) in Hrep.
      discriminate. }
    split; [apply tracked_without_other; [exact Hf|apply Hnot|reflexivity]|].
    split; [apply tracked_without_other; [exact Hp|apply Hnot|reflexivity]|].
    intros i t Hin Hr. apply (Hs i t); [|exact Hr].
    eapply in_without_timer, Hin.
Qed.

Lemma deliver_feed_ok ev w :
  stays_mounted [ev] = true -> feed_ok w -> feed_ok (snd (deliver ev w)).
Proof.
  intros Hm Hok.
  destruct ev as [k|k data|k|k code|id|r|]; try discriminate.
  - unfold deliver, bind, gets. cbv beta iota.
    destruct (sockets (host w) !! k) as [[u [] ? ? ? ?]|]; try exact Hok.
    apply onopen_handler_feed_ok, Hok.
  - unfold deliver, bind, gets. cbv beta iota.
    destruct (sockets (host w) !! k) as [[u ? [] ? ? ?]|]; try exact Hok.
    eapply feed_ok_same; [apply onmessage_handler_feed|exact Hok].
  - unfold deliver, bind, gets. cbv beta iota.
    destruct (sockets (host w) !! k) as [[u ? ? [] ? ?]|];
      first [exact Hok
            |eapply feed_ok_same; [apply onerror_handler_feed|exact Hok]].
  - unfold deliver, bind, gets. cbv beta iota.
    destruct (sockets (host w) !! k) as [[u ? ? ? [] ?]|]; try exact Hok.
    apply onclose_handler_feed_ok, Hok.
  - apply timer_fired_feed_ok, Hok.
  - eapply feed_ok_same; [apply fetchSandwichesFallback_resume_feed|exact Hok].
Qed.

Lemma deliver_all_feed_ok evs : forall w,
  stays_mounted evs = true -> feed_ok w -> feed_ok (deliver_all evs w).
Proof.
  induction evs as [|ev evs IH]; intros w Hm Hok; [exact Hok|].
  cbn in Hm. apply andb_true_iff in Hm as [Hm1 Hm].
  cbn [deliver_all]. apply IH; [exact Hm|].
  apply deliver_feed_ok; [cbn; rewrite Hm1; reflexivity|exact Hok].
Qed.

Lemma mount_feed_ok st : feed_ok (snd (mount st)).
Proof.
  destruct (mount_cases st)
    as (a & h & _ & _ & _ & _ & Hf & Hs & Hsc & Ht & _).
  unfold feed_ok, timers_ok, interval_tracked.
  rewrite Hf, Hs, Hsc, Ht. cbn.
  split.
  { intros id t [Heq|[]]. injection Heq as <- <-. reflexivity. }
  split; [repeat constructor|].
  repeat split; auto.
  intros id t [Heq|[]] _. injection Heq as <- <-. left. reflexivity.
Qed.

Lemma reachable_feed_ok st evs :
  stays_mounted evs = true -> feed_ok (deliver_all evs (snd (mount st))).
Proof. intros Hm. apply deliver_all_feed_ok; [exact Hm|apply mount_feed_ok]. Qed.

Lemma tracked_pending stored t l :
  interval_tracked stored t l ->
  count_if (fun p => is_interval (action t) (delay t) (snd p)) l =
    match stored with Some _ => 1%nat | None => 0%nat end.
Proof. destruct stored; cbn; [intros [H _]; exact H|auto]. Qed.

(** X2: while the component stays mounted, the two intervals of fallback
    mode never pile up, whatever the sockets, timers and queries do: the
    10 s poll is pending once when [fallbackIntervalId] holds an id and not
    at all when it is null, and so is the 30 s periodic reconnect with
    [reconnectIntervalId]. *)
Theorem fallback_intervals_never_pile_up (st : Storage) (evs : list event) :
  stays_mounted evs = true ->
  pending_intervals fetchSandwichesFallback_cb 10000
      (deliver_all evs (snd (mount st))) =
    match fallbackIntervalId (feed (deliver_all evs (snd (mount st)))) with
    | Some _ => 1%nat
    | None => 0%nat
    end /\
  pending_intervals periodic_reconnect_cb 30000
      (deliver_all evs (snd (mount st))) =
    match reconnectIntervalId (feed (deliver_all evs (snd (mount st)))) with
    | Some _ => 1%nat
    | None => 0%nat
    end.
Proof.
  intros Hm.
  destruct (reachable_feed_ok st evs Hm) as (_ & _ & _ & _ & Hf & Hp & _).
  split.
  - exact (tracked_pending _ _ _ Hf).
  - exact (tracked_pending _ _ _ Hp).
Qed.

(** X3: when a socket of the feed opens while the component is mounted, the
    feed leaves fallback mode altogether: the attempt counter is 0, both
    interval ids are null, neither the 10 s poll nor the 30 s periodic
    reconnect is pending any more, and the 30 s backup poll started at mount
    is still pending. *)
Theorem open_leaves_fallback_mode (st : Storage) (evs : list event)
    (n : nat) (s : Socket) :
  stays_mounted evs = true ->
  sockets (host (deliver_all evs (snd (mount st)))) !! n = Some s ->
  exists w',
    deliver (socket_open n) (deliver_all evs (snd (mount st))) = (Normal tt, w') /\
    reconnectAttempts (feed w') = 0%nat /\
    fallbackIntervalId (feed w') = None /\
    reconnectIntervalId (feed w') = None /\
    pending_intervals fetchSandwichesFallback_cb 10000 w' = 0%nat /\
    pending_intervals periodic_reconnect_cb 30000 w' = 0%nat /\
    In (1%positive, backup_poll) (timers (host w')).
Proof.
  intros Hm Hs.
  pose proof (reachable_feed_ok st evs Hm) as Hok.
  remember (deliver_all evs (snd (mount st))) as w eqn:Hw. clear Hw.
  pose proof (onopen_handler_feed_ok w Hok) as Hok'.
  assert (Ho : onopen s = feed_handler).
  { destruct Hok as (_ & Ho & _).
    rewrite Forall_forall in Ho. apply Ho.
    eapply list_elem_of_lookup_2, Hs. }
  assert (Hd : deliver (socket_open n) w = onopen_handler w).
  { unfold deliver, bind, gets. cbv beta iota. rewrite Hs.
    destruct s as [u o ? ? ? ?]. cbn in Ho. subst o. reflexivity. }
  rewrite Hd. rewrite onopen_handler_effect in *. cbn [snd] in Hok'.
  eexists. split; [reflexivity|].
  destruct Hok' as (_ & _ & _ & Hb & Hf & Hp & _).
  cbn [feed host reconnectAttempts fallbackIntervalId reconnectIntervalId
       set_reconnectIntervalId set_fallbackIntervalId set_reconnectAttempts]
    in *.
  repeat split; try reflexivity.
  - exact Hf.
  - exact Hp.
  - exact Hb.
Qed.

(** X4: the 30 s backup poll that the effect starts after its first
    connection stays pending as long as the component is mounted: no
    handler of the feed clears it, under the id the effect stored for it. *)
Theorem backup_poll_stays_pending (st : Storage) (evs : list event) :
  stays_mounted evs = true ->
  initialFallbackIntervalId (feed (deliver_all evs (snd (mount st)))) =
    Some 1%positive /\
  In (1%positive, backup_poll)
     (timers (host (deliver_all evs (snd (mount st))))).
Proof.
  intros Hm.
  destruct (reachable_feed_ok st evs Hm) as (_ & _ & Hi & Hb & _).
  split; assumption.
Qed.

(** X5: the cleanup of the effect cancels every interval: right after the
    unmount of a component that was mounted until then, no repeating timer
    of the feed is pending. *)
Theorem cleanup_cancels_every_interval (st : Storage) (evs : list event)
    (id : positive) (t : Timer) :
  stays_mounted evs = true ->
  In (id, t)
     (timers (host (snd (deliver unmount (deliver_all evs (snd (mount st))))))) ->
  repeating t = false.
Proof.
  intros Hm Hin.
  pose proof (reachable_feed_ok st evs Hm) as Hok.
  remember (deliver_all evs (snd (mount st))) as w eqn:Hw. clear Hw.
  rewrite unmount_effect in Hin. cbn [host] in Hin.
  destruct Hok as (_ & _ & Hi & _ & _ & _ & Hs).
  destruct (repeating t) eqn:Hr; [exfalso|reflexivity].
  assert (Hw : In (id, t) (timers (host w))).
  { do 3 apply in_timers_clear_stored in Hin.
    destruct (websocket (feed w)); exact Hin. }
  destruct (Hs id t Hw Hr) as [->|[E|E]].
  - rewrite Hi in Hin. exact (not_in_timers_clear_stored _ _ _ Hin).
  - rewrite E in Hin. do 2 apply in_timers_clear_stored in Hin.
    exact (not_in_timers_clear_stored _ _ _ Hin).
  - rewrite E in Hin. apply in_timers_clear_stored in Hin.
    exact (not_in_timers_clear_stored _ _ _ Hin).
Qed.

(** * The component as React renders it *)

Context {numbers : Numbers}.

(** ** The rows *)

Lemma render_cons s l :
  render (s :: l) = Normal tt <-> row_renders s = true /\ render l = Normal tt.
Proof.
  unfold render, row_renders. cbn [rows].
  destruct (row s) as [c|e]; cbn; [|split; [discriminate|intros [? _]; discriminate]].
  destruct (rows l) as [cs|e]; cbn;
    [|split; [discriminate|intros [_ ?]; discriminate]].
  destruct (valid_child c.1 && valid_child c.2); cbn.
  - destruct (forallb _ cs); split; auto; intros [_ ?]; discriminate.
  - split; [discriminate|intros [? _]; discriminate].
Qed.

Lemma render_rows l : render l = Normal tt <-> forallb row_renders l = true.
Proof.
  induction l as [|s l IH]; [split; reflexivity|].
  rewrite render_cons, IH. cbn. rewrite andb_true_iff. reflexivity.
Qed.

Lemma render_firstn n l : render l = Normal tt -> render (firstn n l) = Normal tt.
Proof.
  rewrite !render_rows. revert n.
  induction l as [|s l IH]; intros [|n] H; try reflexivity.
  cbn in *. apply andb_true_iff in H as [-> H]. cbn. apply IH, H.
Qed.

Lemma render_in l s : render l = Normal tt -> In s l -> row_renders s = true.
Proof.
  rewrite render_rows, forallb_forall. auto.
Qed.

(** A row that renders has read the slot of its record. *)
Lemma row_renders_slot s : row_renders s = true -> slot_of s = Normal (slot_key s).
Proof.
  unfold row_renders, row, slot_key.
  destruct (slot_of s) as [k|e]; cbn; [reflexivity|discriminate].
Qed.

Lemma render_readable l : render l = Normal tt -> slots_readable l = true.
Proof.
  rewrite render_rows. unfold slots_readable.
  induction l as [|s l IH]; [reflexivity|]. cbn.
  intros H. apply andb_true_iff in H as [Hs H].
  rewrite (row_renders_slot s Hs). cbn. apply IH, H.
Qed.

(** The row of a record with the fields of [SandwichData] renders. *)
Lemma SandwichData_renders r : SandwichData r = true -> row_renders r = true.
Proof.
  unfold SandwichData, row_renders, row, slot_of.
  destruct r as [| | | | | |fields]; try discriminate.
  cbn [get_prop cbind].
  destruct (lookup_field "data" fields) as [| | | | | |data]; try discriminate.
  cbn [get_prop cbind].
  destruct (lookup_field "sandwich" data) as [| | | | | |sandwich];
    try discriminate.
  cbn [get_prop cbind].
  intros H. repeat (apply andb_true_iff in H as [H ?]).
  destruct (lookup_field "slot" sandwich); try discriminate.
  destruct (lookup_field "timestamp" sandwich) as [| | |seconds| | |];
    try discriminate.
  destruct (lookup_field "frontrunInAmount" sandwich); try discriminate.
  destruct (lookup_field "frontrunOutAmount" sandwich); try discriminate.
  destruct (lookup_field "backrunInAmount" sandwich); try discriminate.
  destruct (lookup_field "backrunOutAmount" sandwich); try discriminate.
  destruct (lookup_field "solChange" sandwich); try discriminate.
  destruct (lookup_field "tokenChange" sandwich); try discriminate.
  unfold format, valid_date, ToString. cbn [unconvertible cbind].
  match goal with Ht : (Z.abs seconds <=? _) = true |- _ => rewrite Ht end.
  cbn [cbind formatAmount unconvertible].
  destruct (symbol_of (JObj data)) as [[| | | |text| |]|e]; try discriminate;
    cbn; try reflexivity.
  destruct (String.eqb text ""); reflexivity.
Qed.

(** A row that renders belongs to a record that passes the validation: its
    [data.sandwich] is an object with a [timestamp]. *)
Lemma row_renders_valid s : row_renders s = true -> valid_record s = true.
Proof.
  unfold row_renders, row, slot_of, valid_record, has_sandwich.
  destruct s as [| | | | | |fields]; cbn; try discriminate.
  destruct (lookup_field "data" fields) as [| | | | | |data]; cbn;
    try discriminate.
  destruct (lookup_field "sandwich" data) as [| | | | | |sandwich]; cbn;
    try discriminate.
  reflexivity.
Qed.

(** ** Appending, with the render *)

Lemma slots_readable_slot l s :
  slots_readable l = true -> In s l -> slot_of s = Normal (slot_key s).
Proof.
  unfold slots_readable. rewrite forallb_forall. intros H Hin.
  specialize (H s Hin). unfold slot_key.
  destruct (slot_of s); [reflexivity|discriminate].
Qed.

(** Over records whose slots can be read the search throws nothing and
    finds a record exactly when the slot is taken. *)
Lemma findIndex_from_readable n l : forall i,
  0 <= i ->
  valid_record n = true -> slots_readable l = true ->
  exists z, findIndex_from (same_slot n) l i = Normal z /\
            (z =? -1) = negb (slot_taken (slot_key n) l).
Proof.
  induction l as [|s l IH]; intros i Hi Hn Hl.
  - exists (-1). split; reflexivity.
  - pose proof (slots_readable_slot _ s Hl (or_introl eq_refl)) as Hs.
    unfold slots_readable in Hl. cbn in Hl.
    apply andb_true_iff in Hl as [_ Hl].
    cbn. unfold same_slot at 1.
    rewrite Hs, (valid_record_slot n Hn). cbn.
    destruct (strict_eq (slot_key s) (slot_key n)); cbn.
    + exists i. split; [reflexivity|].
      apply Z.eqb_neq. lia.
    + apply (IH (i + 1)); [lia|assumption..].
Qed.

(** What React does with an error that nothing catches. *)
Lemma uncaught_effect e w :
  Rendered.uncaught e w =
    (Normal tt,
     {| react := {| sandwiches := sandwiches (react w); mounted := false;
                    render_error := Some e |};
        feed := feed w;
        host := host (snd (deliver unmount w)) |}).
Proof.
  rewrite unmount_effect.
  destruct w as [rc [ws n fb rb ib] hs].
  unfold Rendered.uncaught, cleanup, clear_if_set, clearInterval, set_onclose,
    WebSocket_close, alter_socket, bind, gets, modify, on_host, ret.
  destruct ws as [k|], fb as [i1|], rb as [i2|], ib as [i3|]; reflexivity.
Qed.

Lemma unmount_allocated w :
  allocated (host (snd (deliver unmount w))) = allocated (host w).
Proof.
  rewrite unmount_effect. cbn [host].
  destruct (initialFallbackIntervalId (feed w)), (reconnectIntervalId (feed w)),
    (fallbackIntervalId (feed w)), (websocket (feed w)); reflexivity.
Qed.

(** One call of [updateSandwiches]: it returns; the array of the state is
    kept, by a component that is as mounted as before or has been taken
    down, or it is replaced by the array with the record in front, whose
    rows have rendered. *)
Lemma rendered_append_cases r w :
  exists w',
    Rendered.updateSandwiches r w = (Normal tt, w') /\
    (allocated (host w) <= allocated (host w'))%nat /\
    ((sandwiches (react w') = sandwiches (react w) /\
      ((mounted (react w') = mounted (react w) /\
        Rendered.updateSandwiches r w = updateSandwiches r w) \/
       mounted (react w') = false)) \/
     (mounted (react w) = true /\ valid_record r = true /\
      findIndex (same_slot r) (retained w) = Normal (-1) /\
      render (firstn 50 (r :: retained w)) = Normal tt /\
      retained w' = firstn 50 (r :: retained w) /\
      mounted (react w') = true /\ heap_ok w' /\
      Rendered.updateSandwiches r w = updateSandwiches r w)).
Proof.
  unfold Rendered.updateSandwiches, updateSandwiches.
  rewrite has_sandwich_total.
  unfold bind at 1 3, lift at 1 2. cbn.
  destruct (valid_record r) eqn:Hr.
  2:{ run_stmt. eexists. split; [reflexivity|]. cbn. split; [lia|].
      left. auto. }
  unfold Rendered.setSandwiches, setSandwiches.
  destruct (mounted (react w)) eqn:Hm.
  2:{ exists w. split; [reflexivity|]. split; [lia|]. left. auto. }
  pose proof (updateSandwiches_updater_cases r (sandwiches (react w)) (host w)) as Hu.
  destruct (updateSandwiches_updater r (sandwiches (react w)) (host w))
    as [[next|e] h'].
  2:{ subst h'. rewrite uncaught_effect. eexists. split; [reflexivity|].
      cbn [react host sandwiches mounted]. rewrite unmount_allocated. cbn.
      split; [lia|]. left. auto. }
  destruct Hu as [[-> ->]|(Hf & -> & ->)].
  - unfold Object_is. rewrite Nat.eqb_refl.
    eexists. split; [reflexivity|]. cbn. split; [lia|]. left. auto.
  - destruct (Object_is _ _) eqn:Ho.
    + eexists. split; [reflexivity|]. cbn. split; [lia|]. left. auto.
    + cbn [elems]. fold (retained w).
      destruct (render (firstn 50 (r :: retained w))) as [[]|e] eqn:Hrd.
      * match goal with |- context [save_effect ?x] =>
          destruct (save_effect_cases x) as (h2 & Hs & He & Ha & _)
        end.
        rewrite Hs. eexists. split; [reflexivity|]. cbn in *.
        split; [lia|]. right. unfold heap_ok, retained. cbn. rewrite Ha.
        repeat split; auto.
      * rewrite uncaught_effect. eexists. split; [reflexivity|].
        cbn [react host sandwiches mounted]. rewrite unmount_allocated. cbn.
        split; [lia|]. left. auto.
Qed.

(** An appended record whose slot is retained changes nothing at all. *)
Lemma rendered_append_duplicate r w :
  valid_record r = true -> slots_readable (retained w) = true ->
  slot_taken (slot_key r) (retained w) = true ->
  Rendered.updateSandwiches r w = (Normal tt, w).
Proof.
  intros Hr Hw Ht.
  unfold Rendered.updateSandwiches. rewrite has_sandwich_total, Hr.
  unfold bind at 1, lift at 1. cbv beta iota.
  unfold Rendered.setSandwiches.
  destruct (mounted (react w)); [|reflexivity].
  unfold updateSandwiches_updater, bind, lift, ret, findIndex.
  destruct (findIndex_from_readable r (retained w) 0 ltac:(lia) Hr Hw)
    as (z & Hz & Hzt).
  unfold retained in Hz. rewrite Hz.
  rewrite Ht in Hzt. cbn in Hzt. rewrite Hzt.
  unfold Object_is. rewrite Nat.eqb_refl.
  destruct w; reflexivity.
Qed.

(** An appended record whose slot is new and whose row renders goes in
    front, the list is cut to 50, and the save effect runs on that state. *)
Lemma rendered_append_fresh r w :
  rendered w -> row_renders r = true ->
  slot_taken (slot_key r) (retained w) = false ->
  Rendered.updateSandwiches r w =
    save_effect
      {| react := {| sandwiches := {| ref := S (allocated (host w));
                                      elems := firstn 50 (r :: retained w) |};
                     mounted := true;
                     render_error := render_error (react w) |};
         feed := feed w;
         host := with_allocated (S (S (allocated (host w)))) (host w) |}.
Proof.
  intros (Hm & Hh & Hrd) Hrow Ht.
  pose proof (row_renders_valid r Hrow) as Hr.
  pose proof (render_readable _ Hrd) as Hw.
  unfold Rendered.updateSandwiches. rewrite has_sandwich_total, Hr.
  unfold bind at 1, lift at 1. cbv beta iota.
  unfold Rendered.setSandwiches. rewrite Hm.
  unfold updateSandwiches_updater, bind, lift, ret, findIndex, new_array.
  destruct (findIndex_from_readable r (retained w) 0 ltac:(lia) Hr Hw)
    as (z & Hz & Hzt).
  unfold retained in Hz. rewrite Hz.
  rewrite Ht in Hzt. cbn in Hzt. rewrite Hzt. cbv beta iota.
  unfold Object_is. cbn [ref elems allocated with_allocated].
  replace (S (allocated (host w)) =? ref (sandwiches (react w)))%nat with false
    by (symmetry; apply Nat.eqb_neq; unfold heap_ok in Hh; lia).
  fold (retained w).
  assert (Hnext : render (firstn 50 (r :: retained w)) = Normal tt).
  { apply render_firstn, render_cons. auto. }
  rewrite Hnext. reflexivity.
Qed.

(** ** Events, with the render *)

Lemma rendered_onmessage_cases data w :
  (exists r, Rendered.onmessage_handler data w = Rendered.updateSandwiches r w /\
             onmessage_handler data w = updateSandwiches r w) \/
  (Rendered.onmessage_handler data w = onmessage_handler data w /\
   store_same w (snd (onmessage_handler data w))).
Proof.
  unfold Rendered.onmessage_handler, onmessage_handler, try_catch, bind, lift.
  destruct (JSON_parse data) as [v|e].
  - rewrite has_sandwich_total. destruct (valid_record v) eqn:Hv.
    + left. exists v.
      destruct (rendered_append_cases v w) as (w' & Hw & _).
      destruct (updateSandwiches_cases v w) as (w2 & Hw2 & _).
      rewrite Hw, Hw2. split; reflexivity.
    + right. repeat split.
  - right. repeat split.
Qed.

Lemma rendered_resume_cases r w :
  (exists v, Rendered.fetchSandwichesFallback_resume r w =
               Rendered.updateSandwiches v w /\
             fetchSandwichesFallback_resume r w = updateSandwiches v w) \/
  (Rendered.fetchSandwichesFallback_resume r w =
     fetchSandwichesFallback_resume r w /\
   store_same w (snd (fetchSandwichesFallback_resume r w))).
Proof.
  unfold Rendered.fetchSandwichesFallback_resume, fetchSandwichesFallback_resume,
    try_catch, bind, lift.
  destruct r as [[m|[|[[t value]|] rest]|]|e];
    try (right; repeat split; fail).
  destruct (JSON_parse value) as [v|e].
  - left. exists v.
    destruct (rendered_append_cases v w) as (w' & Hw & _).
    destruct (updateSandwiches_cases v w) as (w2 & Hw2 & _).
    rewrite Hw, Hw2. split; reflexivity.
  - right. repeat split.
Qed.

(** An event either is one call of [updateSandwiches], or does what it does
    without the render and leaves the array of the state and the heap
    alone. *)
Lemma rendered_deliver_cases ev w :
  (exists r, Rendered.deliver ev w = Rendered.updateSandwiches r w /\
             deliver ev w = updateSandwiches r w) \/
  (Rendered.deliver ev w = deliver ev w /\
   sandwiches (react (snd (deliver ev w))) = sandwiches (react w) /\
   allocated (host (snd (deliver ev w))) = allocated (host w) /\
   (mounted (react (snd (deliver ev w))) = mounted (react w) \/
    mounted (react (snd (deliver ev w))) = false)).
Proof.
  assert (Hk : forall m : M World unit, keeps store_same m ->
            sandwiches (react (snd (m w))) = sandwiches (react w) /\
            allocated (host (snd (m w))) = allocated (host w) /\
            (mounted (react (snd (m w))) = mounted (react w) \/
             mounted (react (snd (m w))) = false)).
  { intros m Hm. destruct (Hm w) as (? & ? & ?). auto. }
  destruct ev as [n|n data|n|n code|id|r|];
    try (right; split; [reflexivity|]; unfold deliver; apply Hk;
         repeat first
           [ apply onopen_handler_store | apply onerror_handler_store
           | apply onclose_handler_store | apply run_callback_store
           | keeps_step store_same_refl store_same_trans
                        (@store_same_on_host) store_same_with_feed ];
         fail).
  - unfold Rendered.deliver, deliver, bind, gets. cbv beta iota.
    destruct (sockets (host w) !! n) as [[u ? [] ? ? ?]|];
      try (right; repeat split; auto; fail).
    destruct (rendered_onmessage_cases data w) as [?|[He (?&?&?)]]; auto.
    right. rewrite He. auto.
  - unfold Rendered.deliver, deliver.
    destruct (rendered_resume_cases r w) as [?|[He (?&?&?)]]; auto.
    right. rewrite He. auto.
  - right. split; [reflexivity|]. unfold deliver, bind, modify.
    destruct (cleanup_store w) as (? & ? & ?).
    destruct (cleanup w) as [[[]|e] w']; cbn in *; repeat split; auto.
Qed.

Lemma rendered_deliver_unmounted ev w :
  mounted (react w) = false ->
  mounted (react (snd (Rendered.deliver ev w))) = false.
Proof.
  intros Hm.
  destruct (rendered_deliver_cases ev w) as [(r & -> & _)|(-> & _ & _ & [H|H])].
  - destruct (rendered_append_cases r w)
      as (w' & -> & _ & [(_ & [[H _]|H])|(H & _)]); cbn; congruence.
  - congruence.
  - exact H.
Qed.

Lemma rendered_run_unmounted evs : forall w,
  mounted (react w) = false ->
  mounted (react (Rendered.deliver_all evs w)) = false.
Proof.
  induction evs as [|ev evs IH]; intros w H; [exact H|].
  cbn. apply IH, rendered_deliver_unmounted, H.
Qed.

(** A component that is mounted after an event was mounted before it. *)
Lemma rendered_run_mounted evs w :
  mounted (react (Rendered.deliver_all evs w)) = true ->
  mounted (react w) = true.
Proof.
  intros H. destruct (mounted (react w)) eqn:Hm; [reflexivity|].
  rewrite (rendered_run_unmounted evs w Hm) in H. discriminate.
Qed.

(** The state of a mounted component has rendered, event after event. *)
Lemma rendered_deliver ev w :
  rendered w -> mounted (react (snd (Rendered.deliver ev w))) = true ->
  rendered (snd (Rendered.deliver ev w)).
Proof.
  intros (Hm & Hh & Hr) Hm'.
  destruct (rendered_deliver_cases ev w) as [(r & He & _)|(He & Hs & Ha & _)];
    rewrite He in *.
  - destruct (rendered_append_cases r w)
      as (w' & Hw & Ha & [(Hs & _)|(_ & _ & _ & Hrd & Hl & Hm2 & Hh2 & _)]);
      rewrite Hw in *; cbn [snd] in *.
    + unfold rendered, heap_ok, retained in *. rewrite Hs.
      repeat split; auto. lia.
    + unfold rendered. rewrite Hl. auto.
  - unfold rendered, heap_ok, retained in *. rewrite Hs, Ha. auto.
Qed.

Lemma rendered_deliver_all evs : forall w,
  rendered w -> mounted (react (Rendered.deliver_all evs w)) = true ->
  rendered (Rendered.deliver_all evs w).
Proof.
  induction evs as [|ev evs IH]; intros w H Hm; [exact H|].
  cbn in *. apply IH; [|exact Hm].
  apply rendered_deliver; [exact H|]. eapply rendered_run_mounted, Hm.
Qed.


Lemma rendered_append_distinct r w :
  distinct_slots (retained w) = true ->
  distinct_slots (retained (snd (Rendered.updateSandwiches r w))) = true.
Proof.
  intros H.
  destruct (rendered_append_cases r w) as (w' & -> & _ & [(Hs & _)|Hs]); cbn.
  - unfold retained in *. rewrite Hs. exact H.
  - destruct Hs as (_ & _ & Hf & _ & -> & _).
    apply distinct_slots_firstn. cbn.
    rewrite (findIndex_from_none r (retained w) 0 ltac:(lia) Hf). exact H.
Qed.


Lemma rendered_run_distinct evs : forall w,
  distinct_slots (retained w) = true ->
  distinct_slots (retained (Rendered.deliver_all evs w)) = true.
Proof.
  induction evs as [|ev evs IH]; intros w H; [exact H|].
  cbn. apply IH.
  destruct (rendered_deliver_cases ev w) as [(r & -> & _)|(-> & Hs & _)].
  - apply rendered_append_distinct, H.
  - unfold retained in *. rewrite Hs. exact H.
Qed.

(** ** The mount, with the first render *)

Lemma rendered_mount_cases st :
  exists a h,
    getInitialSandwiches (initial_host st) = (Normal a, h) /\
    retained (snd (Rendered.mount st)) = elems a /\
    (length (elems a) <= 50)%nat /\
    ((render (elems a) = Normal tt /\ Rendered.mount st = mount st) \/
     (exists e, render (elems a) = Thrown e /\
                snd (Rendered.mount st) =
                  {| react := {| sandwiches := a; mounted := false;
                                 render_error := Some e |};
                     feed := initial_feed; host := h |})).
Proof.
  destruct (getInitialSandwiches_array (initial_host st))
    as (a & h & Hg & _ & _ & Hlen & _).
  exists a, h. split; [exact Hg|].
  unfold Rendered.mount, mount. rewrite Hg.
  destruct (render (elems a)) as [[]|e] eqn:Hr.
  - destruct (mount_cases st) as (a' & h' & Hg' & Hret & _).
    rewrite Hg in Hg'. injection Hg' as <- <-.
    unfold mount in Hret. rewrite Hg in Hret.
    split; [exact Hret|]. split; [exact Hlen|]. left. auto.
  - split; [reflexivity|]. split; [exact Hlen|]. right. eauto.
Qed.

Lemma rendered_mount st :
  mounted (react (snd (Rendered.mount st))) = true ->
  rendered (snd (Rendered.mount st)).
Proof.
  intros Hm.
  destruct (rendered_mount_cases st)
    as (a & h & Hg & Hret & _ & [[Hr He]|(e & _ & Hw)]).
  - destruct (mount_cases st) as (_ & _ & _ & _ & _ & Hh & _).
    unfold rendered. rewrite Hret, He in *. auto.
  - rewrite Hw in Hm. discriminate.
Qed.


(** The state of a component that is mounted after a run has rendered. *)
Lemma rendered_run st evs :
  mounted (react (Rendered.deliver_all evs (snd (Rendered.mount st)))) = true ->
  rendered (Rendered.deliver_all evs (snd (Rendered.mount st))).
Proof.
  intros Hm. apply rendered_deliver_all; [|exact Hm].
  apply rendered_mount. eapply rendered_run_mounted, Hm.
Qed.

(** A run that leaves the component mounted is a run in which every update
    was committed: no render in it has failed. *)
Lemma mounted_deliver_commits ev w :
  mounted (react (snd (Rendered.deliver ev w))) = true ->
  Rendered.deliver ev w = deliver ev w.
Proof.
  intros Hm.
  destruct (rendered_deliver_cases ev w) as [(r & He & Ho)|(He & _)];
    [|exact He].
  rewrite He in *. rewrite Ho.
  destruct (rendered_append_cases r w)
    as (w' & Hw & _ & [(_ & [[_ H]|H])|(_ & _ & _ & _ & _ & _ & _ & H)]);
    try exact H.
  rewrite Hw in Hm. cbn in Hm. congruence.
Qed.

Lemma mounted_run_commits evs : forall w,
  mounted (react (Rendered.deliver_all evs w)) = true ->
  Rendered.deliver_all evs w = deliver_all evs w.
Proof.
  induction evs as [|ev evs IH]; intros w Hm; [reflexivity|].
  cbn in *.
  pose proof (rendered_run_mounted evs _ Hm) as Hm1.
  rewrite (IH _ Hm). rewrite (mounted_deliver_commits ev w Hm1). reflexivity.
Qed.

Lemma mounted_mount_commits st :
  mounted (react (snd (Rendered.mount st))) = true ->
  Rendered.mount st = mount st.
Proof.
  intros Hm.
  destruct (rendered_mount_cases st)
    as (a & h & _ & _ & _ & [[_ He]|(e & _ & Hw)]); [exact He|].
  rewrite Hw in Hm. discriminate.
Qed.


(** ** The claims about the retained list, on the rendered component *)

Lemma rendered_append_fresh_state r w :
  rendered w -> row_renders r = true ->
  slot_taken (slot_key r) (retained w) = false ->
  exists w',
    Rendered.updateSandwiches r w = (Normal tt, w') /\
    retained w' = firstn 50 (r :: retained w) /\
    rendered w' /\ feed w' = feed w.
Proof.
  intros Hw Hrow Ht.
  rewrite (rendered_append_fresh r w Hw Hrow Ht).
  destruct Hw as (Hm & Hh & Hrd).
  assert (Hnext : render (firstn 50 (r :: retained w)) = Normal tt).
  { apply render_firstn, render_cons. auto. }
  match goal with |- context [save_effect ?x] =>
    destruct (save_effect_cases x) as (h2 & Hs & _ & Ha & _)
  end.
  rewrite Hs. eexists. split; [reflexivity|].
  unfold rendered, heap_ok, retained in *. cbn in *. rewrite Ha.
  repeat split; auto.
Qed.


(** C1 (amended): when the list loaded at mount holds pairwise different
    slots (no two of them [===]), every run of events keeps the slots of the
    retained records pairwise different; and while the component is
    mounted, after any cache and any run, an appended validated record
    whose slot is retained changes nothing, while one with a new slot whose
    row renders is put in front and the list cut to 50. *)
Theorem appends_keep_slots_distinct (st : Storage) :
  (distinct_slots (retained (snd (Rendered.mount st))) = true ->
   forall evs,
     distinct_slots
       (retained (Rendered.deliver_all evs (snd (Rendered.mount st)))) = true) /\
  (forall evs r,
     mounted (react (Rendered.deliver_all evs (snd (Rendered.mount st)))) = true ->
     valid_record r = true ->
     (slot_taken (slot_key r)
        (retained (Rendered.deliver_all evs (snd (Rendered.mount st)))) = true ->
      Rendered.updateSandwiches r
        (Rendered.deliver_all evs (snd (Rendered.mount st))) =
        (Normal tt, Rendered.deliver_all evs (snd (Rendered.mount st)))) /\
     (slot_taken (slot_key r)
        (retained (Rendered.deliver_all evs (snd (Rendered.mount st)))) = false ->
      row_renders r = true ->
      retained
        (snd (Rendered.updateSandwiches r
                (Rendered.deliver_all evs (snd (Rendered.mount st))))) =
        firstn 50
          (r :: retained (Rendered.deliver_all evs (snd (Rendered.mount st)))) /\
      mounted
        (react
           (snd (Rendered.updateSandwiches r
                   (Rendered.deliver_all evs (snd (Rendered.mount st)))))) =
        true)).
Proof.
  split.
  - intros Hd evs. apply rendered_run_distinct, Hd.
  - intros evs r Hm Hr.
    pose proof (rendered_run st evs Hm) as Hok.
    split.
    + intros Ht. apply rendered_append_duplicate; [exact Hr| |exact Ht].
      apply render_readable. apply Hok.
    + intros Ht Hrow.
      destruct (rendered_append_fresh_state r _ Hok Hrow Ht)
        as (w' & -> & Hl & (Hm' & _) & _).
      split; [exact Hl|exact Hm'].
Qed.


(** X8: when [setItem] throws, an appended record with a new slot whose
    row renders is retained all the same by the mounted component: the call
    returns normally, the stored entry is the one before, the failure is
    logged once and the feed is not touched. *)
Theorem failed_write_is_not_fatal (r : jsval) (w : World) :
  rendered w -> row_renders r = true ->
  slot_taken (slot_key r) (retained w) = false ->
  accessible (storage (host w)) && quota_left (storage (host w)) = false ->
  exists w',
    Rendered.updateSandwiches r w = (Normal tt, w') /\
    retained w' = firstn 50 (r :: retained w) /\
    mounted (react w') = true /\
    item (storage (host w')) = item (storage (host w)) /\
    console (host w') =
      (console (host w) ++ [Error_saving_sandwiches_to_localStorage])%list /\
    feed w' = feed w /\
    sockets (host w') = sockets (host w) /\
    timers (host w') = timers (host w).
Proof.
  intros Hw Hrow Ht Hfail.
  rewrite (rendered_append_fresh r w Hw Hrow Ht).
  rewrite save_effect_failed by exact Hfail.
  eexists. split; [reflexivity|]. repeat split.
Qed.

(** X10: the list of a mounted component has rendered, whatever the cache
    held and whatever events came: each retained record passes the
    validation and its slot can be read, so the search of an append never
    throws; an entry like a cached [null] is never in it. *)
Theorem mounted_list_has_rendered (st : Storage) (evs : list event) :
  mounted (react (Rendered.deliver_all evs (snd (Rendered.mount st)))) = true ->
  render (retained (Rendered.deliver_all evs (snd (Rendered.mount st)))) =
    Normal tt /\
  forall s,
    In s (retained (Rendered.deliver_all evs (snd (Rendered.mount st)))) ->
    valid_record s = true /\ slot_of s = Normal (slot_key s) /\
    forall r, valid_record r = true ->
              exists found, same_slot r s = Normal found.
Proof.
  intros Hm. destruct (rendered_run st evs Hm) as (_ & _ & Hr).
  split; [exact Hr|]. intros s Hin.
  pose proof (render_in _ s Hr Hin) as Hrow.
  pose proof (row_renders_slot s Hrow) as Hs.
  split; [apply row_renders_valid, Hrow|]. split; [exact Hs|].
  intros r Hv. unfold same_slot.
  rewrite Hs, (valid_record_slot r Hv). cbn. eauto.
Qed.

End Properties.





(** * The claims on sample inputs *)

Lemma getInitialSandwiches_never_fails_witness :
  exists a h',
    getInitialSandwiches (engine := sample_engine)
      (initial_host (storage_holding two_records)) = (Normal a, h') /\
    elems a = [record_with_slot 1; record_with_slot 2].
Proof.
  destruct (getInitialSandwiches_never_fails (engine := sample_engine)
              (initial_host (storage_holding two_records)))
    as (a & h' & Hg & _ & _ & _ & _ & Harr).
  exists a, h'. split; [exact Hg|].
  apply (Harr (JSON_text two_records)
              [record_with_slot 1; record_with_slot 2]);
    [reflexivity|reflexivity|discriminate|vm_compute; reflexivity].
Defined.

Lemma duplicate_append_changes_nothing_witness :
  updateSandwiches (engine := sample_engine) (record_with_slot 1)
    (snd (mount (engine := sample_engine) (storage_holding two_records))) =
  (Normal tt, snd (mount (engine := sample_engine) (storage_holding two_records))).
Proof.
  apply (duplicate_append_changes_nothing (engine := sample_engine));
    vm_compute; reflexivity.
Defined.

Lemma malformed_input_is_dropped_witness :
  onmessage_handler (engine := sample_engine) "not json"
    (snd (mount (engine := sample_engine) empty_storage)) =
  (Normal tt,
   logged Error_parsing_WebSocket_data
     (snd (mount (engine := sample_engine) empty_storage))) /\
  onmessage_handler (engine := sample_engine) "5"
    (snd (mount (engine := sample_engine) empty_storage)) =
  (Normal tt,
   logged (Received_WebSocket_message_with_unexpected_structure (JNum 5))
     (snd (mount (engine := sample_engine) empty_storage))).
Proof.
  destruct (malformed_input_is_dropped (engine := sample_engine)
              (snd (mount (engine := sample_engine) empty_storage)))
    as (Hthrow & Hshape & _).
  split.
  - apply (Hthrow "not json" SyntaxError). vm_compute. reflexivity.
  - apply (Hshape "5" (JNum 5)); vm_compute; reflexivity.
Defined.

Lemma onclose_reconnects_once_witness :
  onclose_handler primaryWsUrl 1006
    (snd (mount (engine := sample_engine) empty_storage)) =
  (Normal tt,
   {| react := react (snd (mount (engine := sample_engine) empty_storage));
      feed := {| websocket := Some 0%nat; reconnectAttempts := 1;
                 fallbackIntervalId := None; reconnectIntervalId := None;
                 initialFallbackIntervalId := Some 1%positive |};
      host := with_polls_issued 1
                (schedule (reconnect_timer primaryWsUrl)
                   (host (snd (mount (engine := sample_engine) empty_storage)))) |}).
Proof.
  destruct (onclose_reconnects_once primaryWsUrl 1006
              (snd (mount (engine := sample_engine) empty_storage)))
    as (_ & Hretry & _).
  rewrite Hretry; [reflexivity|lia|lia|vm_compute; lia].
Defined.

(** C4, as stated, fails: after exactly 10 abnormal closes in a row, each
    followed by the reconnect it scheduled, the counter is 10 and neither
    the 10 s poll nor the 30 s reconnect has been started. *)
Lemma ten_closes_do_not_enter_fallback :
  let w := deliver_all (engine := sample_engine) (close_rounds 10)
             (snd (mount (engine := sample_engine) empty_storage)) in
  abnormal_closes (close_rounds 10) = 10%nat /\
  reconnectAttempts (feed w) = 10%nat /\
  fallbackIntervalId (feed w) = None /\
  reconnectIntervalId (feed w) = None /\
  started_intervals fetchSandwichesFallback_cb 10000 w = 0%nat /\
  started_intervals periodic_reconnect_cb 30000 w = 0%nat /\
  timers (host w) = [(1%positive, backup_poll)].
Proof. vm_compute. repeat split; reflexivity. Qed.

Lemma fallback_entered_on_eleventh_close_witness :
  before_fallback 10
    (deliver_all (engine := sample_engine) (close_rounds 10)
       (snd (mount (engine := sample_engine) empty_storage))) /\
  in_fallback
    (deliver_all (engine := sample_engine)
       (close_rounds 10 ++ [socket_error 10; socket_close 10 1006])
       (snd (mount (engine := sample_engine) empty_storage))).
Proof.
  split.
  - apply (fallback_entered_on_eleventh_close (engine := sample_engine)
             empty_storage (close_rounds 10));
      first [vm_compute; reflexivity | vm_compute; lia].
  - apply (fallback_entered_on_eleventh_close (engine := sample_engine)
             empty_storage
             (close_rounds 10 ++ [socket_error 10; socket_close 10 1006]));
      first [vm_compute; reflexivity | vm_compute; lia].
Defined.

(** C3 fails on the code: the cleanup clears the three intervals and
    replaces [onclose] only.  A reconnect scheduled by an abnormal close
    just before the unmount is still pending after it; when it fires it
    opens a socket to the other endpoint with the four handlers installed.
    The socket closed by the cleanup keeps [onopen], [onmessage] and
    [onerror]; an error event on it after the unmount issues a poll. *)
Theorem reconnect_fires_after_cleanup :
  let w0 := snd (mount (engine := sample_engine) empty_storage) in
  let w1 := deliver_all (engine := sample_engine)
              [socket_open 0; socket_close 0 1006; unmount] w0 in
  let w2 := deliver_all (engine := sample_engine) [timer_fired 2] w1 in
  let w3 := deliver_all (engine := sample_engine) [unmount; socket_error 0] w0 in
  mounted (react w1) = false /\
  timers (host w1) = [(2%positive, reconnect_timer primaryWsUrl)] /\
  sockets (host w1) =
    [{| url := primaryWsUrl; onopen := feed_handler; onmessage := feed_handler;
        onerror := feed_handler; onclose := empty_handler;
        close_called := true |}] /\
  websocket (feed w2) = Some 1%nat /\
  sockets (host w2) !! 1%nat =
    Some {| url := fallbackWsUrl; onopen := feed_handler;
            onmessage := feed_handler; onerror := feed_handler;
            onclose := feed_handler; close_called := false |} /\
  timers (host w3) = [] /\
  polls_issued (host w3) = 1%nat /\
  console (host w3) = [WebSocket_error].
Proof. vm_compute. repeat split; reflexivity. Qed.

Lemma live_points_strictly_increase_witness :
  let b := {| liveBalance := 6;
              balanceChartData := [{| time := 1000; balance := 5 |};
                                   {| time := 2000; balance := 6 |}] |} in
  balance_updater 2000 7 (balanceChartData b) = balanceChartData b /\
  ascending
    (balanceChartData
       (live_updates [Normal (vector [Some (2000, 7)]);
                      Normal (vector [Some (2500, 8)]);
                      Thrown NetworkError;
                      Normal (vector [Some (1500, 9)])] b)) = true.
Proof.
  intros b.
  destruct (live_points_strictly_increase b) as (Hstale & _ & _ & Hasc).
  split.
  - apply (Hstale 2000 7 {| time := 2000; balance := 6 |});
      [reflexivity|cbn; lia].
  - apply Hasc. reflexivity.
Defined.

Lemma appends_keep_slots_distinct_witness :
  let w := Rendered.deliver_all (engine := feed_engine)
             (numbers := no_numeric_texts)
             [socket_open 0; socket_message 0 (JSON_text (sandwich 3))]
             (snd (Rendered.mount (engine := feed_engine)
                     (numbers := no_numeric_texts)
                     (storage_holding sandwiches_1_2))) in
  distinct_slots (retained w) = true /\
  Rendered.updateSandwiches (engine := feed_engine)
    (numbers := no_numeric_texts) (sandwich 1) w = (Normal tt, w) /\
  retained (snd (Rendered.updateSandwiches (engine := feed_engine)
                   (numbers := no_numeric_texts) (sandwich 4) w)) =
    firstn 50 (sandwich 4 :: retained w).
Proof.
  intros w.
  destruct (appends_keep_slots_distinct (engine := feed_engine)
              (numbers := no_numeric_texts) (storage_holding sandwiches_1_2))
    as [Hall Hstep].
  split; [apply Hall; vm_compute; reflexivity|].
  assert (Hm : mounted (react w) = true) by (vm_compute; reflexivity).
  split.
  - apply (Hstep _ (sandwich 1) Hm); vm_compute; reflexivity.
  - apply (Hstep _ (sandwich 4) Hm); vm_compute; reflexivity.
Defined.

(** C1, as stated, fails.  A cache that holds two records of slot 7 is
    loaded as it is: its rows render, the component mounts, and both records
    stay retained while a push message of slot 8 is appended in front of
    them.  And a validated record with a new slot is not always put in
    front: for one without a timestamp the row does not render, so nothing
    is retained of it and the component is taken down. *)
Lemma cached_duplicates_stay_retained :
  let w := Rendered.deliver_all (engine := feed_engine)
             (numbers := no_numeric_texts)
             [socket_open 0; socket_message 0 (JSON_text (sandwich 8))]
             (snd (Rendered.mount (engine := feed_engine)
                     (numbers := no_numeric_texts)
                     (storage_holding slot_7_twice))) in
  let v := Rendered.deliver_all (engine := feed_engine)
             (numbers := no_numeric_texts)
             [socket_open 0; socket_message 0 (JSON_text (record_with_slot 3))]
             (snd (Rendered.mount (engine := feed_engine)
                     (numbers := no_numeric_texts)
                     (storage_holding sandwiches_1_2))) in
  mounted (react w) = true /\
  retained w = [sandwich 8; sandwich 7; sandwich_record 7 1700000067] /\
  slot_of (sandwich 7) = Normal (JNum 7) /\
  slot_of (sandwich_record 7 1700000067) = Normal (JNum 7) /\
  distinct_slots (retained w) = false /\
  valid_record (record_with_slot 3) = true /\
  slot_taken (slot_key (record_with_slot 3)) [sandwich 1; sandwich 2] = false /\
  retained v = [sandwich 1; sandwich 2] /\
  mounted (react v) = false.
Proof. vm_compute. repeat split; reflexivity. Qed.


(** * More of the code, on sample inputs *)

Lemma at_most_one_unclosed_socket_witness :
  websocket (feed (deliver_all (engine := sample_engine) (close_rounds 2)
                     (snd (mount (engine := sample_engine) empty_storage)))) =
    Some 2%nat.
Proof.
  apply (at_most_one_unclosed_socket (engine := sample_engine) empty_storage
           (close_rounds 2) 2%nat
           {| url := primaryWsUrl; onopen := feed_handler;
              onmessage := feed_handler; onerror := feed_handler;
              onclose := feed_handler; close_called := false |});
    vm_compute; reflexivity.
Defined.

Lemma fallback_intervals_never_pile_up_witness :
  pending_intervals fetchSandwichesFallback_cb 10000
    (deliver_all (engine := sample_engine) (eleven_closes ++ [socket_close 10 1006])
       (snd (mount (engine := sample_engine) empty_storage))) = 1%nat /\
  pending_intervals periodic_reconnect_cb 30000
    (deliver_all (engine := sample_engine) (eleven_closes ++ [socket_close 10 1006])
       (snd (mount (engine := sample_engine) empty_storage))) = 1%nat.
Proof.
  apply (fallback_intervals_never_pile_up (engine := sample_engine)
           empty_storage (eleven_closes ++ [socket_close 10 1006])).
  vm_compute. reflexivity.
Defined.

Lemma open_leaves_fallback_mode_witness :
  exists w',
    deliver (engine := sample_engine) (socket_open 10)
      (deliver_all (engine := sample_engine) eleven_closes
         (snd (mount (engine := sample_engine) empty_storage))) =
      (Normal tt, w') /\
    reconnectAttempts (feed w') = 0%nat /\
    fallbackIntervalId (feed w') = None /\
    reconnectIntervalId (feed w') = None /\
    pending_intervals fetchSandwichesFallback_cb 10000 w' = 0%nat /\
    pending_intervals periodic_reconnect_cb 30000 w' = 0%nat /\
    In (1%positive, backup_poll) (timers (host w')).
Proof.
  apply (open_leaves_fallback_mode (engine := sample_engine) empty_storage
           eleven_closes 10%nat
           {| url := primaryWsUrl; onopen := feed_handler;
              onmessage := feed_handler; onerror := feed_handler;
              onclose := feed_handler; close_called := false |});
    vm_compute; reflexivity.
Defined.

Lemma backup_poll_stays_pending_witness :
  initialFallbackIntervalId
    (feed (deliver_all (engine := sample_engine) (eleven_closes ++ [socket_open 10])
             (snd (mount (engine := sample_engine) empty_storage)))) =
    Some 1%positive /\
  In (1%positive, backup_poll)
     (timers (host (deliver_all (engine := sample_engine)
                      (eleven_closes ++ [socket_open 10])
                      (snd (mount (engine := sample_engine) empty_storage))))).
Proof.
  apply (backup_poll_stays_pending (engine := sample_engine) empty_storage
           (eleven_closes ++ [socket_open 10])).
  vm_compute. reflexivity.
Defined.

Lemma cleanup_cancels_every_interval_witness :
  repeating (reconnect_timer primaryWsUrl) = false.
Proof.
  apply (cleanup_cancels_every_interval (engine := sample_engine) empty_storage
           [socket_close 0 1006] 2%positive (reconnect_timer primaryWsUrl)).
  - vm_compute. reflexivity.
  - vm_compute. left. reflexivity.
Defined.

Lemma close_after_cleanup_is_silent_witness :
  deliver (engine := sample_engine) (socket_close 0 1006)
    (snd (deliver (engine := sample_engine) unmount
            (snd (mount (engine := sample_engine) empty_storage)))) =
  (Normal tt,
   snd (deliver (engine := sample_engine) unmount
          (snd (mount (engine := sample_engine) empty_storage)))).
Proof.
  apply (close_after_cleanup_is_silent (engine := sample_engine)
           (snd (mount (engine := sample_engine) empty_storage)) 0%nat 1006).
  vm_compute. reflexivity.
Defined.

Lemma cache_mirrors_retained_witness :
  item (storage (host
    (deliver_all (engine := sample_engine)
       [socket_open 0; socket_message 0 (JSON_text (record_with_slot 3))]
       (snd (mount (engine := sample_engine) (storage_holding two_records)))))) =
  Some (JSON_text (JArr [record_with_slot 3; record_with_slot 1;
                         record_with_slot 2])).
Proof.
  apply (cache_mirrors_retained (engine := sample_engine)
           (storage_holding two_records)
           [socket_open 0; socket_message 0 (JSON_text (record_with_slot 3))]);
    reflexivity.
Defined.

Lemma remount_restores_retained_witness :
  retained
    (snd (mount (engine := sample_engine)
            (storage (host
               (deliver_all (engine := sample_engine)
                  [socket_open 0;
                   socket_message 0 (JSON_text (record_with_slot 1))]
                  (snd (mount (engine := sample_engine)
                          (storage_holding two_records)))))))) =
  [record_with_slot 1; record_with_slot 2].
Proof.
  apply (remount_restores_retained (engine := sample_engine)
           (storage_holding two_records)
           [socket_open 0; socket_message 0 (JSON_text (record_with_slot 1))]);
    first [vm_compute; reflexivity | vm_compute; discriminate].
Defined.

Lemma second_record_of_a_slot_is_dropped_witness :
  updateSandwiches (engine := wider_engine) slot_7_again
    (snd (updateSandwiches (engine := wider_engine) (record_with_slot 7)
            (snd (mount (engine := wider_engine) empty_storage)))) =
  (Normal tt,
   snd (updateSandwiches (engine := wider_engine) (record_with_slot 7)
          (snd (mount (engine := wider_engine) empty_storage)))).
Proof.
  apply (second_record_of_a_slot_is_dropped (engine := wider_engine)
           (record_with_slot 7) slot_7_again
           (snd (mount (engine := wider_engine) empty_storage)));
    first [vm_compute; reflexivity | vm_compute; repeat split; lia].
Defined.

Lemma window_is_a_suffix_witness :
  (exists k, filteredBalanceChartData (twentyFourHours + 1500) three_points =
             skipn k three_points) /\
  ascending (filteredBalanceChartData (twentyFourHours + 1500) three_points) =
    true.
Proof.
  apply (window_is_a_suffix (twentyFourHours + 1500) three_points).
  reflexivity.
Defined.

Lemma window_only_shrinks_witness :
  filteredBalanceChartData (twentyFourHours + 2500)
    (filteredBalanceChartData (twentyFourHours + 1500) three_points) =
  filteredBalanceChartData (twentyFourHours + 2500) three_points.
Proof.
  apply (window_only_shrinks (twentyFourHours + 1500)
           (twentyFourHours + 2500) three_points).
  vm_compute. discriminate.
Defined.

Lemma balance_series_ascending_in_any_order_witness :
  ascending
    (balanceChartData
       (panel
          (balance_run
             [live_settled (Normal (vector [Some (2500, 8)]));
              history_settled (Normal (matrix [[(1000, 5); (2000, 6)]]));
              live_settled (Normal (vector [Some (1500, 9)]))]
             (initial_panel 0)))) = true.
Proof.
  apply (balance_series_ascending_in_any_order
           [live_settled (Normal (vector [Some (2500, 8)]));
            history_settled (Normal (matrix [[(1000, 5); (2000, 6)]]));
            live_settled (Normal (vector [Some (1500, 9)]))]
           (initial_panel 0));
    reflexivity.
Defined.

Lemma failed_write_is_not_fatal_witness :
  exists w',
    Rendered.updateSandwiches (engine := feed_engine)
      (numbers := no_numeric_texts) (sandwich 3)
      (snd (Rendered.mount (engine := feed_engine)
              (numbers := no_numeric_texts) (full_storage sandwiches_1_2))) =
      (Normal tt, w') /\
    retained w' = [sandwich 3; sandwich 1; sandwich 2] /\
    mounted (react w') = true /\
    item (storage (host w')) = Some (JSON_text sandwiches_1_2) /\
    console (host w') =
      [Error_saving_sandwiches_to_localStorage;
       Error_saving_sandwiches_to_localStorage] /\
    feed w' = feed (snd (Rendered.mount (engine := feed_engine)
                           (numbers := no_numeric_texts)
                           (full_storage sandwiches_1_2))) /\
    sockets (host w') = [first_socket] /\
    timers (host w') = [(1%positive, backup_poll)].
Proof.
  apply (failed_write_is_not_fatal (engine := feed_engine)
           (numbers := no_numeric_texts) (sandwich 3)
           (snd (Rendered.mount (engine := feed_engine)
                   (numbers := no_numeric_texts)
                   (full_storage sandwiches_1_2))));
    first [vm_compute; reflexivity | vm_compute; repeat split; lia].
Defined.

Lemma mounted_list_has_rendered_witness :
  render (numbers := no_numeric_texts)
    (retained (Rendered.deliver_all (engine := feed_engine)
                 (numbers := no_numeric_texts)
                 [socket_open 0; socket_message 0 (JSON_text (sandwich 3))]
                 (snd (Rendered.mount (engine := feed_engine)
                         (numbers := no_numeric_texts)
                         (storage_holding sandwiches_1_2))))) = Normal tt /\
  forall s,
    In s (retained (Rendered.deliver_all (engine := feed_engine)
                      (numbers := no_numeric_texts)
                      [socket_open 0; socket_message 0 (JSON_text (sandwich 3))]
                      (snd (Rendered.mount (engine := feed_engine)
                              (numbers := no_numeric_texts)
                              (storage_holding sandwiches_1_2))))) ->
    valid_record s = true /\ slot_of s = Normal (slot_key s) /\
    forall r, valid_record r = true ->
              exists found, same_slot r s = Normal found.
Proof.
  apply (mounted_list_has_rendered (engine := feed_engine)
           (numbers := no_numeric_texts) (storage_holding sandwiches_1_2)
           [socket_open 0; socket_message 0 (JSON_text (sandwich 3))]).
  vm_compute. reflexivity.
Defined.
